(** * tidy-exit: a shallow embedding of [src/lib/tidy-exit.js]

    The library keeps its whole state in module-level variables and reacts to
    events delivered by the Node.js runtime (signals, IPC messages, timers,
    completion callbacks).  The embedding below keeps the module variables in
    a record [state], the part of the runtime the library talks to in a
    record [world], and writes every function of the source as a state
    transformer.  Functions that can reach [process.exit] live in a small
    monad [M] whose computations may stop early. *)

From Stdlib Require Import ZArith List String Bool Arith Lia.
From Stdlib Require Import DecimalString ZifyBool.
Import ListNotations.

Local Open Scope string_scope.
Local Open Scope list_scope.
Local Open Scope Z_scope.

Infix "+s" := String.append (at level 50, left associativity).

(* ------------------------------------------------------------------------ *)
(** ** JavaScript values *)
(* ------------------------------------------------------------------------ *)

(** Values that reach the numeric parameters of the API ([timeout],
    [handler_number]): a number, [null], or nothing at all.  Numbers are
    integers (milliseconds, slot indices); [NaN] only arises as the
    conversion of [undefined] and is handled in the comparisons below. *)
Inductive jsnum :=
| JUndefined
| JNull
| JNum (n : Z).

(** [if (v)] *)
Definition truthy (v : jsnum) : bool :=
  match v with
  | JNum n => negb (n =? 0)
  | _ => false
  end.

(** [ToNumber]: [None] stands for [NaN]. *)
Definition to_number (v : jsnum) : option Z :=
  match v with
  | JUndefined => None
  | JNull => Some 0
  | JNum n => Some n
  end.

(** [a > b]: false as soon as one side converts to [NaN]. *)
Definition js_gt (a b : jsnum) : bool :=
  match to_number a, to_number b with
  | Some x, Some y => x >? y
  | _, _ => false
  end.

(** [a <= b] *)
Definition js_le (a b : jsnum) : bool :=
  match to_number a, to_number b with
  | Some x, Some y => x <=? y
  | _, _ => false
  end.

Definition number_to_string (n : Z) : string :=
  NilZero.string_of_int (Z.to_int n).

Definition jsnum_to_string (v : jsnum) : string :=
  match v with
  | JUndefined => "undefined"
  | JNull => "null"
  | JNum n => number_to_string n
  end.

(** Values that arrive as the payload of a process event or as a
    description: what JSON can carry over an IPC channel, plus [undefined].
    [VObj] is a plain object without [toString]/[valueOf] of its own. *)
#[warnings="-register-all"]
Inductive jsval :=
| VUndefined
| VNull
| VBool (b : bool)
| VNum (n : Z)
| VStr (s : string)
| VArr (l : list jsval)
| VObj.

(** [ToString]; an array joins its elements with commas, [null] and
    [undefined] elements giving the empty string. *)
Fixpoint to_string (v : jsval) : string :=
  match v with
  | VUndefined => "undefined"
  | VNull => "null"
  | VBool true => "true"
  | VBool false => "false"
  | VNum n => number_to_string n
  | VStr s => s
  | VArr l =>
      (fix join (l : list jsval) : string :=
         match l with
         | [] => ""
         | x :: r =>
             let e := match x with
                      | VUndefined | VNull => ""
                      | _ => to_string x
                      end in
             match r with
             | [] => e
             | _ => e +s "," +s join r
             end
         end) l
  | VObj => "[object Object]"
  end.

(** [message == 'shutdown']: loose equality against a string that is not a
    numeral.  Strings compare by content; numbers and booleans compare
    against [ToNumber('shutdown') = NaN]; [null] and [undefined] only equal
    each other; objects are first converted to a primitive string. *)
Definition loose_eq_shutdown (message : jsval) : bool :=
  match message with
  | VStr s => String.eqb s "shutdown"
  | VArr _ | VObj => String.eqb (to_string message) "shutdown"
  | VUndefined | VNull | VBool _ | VNum _ => false
  end.

(* ------------------------------------------------------------------------ *)
(** ** Configuration constants *)
(* ------------------------------------------------------------------------ *)

Definition SYSTEM_EXIT_SIGNALS : list string := ["SIGTERM"; "SIGINT"; "SIGBREAK"].

Definition DEFAULT_GRACEFUL_TIMEOUT : Z := 2 * 60 * 1000.

(* ------------------------------------------------------------------------ *)
(** ** Data model *)
(* ------------------------------------------------------------------------ *)

(** The functions handed to [addTidyExitHandler]. *)
Inductive exit_handler :=
| default_exit_handler                 (* [_defaultExitHandler] *)
| express_exit_handler (app : nat)     (* the closure made by [hookExpressApp] *)
| http_exit_handler (server : nat)     (* the closure made by [hookHttpServer] *)
| app_exit_handler (sync_done : nat).  (* an application callback that calls
                                          [done] that many times before it
                                          returns; later calls arrive as
                                          separate events *)

(** The one-shot closure [addTidyExitHandler] subscribes to ['tidyExit']. *)
Record exit_listener := {
  appExitHandler : exit_handler;
  desc : jsval
}.

(** [tidy_exit_event]: the listeners of ['tidyExit'] in subscription order and
    how many times [_checkHandlersDone] is subscribed to ['done']. *)
Record EventEmitter := {
  on_tidyExit : list exit_listener;
  on_done : nat
}.

(** The closures [_registerExitListeners] binds on [process]; [fn_id] is the
    identity of the function object. *)
Inductive handler_body :=
| on_message
| on_signal (signal : string).

Record proc_handler := {
  fn_id : nat;
  fn_body : handler_body
}.

(** A listener bound with [process.once(name, handler)]. *)
Record binding := {
  bound_event : string;
  bound_handler : proc_handler
}.

Inductive logger :=
| default_logger
| custom_logger (sink : nat).

Record express_app := {
  tidy_exit_state : option bool;   (* [app.get('tidy_exit_state')] *)
  tidy_middleware : nat            (* copies of [_expresstidyExitHandler] in the stack *)
}.

(** What the library can see of, and do to, the Node.js process. *)
Record world := {
  process_listeners : list binding;       (* once-listeners on [process] *)
  timers : list (nat * jsnum);            (* pending [setTimeout]s: handle, delay *)
  next_id : nat;                          (* next fresh object identity *)
  apps : list (nat * express_app);        (* Express applications by identity *)
  closing_servers : list nat;             (* servers on which [close] was called *)
  logged : list (nat * string);           (* messages received by custom loggers *)
  exit_calls : list Z;                    (* arguments of [process.exit] calls *)
  broadcasts : list (string * nat);       (* ['tidyExit'] emissions: source, listeners *)
  invoked : list (exit_listener * Z);     (* handlers called, with their slot *)
  halted : bool;                          (* the process was terminated *)
  exit_returns : bool;                    (* [process.exit] is stubbed (test-suite) *)
  remove_absent_throws : string -> bool   (* removing an absent listener throws *)
}.

(** The module-level variables. *)
Record state := {
  log : logger;
  tidy_exit_event : EventEmitter;
  registered_handlers_count : Z;
  exit_signal_handlers : option (list (string * option (list proc_handler)));
  listening_to_exit : option bool;
  handler_callback_registry : list Z;
  max_timeout : jsnum;
  max_handler_timeout : jsnum;
  default_exit_timer : option nat;        (* [None]: [undefined] or [null] *)
  env : world
}.

(** *** Field updates *)

Definition set_process_listeners v (w : world) : world :=
  {| process_listeners := v; timers := timers w; next_id := next_id w;
     apps := apps w; closing_servers := closing_servers w; logged := logged w;
     exit_calls := exit_calls w; broadcasts := broadcasts w;
     invoked := invoked w; halted := halted w; exit_returns := exit_returns w;
     remove_absent_throws := remove_absent_throws w |}.

Definition set_timers v (w : world) : world :=
  {| process_listeners := process_listeners w; timers := v; next_id := next_id w;
     apps := apps w; closing_servers := closing_servers w; logged := logged w;
     exit_calls := exit_calls w; broadcasts := broadcasts w;
     invoked := invoked w; halted := halted w; exit_returns := exit_returns w;
     remove_absent_throws := remove_absent_throws w |}.

Definition set_next_id v (w : world) : world :=
  {| process_listeners := process_listeners w; timers := timers w; next_id := v;
     apps := apps w; closing_servers := closing_servers w; logged := logged w;
     exit_calls := exit_calls w; broadcasts := broadcasts w;
     invoked := invoked w; halted := halted w; exit_returns := exit_returns w;
     remove_absent_throws := remove_absent_throws w |}.

Definition set_apps v (w : world) : world :=
  {| process_listeners := process_listeners w; timers := timers w;
     next_id := next_id w; apps := v; closing_servers := closing_servers w;
     logged := logged w; exit_calls := exit_calls w; broadcasts := broadcasts w;
     invoked := invoked w; halted := halted w; exit_returns := exit_returns w;
     remove_absent_throws := remove_absent_throws w |}.

Definition set_closing_servers v (w : world) : world :=
  {| process_listeners := process_listeners w; timers := timers w;
     next_id := next_id w; apps := apps w; closing_servers := v;
     logged := logged w; exit_calls := exit_calls w; broadcasts := broadcasts w;
     invoked := invoked w; halted := halted w; exit_returns := exit_returns w;
     remove_absent_throws := remove_absent_throws w |}.

Definition set_logged v (w : world) : world :=
  {| process_listeners := process_listeners w; timers := timers w;
     next_id := next_id w; apps := apps w; closing_servers := closing_servers w;
     logged := v; exit_calls := exit_calls w; broadcasts := broadcasts w;
     invoked := invoked w; halted := halted w; exit_returns := exit_returns w;
     remove_absent_throws := remove_absent_throws w |}.

Definition set_exit_calls v (w : world) : world :=
  {| process_listeners := process_listeners w; timers := timers w;
     next_id := next_id w; apps := apps w; closing_servers := closing_servers w;
     logged := logged w; exit_calls := v; broadcasts := broadcasts w;
     invoked := invoked w; halted := halted w; exit_returns := exit_returns w;
     remove_absent_throws := remove_absent_throws w |}.

Definition set_broadcasts v (w : world) : world :=
  {| process_listeners := process_listeners w; timers := timers w;
     next_id := next_id w; apps := apps w; closing_servers := closing_servers w;
     logged := logged w; exit_calls := exit_calls w; broadcasts := v;
     invoked := invoked w; halted := halted w; exit_returns := exit_returns w;
     remove_absent_throws := remove_absent_throws w |}.

Definition set_invoked v (w : world) : world :=
  {| process_listeners := process_listeners w; timers := timers w;
     next_id := next_id w; apps := apps w; closing_servers := closing_servers w;
     logged := logged w; exit_calls := exit_calls w; broadcasts := broadcasts w;
     invoked := v; halted := halted w; exit_returns := exit_returns w;
     remove_absent_throws := remove_absent_throws w |}.

Definition set_halted v (w : world) : world :=
  {| process_listeners := process_listeners w; timers := timers w;
     next_id := next_id w; apps := apps w; closing_servers := closing_servers w;
     logged := logged w; exit_calls := exit_calls w; broadcasts := broadcasts w;
     invoked := invoked w; halted := v; exit_returns := exit_returns w;
     remove_absent_throws := remove_absent_throws w |}.

Definition set_log v (st : state) : state :=
  {| log := v; tidy_exit_event := tidy_exit_event st;
     registered_handlers_count := registered_handlers_count st;
     exit_signal_handlers := exit_signal_handlers st;
     listening_to_exit := listening_to_exit st;
     handler_callback_registry := handler_callback_registry st;
     max_timeout := max_timeout st; max_handler_timeout := max_handler_timeout st;
     default_exit_timer := default_exit_timer st; env := env st |}.

Definition set_tidy_exit_event v (st : state) : state :=
  {| log := log st; tidy_exit_event := v;
     registered_handlers_count := registered_handlers_count st;
     exit_signal_handlers := exit_signal_handlers st;
     listening_to_exit := listening_to_exit st;
     handler_callback_registry := handler_callback_registry st;
     max_timeout := max_timeout st; max_handler_timeout := max_handler_timeout st;
     default_exit_timer := default_exit_timer st; env := env st |}.

Definition set_registered_handlers_count v (st : state) : state :=
  {| log := log st; tidy_exit_event := tidy_exit_event st;
     registered_handlers_count := v;
     exit_signal_handlers := exit_signal_handlers st;
     listening_to_exit := listening_to_exit st;
     handler_callback_registry := handler_callback_registry st;
     max_timeout := max_timeout st; max_handler_timeout := max_handler_timeout st;
     default_exit_timer := default_exit_timer st; env := env st |}.

Definition set_exit_signal_handlers v (st : state) : state :=
  {| log := log st; tidy_exit_event := tidy_exit_event st;
     registered_handlers_count := registered_handlers_count st;
     exit_signal_handlers := v;
     listening_to_exit := listening_to_exit st;
     handler_callback_registry := handler_callback_registry st;
     max_timeout := max_timeout st; max_handler_timeout := max_handler_timeout st;
     default_exit_timer := default_exit_timer st; env := env st |}.

Definition set_listening_to_exit v (st : state) : state :=
  {| log := log st; tidy_exit_event := tidy_exit_event st;
     registered_handlers_count := registered_handlers_count st;
     exit_signal_handlers := exit_signal_handlers st;
     listening_to_exit := v;
     handler_callback_registry := handler_callback_registry st;
     max_timeout := max_timeout st; max_handler_timeout := max_handler_timeout st;
     default_exit_timer := default_exit_timer st; env := env st |}.

Definition set_handler_callback_registry v (st : state) : state :=
  {| log := log st; tidy_exit_event := tidy_exit_event st;
     registered_handlers_count := registered_handlers_count st;
     exit_signal_handlers := exit_signal_handlers st;
     listening_to_exit := listening_to_exit st;
     handler_callback_registry := v;
     max_timeout := max_timeout st; max_handler_timeout := max_handler_timeout st;
     default_exit_timer := default_exit_timer st; env := env st |}.

Definition set_max_timeout v (st : state) : state :=
  {| log := log st; tidy_exit_event := tidy_exit_event st;
     registered_handlers_count := registered_handlers_count st;
     exit_signal_handlers := exit_signal_handlers st;
     listening_to_exit := listening_to_exit st;
     handler_callback_registry := handler_callback_registry st;
     max_timeout := v; max_handler_timeout := max_handler_timeout st;
     default_exit_timer := default_exit_timer st; env := env st |}.

Definition set_max_handler_timeout v (st : state) : state :=
  {| log := log st; tidy_exit_event := tidy_exit_event st;
     registered_handlers_count := registered_handlers_count st;
     exit_signal_handlers := exit_signal_handlers st;
     listening_to_exit := listening_to_exit st;
     handler_callback_registry := handler_callback_registry st;
     max_timeout := max_timeout st; max_handler_timeout := v;
     default_exit_timer := default_exit_timer st; env := env st |}.

Definition set_default_exit_timer v (st : state) : state :=
  {| log := log st; tidy_exit_event := tidy_exit_event st;
     registered_handlers_count := registered_handlers_count st;
     exit_signal_handlers := exit_signal_handlers st;
     listening_to_exit := listening_to_exit st;
     handler_callback_registry := handler_callback_registry st;
     max_timeout := max_timeout st; max_handler_timeout := max_handler_timeout st;
     default_exit_timer := v; env := env st |}.

Definition set_env v (st : state) : state :=
  {| log := log st; tidy_exit_event := tidy_exit_event st;
     registered_handlers_count := registered_handlers_count st;
     exit_signal_handlers := exit_signal_handlers st;
     listening_to_exit := listening_to_exit st;
     handler_callback_registry := handler_callback_registry st;
     max_timeout := max_timeout st; max_handler_timeout := max_handler_timeout st;
     default_exit_timer := default_exit_timer st; env := v |}.

(** Apply a change to the runtime part of the state. *)
Definition in_world (f : world -> world) (st : state) : state :=
  set_env (f (env st)) st.

(* ------------------------------------------------------------------------ *)
(** ** Computations that may terminate the process *)
(* ------------------------------------------------------------------------ *)

(** A computation returns [Some a] and the new state, or [None] when
    [process.exit] ended the process before it could return. *)
Definition M (A : Type) : Type := state -> option A * state.

Definition ret {A} (a : A) : M A := fun st => (Some a, st).

Definition bind {A B} (m : M A) (f : A -> M B) : M B :=
  fun st =>
    match m st with
    | (Some a, st') => f a st'
    | (None, st') => (None, st')
    end.

Notation "x <- m ;; k" := (bind m (fun x => k))
  (at level 61, m at next level, right associativity).
Notation "m ;;; k" := (bind m (fun _ => k))
  (at level 61, right associativity).

Definition lift (f : state -> state) : M unit := fun st => (Some tt, f st).

(** [l.forEach(f)] *)
Fixpoint forEach {A} (f : A -> M unit) (l : list A) : M unit :=
  match l with
  | [] => ret tt
  | x :: r => f x ;;; forEach f r
  end.

(** Calling [n] copies of the same listener, one after the other. *)
Fixpoint call_each {A} (n : nat) (f : M A) : M unit :=
  match n with
  | O => ret tt
  | S k => f ;;; call_each k f
  end.

(* ------------------------------------------------------------------------ *)
(** ** Runtime primitives *)
(* ------------------------------------------------------------------------ *)

(** [log(msg)]: the default logger is [function(){}]; a custom logger
    receives the message. *)
Definition log_call (msg : string) (st : state) : state :=
  match log st with
  | default_logger => st
  | custom_logger sink =>
      in_world (fun w => set_logged (logged w ++ [(sink, msg)]) w) st
  end.

(** [process.exit(code)]: records the call; the process ends there unless
    the primitive has been replaced by a stub that returns. *)
Definition process_exit (code : Z) : M unit :=
  fun st =>
    let st' := in_world (fun w => set_exit_calls (exit_calls w ++ [code]) w) st in
    if exit_returns (env st) then (Some tt, st')
    else (None, in_world (set_halted true) st').

Definition is_binding (signal : string) (h : proc_handler) (b : binding) : bool :=
  String.eqb (bound_event b) signal && Nat.eqb (fn_id (bound_handler b)) (fn_id h).

(** [process.once(signal, handler)] *)
Definition process_once (signal : string) (handler : proc_handler) (st : state) : state :=
  in_world (fun w => set_process_listeners
     (process_listeners w ++ [{| bound_event := signal; bound_handler := handler |}]) w) st.

(** A one-shot listener unbinds itself when it fires: the earliest copy. *)
Fixpoint remove_first_binding (signal : string) (h : proc_handler) (l : list binding)
  : list binding :=
  match l with
  | [] => []
  | b :: r => if is_binding signal h b then r
              else b :: remove_first_binding signal h r
  end.

(** [removeListener] drops the most recently added copy. *)
Fixpoint remove_last_binding (signal : string) (h : proc_handler) (l : list binding)
  : list binding :=
  match l with
  | [] => []
  | b :: r => if existsb (is_binding signal h) r
              then b :: remove_last_binding signal h r
              else if is_binding signal h b then r else b :: r
  end.

(** [setTimeout(suicide, delay)]; the only function ever scheduled is the
    forced-exit callback of [_defaultExitHandler]. *)
Definition setTimeout (delay : jsnum) (st : state) : nat * state :=
  let id := next_id (env st) in
  (id, in_world (fun w => set_next_id (S id) (set_timers (timers w ++ [(id, delay)]) w)) st).

(** [clearTimeout(t)]; a no-op on [null] and [undefined]. *)
Definition clearTimeout (t : option nat) (st : state) : state :=
  match t with
  | None => st
  | Some id =>
      in_world (fun w => set_timers
        (filter (fun p => negb (Nat.eqb (fst p) id)) (timers w)) w) st
  end.

(** Own properties of a JavaScript object in insertion order. *)
Fixpoint obj_get {V} (key : string) (o : list (string * V)) : option V :=
  match o with
  | [] => None
  | (k, v) :: r => if String.eqb k key then Some v else obj_get key r
  end.

Fixpoint obj_set {V} (key : string) (v : V) (o : list (string * V)) : list (string * V) :=
  match o with
  | [] => [(key, v)]
  | (k, w) :: r => if String.eqb k key then (k, v) :: r
                   else (k, w) :: obj_set key v r
  end.

(** Express applications. *)
Definition fresh_app : express_app :=
  {| tidy_exit_state := None; tidy_middleware := 0 |}.

Fixpoint find_app (id : nat) (l : list (nat * express_app)) : express_app :=
  match l with
  | [] => fresh_app
  | (k, a) :: r => if Nat.eqb k id then a else find_app id r
  end.

Fixpoint store_app (id : nat) (a : express_app) (l : list (nat * express_app))
  : list (nat * express_app) :=
  match l with
  | [] => [(id, a)]
  | (k, b) :: r => if Nat.eqb k id then (k, a) :: r else (k, b) :: store_app id a r
  end.

(** [app.get('tidy_exit_state')] *)
Definition app_get_state (app : nat) (st : state) : option bool :=
  tidy_exit_state (find_app app (apps (env st))).

(** [app.set('tidy_exit_state', v)] *)
Definition app_set_state (app : nat) (v : bool) (st : state) : state :=
  in_world (fun w =>
    let a := find_app app (apps w) in
    set_apps (store_app app {| tidy_exit_state := Some v;
                               tidy_middleware := tidy_middleware a |} (apps w)) w) st.

(** [app.use(_expresstidyExitHandler)] *)
Definition app_use_middleware (app : nat) (st : state) : state :=
  in_world (fun w =>
    let a := find_app app (apps w) in
    set_apps (store_app app {| tidy_exit_state := tidy_exit_state a;
                               tidy_middleware := S (tidy_middleware a) |} (apps w)) w) st.

(** [server.close(done)]: the server stops listening; [done] is called by
    the runtime once the open connections have ended. *)
Definition server_close (server : nat) (st : state) : state :=
  in_world (fun w => set_closing_servers (closing_servers w ++ [server]) w) st.

(* ------------------------------------------------------------------------ *)
(** ** The library *)
(* ------------------------------------------------------------------------ *)

Definition setLogger (logger : logger) (st : state) : state :=
  set_log logger st.

Definition _addExitHandler (signal : string) (handler : proc_handler) (st : state)
  : state :=
  let o := match exit_signal_handlers st with
           | Some o => o
           | None => []
           end in
  let handlers := match obj_get signal o with
                  | Some (Some hs) => hs
                  | _ => []
                  end in
  let st1 := process_once signal handler st in
  set_exit_signal_handlers (Some (obj_set signal (Some (handlers ++ [handler])) o)) st1.

(** A function expression evaluated: a closure with a fresh identity. *)
Definition new_closure (body : handler_body) (st : state) : proc_handler * state :=
  let id := next_id (env st) in
  ({| fn_id := id; fn_body := body |}, in_world (set_next_id (S id)) st).

Definition _registerExitListeners (st : state) : state :=
  match listening_to_exit st with
  | Some true => st
  | _ =>
      let (h, st1) := new_closure on_message st in
      let st2 := _addExitHandler "message" h st1 in
      let st3 := fold_left (fun s signal =>
                              let (h, s1) := new_closure (on_signal signal) s in
                              _addExitHandler signal h s1)
                           SYSTEM_EXIT_SIGNALS st2 in
      set_listening_to_exit (Some true) st3
  end.

(** The body of the inner [forEach] of [_cleanupExitListeners]: the
    [try]/[catch] around [process.removeListener]. *)
Definition remove_tracked (signal : string) (st : state) (handler : proc_handler)
  : state :=
  if existsb (is_binding signal handler) (process_listeners (env st))
  then in_world (fun w => set_process_listeners
                   (remove_last_binding signal handler (process_listeners w)) w) st
  else if remove_absent_throws (env st) signal
       then log_call ("Error while removing handler on process." +s signal) st
       else st.

Definition cleanup_signal (st : state) (signal : string) : state :=
  let o := match exit_signal_handlers st with
           | Some o => o
           | None => []
           end in
  let st1 := match obj_get signal o with
             | Some (Some signalHandlers) =>
                 fold_left (remove_tracked signal) signalHandlers st
             | _ => st
             end in
  set_exit_signal_handlers (Some (obj_set signal None o)) st1.

Definition _cleanupExitListeners (st : state) : state :=
  match exit_signal_handlers st with
  | Some o =>
      let st1 := fold_left cleanup_signal (map fst o) st in
      set_listening_to_exit (Some false) st1
  | None => st
  end.

Definition addTidyExitHandler (appExitHandler : exit_handler) (desc : jsval)
           (timeout : jsnum) (st : state) : state :=
  let st1 := _registerExitListeners st in
  let e := tidy_exit_event st1 in
  let st2 := set_tidy_exit_event
               {| on_tidyExit := on_tidyExit e ++
                                   [{| appExitHandler := appExitHandler; desc := desc |}];
                  on_done := on_done e |} st1 in
  if js_gt timeout (max_handler_timeout st2)
  then set_max_handler_timeout timeout st2
  else st2.

(** [handler_callback_registry[i]++] for an index inside the array. *)
Fixpoint increment_at (i : nat) (l : list Z) : list Z :=
  match l, i with
  | [], _ => []
  | c :: r, O => (c + 1) :: r
  | c :: r, S k => c :: increment_at k r
  end.

(** [handler_callback_registry[handler_number - 1]++] under the guard
    [handler_number <= handler_count].  A negative [handler_number] passes
    the guard and writes a property that is not an element of the array:
    neither its length nor what [forEach] visits changes. *)
Definition increment_slot (handler_number : Z) (registry : list Z) : list Z :=
  if 1 <=? handler_number
  then increment_at (Z.to_nat (handler_number - 1)) registry
  else registry.

(** The flag [all_done] computed by the [forEach] of [_checkHandlersDone]. *)
Definition all_callbacks_done (registry : list Z) : bool :=
  forallb (fun callback_count => negb (callback_count <? 1)) registry.

Definition _checkHandlersDone (handler_number : jsnum) : M bool :=
  fun st =>
    let handler_count := Z.of_nat (List.length (handler_callback_registry st)) in
    let st1 :=
      if truthy handler_number then
        if js_le handler_number (JNum handler_count) then
          match handler_number with
          | JNum n => set_handler_callback_registry
                        (increment_slot n (handler_callback_registry st)) st
          | _ => st
          end
        else log_call ("Invalid callback handler number: "
                         +s jsnum_to_string handler_number) st
      else st in
    if registered_handlers_count st1 <=? handler_count then
      if all_callbacks_done (handler_callback_registry st1)
      then (process_exit 0 ;;; ret true) st1
      else ret false st1
    else ret false st1.

Definition getTimeout (st : state) : jsnum :=
  if truthy (max_handler_timeout st)
     && (negb (truthy (max_timeout st))
         || js_gt (max_timeout st) (max_handler_timeout st))
  then max_handler_timeout st
  else if truthy (max_timeout st) then max_timeout st
  else JNum DEFAULT_GRACEFUL_TIMEOUT.

Definition setMaxTimeout (timeout : jsnum) (st : state) : state :=
  set_max_timeout timeout st.

(** The function [_defaultExitHandler] passes to [setTimeout]. *)
Definition suicide_timeout : M unit :=
  all_done <- _checkHandlersDone JUndefined ;;
  if negb all_done
  then lift (log_call "Timed out waiting for graceful exit. Quitting hard now") ;;;
       process_exit 1
  else ret tt.

Definition _defaultExitHandler (done : M unit) : M unit :=
  fun st =>
    let st1 := match default_exit_timer st with
               | None =>
                   let timeout := getTimeout st in
                   let (t, st') := setTimeout timeout st in
                   set_default_exit_timer (Some t) st'
               | Some _ => st
               end in
    done st1.

Definition _registerDefaultTimeoutHandler (st : state) : state :=
  let st1 := addTidyExitHandler default_exit_handler
               (VStr "default timeout handler") JUndefined st in
  let e := tidy_exit_event st1 in
  set_tidy_exit_event {| on_tidyExit := on_tidyExit e; on_done := S (on_done e) |} st1.

Definition _init (st : state) : state :=
  let st := set_handler_callback_registry [] st in
  let st := set_registered_handlers_count 0 st in
  (* the listeners of the old emitter are dropped with it *)
  let st := set_tidy_exit_event {| on_tidyExit := []; on_done := 0 |} st in
  let st := set_log default_logger st in
  let st := _cleanupExitListeners st in
  let st := set_max_timeout (JNum 0) st in
  let st := set_max_handler_timeout (JNum 0) st in
  let st := clearTimeout (default_exit_timer st) st in
  set_default_exit_timer None st.

(** [tidy_exit_event.emit('done', handler_number)]: every subscribed copy of
    [_checkHandlersDone] is called with the slot number. *)
Definition emit_done (handler_number : jsnum) : M unit :=
  fun st =>
    call_each (on_done (tidy_exit_event st)) (_checkHandlersDone handler_number) st.

(** [appExitHandler(null, done)] for each kind of handler. *)
Definition run_exit_handler (h : exit_handler) (done : M unit) : M unit :=
  match h with
  | default_exit_handler => _defaultExitHandler done
  | express_exit_handler app => lift (app_set_state app true) ;;; done
  | http_exit_handler server => lift (server_close server)
  | app_exit_handler sync_done => call_each sync_done done
  end.

(** The closure [addTidyExitHandler] subscribes: it takes the next slot,
    logs, and calls the handler with a [done] closed over that slot. *)
Definition tidy_exit_listener (l : exit_listener) (source : jsval) : M unit :=
  fun st =>
    let registry := handler_callback_registry st ++ [0] in
    let handler_number := Z.of_nat (List.length registry) in   (* [push] returns the new length *)
    let st1 := set_handler_callback_registry registry st in
    let st2 := log_call ("Graceful exit triggered by " +s to_string source
                           +s " for " +s to_string (desc l)) st1 in
    let st3 := in_world (fun w => set_invoked (invoked w ++ [(l, handler_number)]) w) st2 in
    run_exit_handler (appExitHandler l) (emit_done (JNum handler_number)) st3.

(** A [once] listener is unsubscribed just before it runs; during an
    emission it is the first one still subscribed. *)
Definition unsubscribe_first (st : state) : state :=
  let e := tidy_exit_event st in
  set_tidy_exit_event {| on_tidyExit := tl (on_tidyExit e); on_done := on_done e |} st.

(** [tidy_exit_event.emit('tidyExit', source)]: the listeners subscribed at
    that moment are called in subscription order. *)
Definition emit_tidy_exit (source : jsval) : M unit :=
  fun st =>
    let listeners := on_tidyExit (tidy_exit_event st) in
    let st0 := in_world (fun w => set_broadcasts
                 (broadcasts w ++ [(to_string source, List.length listeners)]) w) st in
    forEach (fun l => lift unsubscribe_first ;;; tidy_exit_listener l source)
            listeners st0.

Definition _emittidyExitEvent (signal : jsval) : M unit :=
  lift _registerDefaultTimeoutHandler ;;;
  lift (fun st => set_registered_handlers_count
                    (Z.of_nat (List.length (on_tidyExit (tidy_exit_event st)))) st) ;;;
  emit_tidy_exit signal.

(** The listeners bound by [_registerExitListeners]. *)
Definition run_proc_handler (h : proc_handler) (payload : jsval) : M unit :=
  match fn_body h with
  | on_message =>
      if loose_eq_shutdown payload then _emittidyExitEvent payload else ret tt
  | on_signal signal => _emittidyExitEvent (VStr signal)
  end.

(** [process.emit(name, payload)], also what the runtime does when a signal
    or an IPC message arrives: each listener bound at that moment is unbound
    (they are all one-shot) and called. *)
Definition process_emit (name : string) (payload : jsval) : M unit :=
  fun st =>
    let bound := filter (fun b => String.eqb (bound_event b) name)
                        (process_listeners (env st)) in
    forEach (fun b =>
               lift (in_world (fun w => set_process_listeners
                       (remove_first_binding name (bound_handler b)
                          (process_listeners w)) w)) ;;;
               run_proc_handler (bound_handler b) payload)
            bound st.

(* ------------------------------------------------------------------------ *)
(** ** Hooks for Express applications and HTTP servers *)
(* ------------------------------------------------------------------------ *)

(** What a hook function evaluates to for its caller. *)
Inductive hook_result :=
| returns_undefined
| returns_handle (close : state -> state).

(** [_expresstidyExitHandler]: the timeout it puts on the connection of the
    request, if any, before calling [next()]. *)
Definition _expresstidyExitHandler (app : nat) (st : state) : option Z :=
  match app_get_state app st with
  | Some true => Some 1
  | _ => None
  end.

Definition hookExpressApp (app : nat) (st : state) : hook_result * state :=
  match app_get_state app st with
  | None =>
      let st1 := app_use_middleware app st in
      let st2 := app_set_state app false st1 in
      let st3 := addTidyExitHandler (express_exit_handler app) (VStr "expressApp")
                   JUndefined st2 in
      (returns_undefined, st3)
  | Some _ => (returns_undefined, st)
  end.

(** A listener of the ['request'] event of a server: which of [use], [set]
    and [get] are functions on it, and the application it is when all are. *)
Record request_listener := {
  has_use : bool;
  has_set : bool;
  has_get : bool;
  listener_app : nat
}.

Record http_server := {
  server_id : nat;
  request_listeners : list request_listener
}.

Definition _detectAndHookExpressApp (st : state) (listener : request_listener) : state :=
  let is_express := forallb (fun b => b)
                      [has_use listener; has_set listener; has_get listener] in
  if is_express then snd (hookExpressApp (listener_app listener) st) else st.

Definition hookHttpServer (server : http_server) (hook_apps : jsval) (st : state)
  : hook_result * state :=
  let st1 := addTidyExitHandler (http_exit_handler (server_id server))
               (VStr "httpServer") JUndefined st in
  let st2 := match hook_apps with
             | VBool false => st1
             | _ => fold_left _detectAndHookExpressApp (request_listeners server) st1
             end in
  (returns_undefined, st2).

(* ------------------------------------------------------------------------ *)
(** ** The process as a transition system *)
(* ------------------------------------------------------------------------ *)

(** What can happen to a process that has loaded the library: calls of the
    public API by the application, and callbacks from the runtime. *)
Inductive event :=
| call_addTidyExitHandler (sync_done : nat) (desc : jsval) (timeout : jsnum)
| call_setMaxTimeout (timeout : jsnum)
| call_setLogger (sink : nat)
| call_reset
| call_hookExpressApp (app : nat)
| call_hookHttpServer (server : http_server) (hook_apps : jsval)
| process_event (name : string) (payload : jsval)
| timer_fires (handle : nat)
| done_called (handler_number : Z).

Definition fire_timer (handle : nat) : M unit :=
  fun st =>
    if existsb (fun p => Nat.eqb (fst p) handle) (timers (env st))
    then suicide_timeout (clearTimeout (Some handle) st)
    else ret tt st.

Definition handle_event (ev : event) : M unit :=
  match ev with
  | call_addTidyExitHandler n d t => lift (addTidyExitHandler (app_exit_handler n) d t)
  | call_setMaxTimeout t => lift (setMaxTimeout t)
  | call_setLogger sink => lift (setLogger (custom_logger sink))
  | call_reset => lift _init
  | call_hookExpressApp app => lift (fun st => snd (hookExpressApp app st))
  | call_hookHttpServer server hook_apps =>
      lift (fun st => snd (hookHttpServer server hook_apps st))
  | process_event name payload => process_emit name payload
  | timer_fires handle => fire_timer handle
  | done_called handler_number => emit_done (JNum handler_number)
  end.

(** Nothing happens in a process that has exited. *)
Definition step (st : state) (ev : event) : state :=
  if halted (env st) then st else snd (handle_event ev st).

Definition run (evs : list event) (st : state) : state := fold_left step evs st.

(** The state right after [require('tidy-exit')]: every variable is still
    [undefined] when the call of [_init] at the end of the module runs. *)
Definition boot (stubbed_exit : bool) (throws : string -> bool) : world :=
  {| process_listeners := []; timers := []; next_id := 0; apps := [];
     closing_servers := []; logged := []; exit_calls := []; broadcasts := [];
     invoked := []; halted := false; exit_returns := stubbed_exit;
     remove_absent_throws := throws |}.

Definition loaded (w : world) : state :=
  _init {| log := default_logger;
           tidy_exit_event := {| on_tidyExit := []; on_done := 0 |};
           registered_handlers_count := 0;
           exit_signal_handlers := None;
           listening_to_exit := None;
           handler_callback_registry := [];
           max_timeout := JUndefined;
           max_handler_timeout := JUndefined;
           default_exit_timer := None;
           env := w |}.

(** A process on Node.js: [process.exit] exits, [removeListener] is quiet. *)
Definition node : state := loaded (boot false (fun _ => false)).

(** The same under the test-suite, where [process.exit] is a stub. *)
Definition node_stubbed : state := loaded (boot true (fun _ => false)).

(* ------------------------------------------------------------------------ *)
(** ** The specification's vocabulary *)
(* ------------------------------------------------------------------------ *)

(** Section 4.1 of the specification, in its own words: [H] is the running
    maximum of the requested timeouts (0 when none was requested) and [M] the
    global override ([None] when there is none).  A field is "set" when it
    holds a number other than 0, the value the fields have after a reset. *)
Definition is_set (x : option Z) : bool :=
  match x with
  | Some v => negb (v =? 0)
  | None => false
  end.

Definition resolveTimeout (H : Z) (M : option Z) : Z :=
  match M with
  | Some m =>
      if is_set (Some H) && (negb (is_set (Some m)) || (m >? H)) then H
      else if is_set (Some m) then m
      else 120000
  | None =>
      if is_set (Some H) then H else 120000
  end.

(** The override a caller passed, as the specification sees it: [null] and
    a missing argument clear it. *)
Definition override_of (v : jsnum) : option Z :=
  match v with
  | JNum m => Some m
  | _ => None
  end.

(** The running maximum of the timeouts requested since the last reset. *)
Definition track_max (h : Z) (ev : event) : Z :=
  match ev with
  | call_addTidyExitHandler _ _ (JNum t) => Z.max h t
  | call_reset => 0
  | _ => h
  end.

Definition running_max (evs : list event) : Z := fold_left track_max evs 0.

(** The last value given to [setMaxTimeout] since the last reset. *)
Definition track_override (m : jsnum) (ev : event) : jsnum :=
  match ev with
  | call_setMaxTimeout v => v
  | call_reset => JNum 0
  | _ => m
  end.

Definition current_override (evs : list event) : jsnum :=
  fold_left track_override evs (JNum 0).

(** Section 4.3: "true iff the snapshot of subscriber count at signal time is
    <= current CompletionRegistry length AND every slot's counter >= 1". *)
Definition isFullyDrained (st : state) : bool :=
  (registered_handlers_count st <=? Z.of_nat (List.length (handler_callback_registry st)))
  && forallb (fun counter => 1 <=? counter) (handler_callback_registry st).

(* ------------------------------------------------------------------------ *)
(** ** Vocabulary of the proofs *)
(* ------------------------------------------------------------------------ *)

Definition alive (st : state) : Prop := halted (env st) = false.

(** [preserves P m]: started in a live process where [P] holds, [m] ends in
    a state where [P] holds, and the process is still alive if [m]
    returned. *)
Definition preserves {A} (P : state -> Prop) (m : M A) : Prop :=
  forall st, alive st -> P st ->
    P (snd (m st)) /\ (fst (m st) <> None -> alive (snd (m st))).

(** The same for a state change, which always returns. *)
Definition keeps (P : state -> Prop) (f : state -> state) : Prop :=
  forall st, alive st -> P st -> P (f st) /\ alive (f st).

(** The first branch of [_defaultExitHandler]: the timer is armed and its
    handle kept. *)
Definition arm_timer (st : state) : state :=
  let (t, st') := setTimeout (getTimeout st) st in
  set_default_exit_timer (Some t) st'.

(** The elementary state changes performed by a handler and by the
    completion callbacks.  A property kept by each of them is kept by every
    one of those. *)
Record callback_steps (P : state -> Prop) : Prop := {
  hs_increment : forall n st, alive st -> P st ->
      P (set_handler_callback_registry
           (increment_slot n (handler_callback_registry st)) st);
  hs_log : forall msg st, alive st -> P st -> P (log_call msg st);
  hs_exit : forall code st, alive st -> P st -> P (snd (process_exit code st));
  hs_arm : forall st, alive st -> default_exit_timer st = None -> P st ->
      P (arm_timer st);
  hs_app : forall app st, alive st -> P st -> P (app_set_state app true st);
  hs_close : forall server st, alive st -> P st -> P (server_close server st)
}.

(** The steps the subscribed closure adds before it calls the handler. *)
Record handler_steps (P : state -> Prop) : Prop := {
  hs_callbacks : callback_steps P;
  hs_push : forall st, alive st -> P st ->
      P (set_handler_callback_registry (handler_callback_registry st ++ [0]) st);
  hs_invoked : forall x st, alive st -> P st ->
      P (in_world (fun w => set_invoked (invoked w ++ [x]) w) st)
}.

(** The steps a trigger adds around the handlers. *)
Record trigger_steps (P : state -> Prop) : Prop := {
  ts_handlers : handler_steps P;
  ts_broadcast : forall x st, alive st -> P st ->
      P (in_world (fun w => set_broadcasts (broadcasts w ++ [x]) w) st);
  ts_unsubscribe : forall st, alive st -> P st -> P (unsubscribe_first st);
  ts_default : forall st, alive st -> P st -> P (_registerDefaultTimeoutHandler st);
  ts_count : forall n st, alive st -> P st -> P (set_registered_handlers_count n st);
  ts_unbind : forall name h st, alive st -> P st ->
      P (in_world (fun w => set_process_listeners
           (remove_first_binding name h (process_listeners w)) w) st);
  ts_clear : forall handle st, alive st -> P st -> P (clearTimeout (Some handle) st)
}.

(** The variables only the public API writes. *)
Definition timeout_fields (st : state) : jsnum * jsnum * logger :=
  (max_handler_timeout st, max_timeout st, log st).

(** The two halves of [_checkHandlersDone]: marking the slot (or logging an
    unknown one), then the check and the exit. *)
Definition mark_done (handler_number : jsnum) (st : state) : state :=
  if truthy handler_number then
    if js_le handler_number (JNum (Z.of_nat (List.length (handler_callback_registry st)))) then
      match handler_number with
      | JNum n => set_handler_callback_registry
                    (increment_slot n (handler_callback_registry st)) st
      | _ => st
      end
    else log_call ("Invalid callback handler number: "
                     +s jsnum_to_string handler_number) st
  else st.

Definition exit_if_drained : M bool :=
  fun st =>
    if isFullyDrained st then (process_exit 0 ;;; ret true) st else ret false st.

(** A slot index no completion registry entry answers to: none at all, or
    one past the end of the registry. *)
Definition unknown_slot (st : state) (handler_number : jsnum) : Prop :=
  handler_number = JUndefined
  \/ exists n, handler_number = JNum n
               /\ Z.of_nat (List.length (handler_callback_registry st)) < n.

(** Section 4.3 and 7(b) as written: a completion callback with an unknown
    slot logs a message and changes nothing of the tracker. *)
Definition unknown_slot_logs_and_noops : Prop :=
  forall st handler_number sink,
    unknown_slot st handler_number ->
    log st = custom_logger sink ->
    let st' := snd (_checkHandlersDone handler_number st) in
    (exists msg, logged (env st') = logged (env st) ++ [(sink, msg)])
    /\ handler_callback_registry st' = handler_callback_registry st
    /\ registered_handlers_count st' = registered_handlers_count st
    /\ _checkHandlersDone handler_number st
       = _checkHandlersDone JUndefined (mark_done handler_number st).

(** What the library only changes while handling a trigger or a callback:
    the calls of [process.exit], the fate of the process, the broadcasts and
    the calls of handlers. *)
Definition outcome_fields (st : state)
  : list Z * bool * bool * list (string * nat) * list (exit_listener * Z) :=
  (exit_calls (env st), halted (env st), exit_returns (env st),
   broadcasts (env st), invoked (env st)).

(** At most one timer is pending, and [default_exit_timer] is its handle. *)
Definition timer_discipline (st : state) : Prop :=
  match timers (env st) with
  | [] => True
  | [p] => default_exit_timer st = Some (fst p)
  | _ => False
  end.

(** Where [process.exit] really exits, a live process has not called it and
    a dead one has called it once. *)
Definition exit_discipline (st : state) : Prop :=
  exit_returns (env st) = false ->
  if halted (env st)
  then List.length (exit_calls (env st)) = 1%nat
  else exit_calls (env st) = [].

(** A bound listener is remembered in [exit_signal_handlers]. *)
Definition tracked (st : state) (b : binding) : Prop :=
  exists o hs,
    exit_signal_handlers st = Some o
    /\ obj_get (bound_event b) o = Some (Some hs)
    /\ In (bound_handler b) hs.

(** A bound listener is one of the four of [_registerExitListeners]. *)
Definition well_bound (b : binding) : Prop :=
  (bound_event b = "message" /\ fn_body (bound_handler b) = on_message)
  \/ (In (bound_event b) SYSTEM_EXIT_SIGNALS
      /\ fn_body (bound_handler b) = on_signal (bound_event b)).

Definition listener_discipline (st : state) : Prop :=
  NoDup (map bound_event (process_listeners (env st)))
  /\ (listening_to_exit st <> Some true -> process_listeners (env st) = [])
  /\ Forall (fun b => tracked st b /\ well_bound b) (process_listeners (env st)).

(** The listeners are armed and none of them waits for [name] any more. *)
Definition spent (name : string) (st : state) : Prop :=
  listening_to_exit st = Some true
  /\ Forall (fun b => bound_event b <> name) (process_listeners (env st)).

(** What holds of every state a process can reach after loading the library. *)
Definition coordinator_invariant (st : state) : Prop :=
  timer_discipline st /\ exit_discipline st /\ listener_discipline st.

(** The triggers the specification calls qualifying: a termination signal,
    or a message that compares equal to ['shutdown']. *)
Definition qualifying (ev : event) : bool :=
  match ev with
  | process_event name payload =>
      (String.eqb name "message" && loose_eq_shutdown payload)
      || existsb (String.eqb name) SYSTEM_EXIT_SIGNALS
  | _ => false
  end.

Definition is_reset (ev : event) : bool :=
  match ev with
  | call_reset => true
  | _ => false
  end.

(** The pending timers and the handle the library keeps. *)
Definition timer_fields (st : state) : list (nat * jsnum) * option nat :=
  (timers (env st), default_exit_timer st).

(** The listeners bound on [process] and what the library remembers of them. *)
Definition listener_fields (st : state)
  : list binding * option bool * option (list (string * option (list proc_handler))) :=
  (process_listeners (env st), listening_to_exit st, exit_signal_handlers st).

(** One iteration of the binding done by [_registerExitListeners]: a new
    closure is made and handed to [_addExitHandler]. *)
Definition bind_fresh (st : state) (p : string * handler_body) : state :=
  let (h, st1) := new_closure (snd p) st in
  _addExitHandler (fst p) h st1.

Definition exit_listeners : list (string * handler_body) :=
  ("message", on_message)
    :: map (fun signal => (signal, on_signal signal)) SYSTEM_EXIT_SIGNALS.

(** An event name and the body of the listener bound on it agree. *)
Definition well_paired (p : string * handler_body) : Prop :=
  (fst p = "message" /\ snd p = on_message)
  \/ (In (fst p) SYSTEM_EXIT_SIGNALS /\ snd p = on_signal (fst p)).

Definition disciplined (st : state) (b : binding) : Prop :=
  tracked st b /\ well_bound b.

(** What [_cleanupExitListeners] relies on: one listener per event, each of
    them remembered. *)
Definition tracking (st : state) : Prop :=
  NoDup (map bound_event (process_listeners (env st)))
  /\ Forall (tracked st) (process_listeners (env st)).

(** The entry of [signal] in [exit_signal_handlers] holds no handlers. *)
Definition nulled (signal : string) (st : state) : Prop :=
  forall o hs, exit_signal_handlers st = Some o -> obj_get signal o <> Some (Some hs).

(** The state changes the public API is made of, reset apart. *)
Record api_steps (P : state -> Prop) : Prop := {
  as_add : forall h d t st, alive st -> P st -> P (addTidyExitHandler h d t st);
  as_max : forall t st, alive st -> P st -> P (setMaxTimeout t st);
  as_logger : forall l st, alive st -> P st -> P (setLogger l st);
  as_use : forall app st, alive st -> P st -> P (app_use_middleware app st);
  as_flag : forall app st, alive st -> P st -> P (app_set_state app false st)
}.

(** The states of a process that loaded the library and then saw [evs]. *)
Definition reached (stub : bool) (throws : string -> bool) (evs : list event) : state :=
  run evs (loaded (boot stub throws)).

(** The variables [_cleanupExitListeners] does not write. *)
Definition tracker_fields (st : state)
  : logger * EventEmitter * Z * list Z * jsnum * jsnum * option nat :=
  (log st, tidy_exit_event st, registered_handlers_count st,
   handler_callback_registry st, max_timeout st, max_handler_timeout st,
   default_exit_timer st).

(** The object in [exit_signal_handlers], empty while the variable is
    [undefined]. *)
Definition signal_handlers (st : state) : list (string * option (list proc_handler)) :=
  match exit_signal_handlers st with
  | Some o => o
  | None => []
  end.

(** The variables as [_init] leaves them. *)
Definition pristine (st : state) : Prop :=
  tracker_fields st
  = (default_logger, {| on_tidyExit := []; on_done := 0 |}, 0, [], JNum 0, JNum 0, None).

(** How many events of a history are qualifying triggers. *)
Definition triggers (evs : list event) : nat := List.length (filter qualifying evs).


(** The listeners of a broadcast paired with consecutive slot numbers. *)
Fixpoint number_from (n : Z) (ls : list exit_listener) : list (exit_listener * Z) :=
  match ls with
  | [] => []
  | l :: r => (l, n) :: number_from (n + 1) r
  end.

Definition is_registration (ev : event) : bool :=
  match ev with
  | call_addTidyExitHandler _ _ _ => true
  | _ => false
  end.

Definition is_api_call (ev : event) : bool :=
  match ev with
  | process_event _ _ | timer_fires _ | done_called _ => false
  | _ => true
  end.

(** Section 3 as written: a slot is taken at registration, so that N
    registrations make a registry of length N. *)
Definition slots_assigned_at_registration : Prop :=
  forall evs,
    forallb is_registration evs = true ->
    List.length (handler_callback_registry (reached false (fun _ => false) evs))
    = List.length evs.

(** The handlers called so far and the length of the registry. *)
Definition slot_fields (st : state) : list (exit_listener * Z) * nat :=
  (invoked (env st), List.length (handler_callback_registry st)).

(** The events by which an application registers a cleanup task. *)
Definition is_subscription (ev : event) : bool :=
  match ev with
  | call_addTidyExitHandler _ _ _ | call_hookExpressApp _ | call_hookHttpServer _ _ => true
  | _ => false
  end.

(** A state in which the library has not been armed: nothing is bound,
    nothing is pending, nobody listens for completions. *)
Definition unarmed (st : state) : Prop :=
  process_listeners (env st) = []
  /\ timers (env st) = []
  /\ on_done (tidy_exit_event st) = 0%nat
  /\ broadcasts (env st) = []
  /\ exit_calls (env st) = []
  /\ halted (env st) = false.

(** The listeners remembered as armed are remembered somewhere. *)
Definition armed_is_tracked (st : state) : Prop :=
  listening_to_exit st = Some true -> exit_signal_handlers st <> None.

(** The snapshot and the number of completion listeners. *)
Definition snapshot_fields (st : state) : Z * nat :=
  (registered_handlers_count st, on_done (tidy_exit_event st)).

(** How many times a handler calls [done] before it returns. *)
Definition done_calls (l : exit_listener) : nat :=
  match appExitHandler l with
  | default_exit_handler => 1
  | express_exit_handler _ => 1
  | http_exit_handler _ => 0
  | app_exit_handler sync_done => sync_done
  end.

(** Where a first broadcast stands: the counters so far, the snapshot, one
    completion listener, the calls of [process.exit], a live process. *)
Definition progress (st : state) (counters : list Z) (snapshot : Z) (exits : list Z)
  : Prop :=
  handler_callback_registry st = counters
  /\ registered_handlers_count st = snapshot
  /\ on_done (tidy_exit_event st) = 1%nat
  /\ exit_calls (env st) = exits
  /\ halted (env st) = false.

(** The timeout variables are [v], and either no timer was armed or the one
    timer pending was armed for the timeout they resolve to. *)
Definition timer_for (v : jsnum * jsnum * logger) (st : state) : Prop :=
  timeout_fields st = v
  /\ ((timers (env st) = [] /\ default_exit_timer st = None)
      \/ exists id, timers (env st) = [(id, getTimeout st)]
                    /\ default_exit_timer st = Some id).

(** The timeout variables are [v] and the one timer pending is the safety
    net's, armed for the timeout they resolve to. *)
Definition armed_for (v : jsnum * jsnum * logger) (st : state) : Prop :=
  timeout_fields st = v
  /\ exists id, timers (env st) = [(id, getTimeout st)]
                /\ default_exit_timer st = Some id.

(** The handler calls [done] before it returns. *)
Definition calls_done (l : exit_listener) : bool := Nat.ltb 0 (done_calls l).

Definition is_set_logger (ev : event) : bool :=
  match ev with
  | call_setLogger _ => true
  | _ => false
  end.

(** The logger is the default one, which drops its message, and the custom
    loggers have received [v] so far. *)
Definition quiet (v : list (nat * string)) (st : state) : Prop :=
  log st = default_logger /\ logged (env st) = v.

(** The duck typing of [_detectAndHookExpressApp]: [use], [set] and [get]
    are all functions on the listener. *)
Definition is_express (listener : request_listener) : bool :=
  forallb (fun b => b) [has_use listener; has_set listener; has_get listener].

(** [app] is one of the ['request'] listeners of [server] that pass for an
    Express application. *)
Definition serves (server : http_server) (app : nat) : bool :=
  existsb (fun l => is_express l && Nat.eqb (listener_app l) app)
          (request_listeners server).

(** [hook_apps === false] *)
Definition strictly_false (v : jsval) : bool :=
  match v with
  | VBool false => true
  | _ => false
  end.

(** The application does not carry the flag yet. *)
Definition unhooked (app : nat) (st : state) : bool :=
  match app_get_state app st with
  | None => true
  | Some _ => false
  end.

(** What [hookExpressApp] makes of an application it has not seen. *)
Definition hooked (a : express_app) : express_app :=
  {| tidy_exit_state := Some false; tidy_middleware := S (tidy_middleware a) |}.

(** The line the subscribed closure of [addTidyExitHandler] logs. *)
Definition trigger_line (source : jsval) (l : exit_listener) : string :=
  "Graceful exit triggered by " +s to_string source +s " for " +s to_string (desc l).

(** The custom loggers have received [v] and [n] is the number of a slot of
    the registry. *)
Definition logged_with_slot (n : Z) (v : list (nat * string)) (st : state) : Prop :=
  logged (env st) = v
  /\ 1 <= n <= Z.of_nat (List.length (handler_callback_registry st)).

(* ------------------------------------------------------------------------ *)
(** ** Reasoning about computations *)
(* ------------------------------------------------------------------------ *)

Lemma preserves_ret {A} P (a : A) : preserves P (ret a).
Proof. intros st Ha H. simpl. auto. Qed.

Lemma preserves_bind {A B} P (m : M A) (f : A -> M B) :
  preserves P m -> (forall a, preserves P (f a)) -> preserves P (bind m f).
Proof.
  intros Hm Hf st Ha H. unfold bind.
  destruct (Hm st Ha H) as [H1 H2].
  destruct (m st) as [[a|] st']; simpl in *.
  - apply Hf; [apply H2; discriminate | exact H1].
  - split; [exact H1 | congruence].
Qed.

Lemma preserves_lift P f : keeps P f -> preserves P (lift f).
Proof. intros Hf st Ha H. simpl. destruct (Hf st Ha H). auto. Qed.

Lemma preserves_forEach {A} P (f : A -> M unit) l :
  (forall x, preserves P (f x)) -> preserves P (forEach f l).
Proof.
  intros Hf. induction l as [|x r IH]; simpl.
  - apply preserves_ret.
  - apply preserves_bind; auto.
Qed.

Lemma preserves_call_each {A} P (m : M A) n :
  preserves P m -> preserves P (call_each n m).
Proof.
  intros Hm. induction n as [|k IH]; simpl.
  - apply preserves_ret.
  - apply preserves_bind; auto.
Qed.

Lemma preserves_ext {A} P (m m' : M A) :
  (forall st, m st = m' st) -> preserves P m -> preserves P m'.
Proof. intros E Hm st Ha H. rewrite <- E. apply Hm; assumption. Qed.

Lemma keeps_fold_left {A} P (f : state -> A -> state) l :
  (forall x, keeps P (fun st => f st x)) -> keeps P (fun st => fold_left f l st).
Proof.
  intros Hf. induction l as [|x r IH]; intros st Ha H; simpl.
  - auto.
  - destruct (Hf x st Ha H). apply IH; assumption.
Qed.

Lemma keeps_compose P f g : keeps P f -> keeps P g -> keeps P (fun st => g (f st)).
Proof. intros Hf Hg st Ha H. destruct (Hf st Ha H). apply Hg; assumption. Qed.

Lemma keeps_id P : keeps P (fun st => st).
Proof. intros st Ha H. auto. Qed.

(** Running a list of events, seen from its last event. *)
Lemma run_snoc evs ev st : run (evs ++ [ev]) st = step (run evs st) ev.
Proof. unfold run. rewrite fold_left_app. reflexivity. Qed.

Lemma step_halted st ev : halted (env st) = true -> step st ev = st.
Proof. intros H. unfold step. rewrite H. reflexivity. Qed.

Lemma step_alive st ev : alive st -> step st ev = snd (handle_event ev st).
Proof. intros H. unfold step. rewrite H. reflexivity. Qed.

(** A process that is alive after a step was alive before it. *)
Lemma alive_before_step st ev : alive (step st ev) -> alive st.
Proof.
  unfold alive. intros H. destruct (halted (env st)) eqn:E; [|reflexivity].
  rewrite step_halted in H by exact E. congruence.
Qed.

(** *** What the runtime callbacks are made of *)

Lemma log_call_alive msg st : alive st -> alive (log_call msg st).
Proof. unfold alive, log_call. destruct (log st); auto. Qed.

Lemma preserves_process_exit P code :
  callback_steps P -> preserves P (process_exit code).
Proof.
  intros HP st Ha H. split.
  - apply HP; assumption.
  - unfold process_exit. destruct (exit_returns (env st)); simpl.
    + intros _. exact Ha.
    + congruence.
Qed.

Lemma preserves_checkHandlersDone P h :
  callback_steps P -> preserves P (_checkHandlersDone h).
Proof.
  intros HP st Ha H. unfold _checkHandlersDone.
  set (st1 := if truthy h then _ else _).
  assert (H1 : P st1 /\ alive st1).
  { subst st1. destruct (truthy h); [|auto].
    destruct (js_le _ _).
    - destruct h; auto. split; [apply HP; assumption | exact Ha].
    - split; [apply HP; assumption | apply log_call_alive, Ha]. }
  clearbody st1. destruct H1 as [H1 Ha1].
  destruct (_ <=? _); [|simpl; auto].
  destruct (all_callbacks_done _); [|simpl; auto].
  refine (preserves_bind P (process_exit 0) _ _ _ st1 Ha1 H1).
  - apply preserves_process_exit, HP.
  - intros a. apply preserves_ret.
Qed.

Lemma preserves_emit_done P h : callback_steps P -> preserves P (emit_done h).
Proof.
  intros HP st Ha H. unfold emit_done.
  apply preserves_call_each; auto. apply preserves_checkHandlersDone, HP.
Qed.

Lemma preserves_suicide_timeout P : callback_steps P -> preserves P suicide_timeout.
Proof.
  intros HP. unfold suicide_timeout. apply preserves_bind.
  - apply preserves_checkHandlersDone, HP.
  - intros all_done. destruct all_done; simpl; [apply preserves_ret|].
    apply preserves_bind.
    + apply preserves_lift. intros st Ha H. split; [apply HP; assumption|].
      apply log_call_alive, Ha.
    + intros _. apply preserves_process_exit, HP.
Qed.

Lemma preserves_defaultExitHandler P done :
  callback_steps P -> preserves P done -> preserves P (_defaultExitHandler done).
Proof.
  intros HP Hd st Ha H. unfold _defaultExitHandler.
  destruct (default_exit_timer st) eqn:E.
  - apply Hd; assumption.
  - change (let (t, st') := setTimeout (getTimeout st) st in
            set_default_exit_timer (Some t) st') with (arm_timer st).
    apply Hd; [exact Ha | apply HP; assumption].
Qed.

Lemma preserves_run_exit_handler P h done :
  callback_steps P -> preserves P done -> preserves P (run_exit_handler h done).
Proof.
  intros HP Hd. destruct h; simpl.
  - apply preserves_defaultExitHandler; assumption.
  - apply preserves_bind; [|intros _; exact Hd].
    apply preserves_lift. intros st Ha H. split; [apply HP; assumption | exact Ha].
  - apply preserves_lift. intros st Ha H. split; [apply HP; assumption | exact Ha].
  - apply preserves_call_each, Hd.
Qed.

Lemma preserves_tidy_exit_listener P l source :
  handler_steps P -> preserves P (tidy_exit_listener l source).
Proof.
  intros HP st Ha H. unfold tidy_exit_listener.
  apply preserves_run_exit_handler.
  - apply HP.
  - apply preserves_emit_done, HP.
  - apply log_call_alive, Ha.
  - apply (hs_invoked P HP); [apply log_call_alive, Ha|].
    apply (hs_log P (hs_callbacks P HP)); [exact Ha|].
    apply (hs_push P HP); assumption.
Qed.

Lemma registerExitListeners_env_status st :
  halted (env (_registerExitListeners st)) = halted (env st).
Proof.
  unfold _registerExitListeners. destruct (listening_to_exit st) as [[|]|]; reflexivity.
Qed.

Lemma addTidyExitHandler_alive h d t st :
  alive st -> alive (addTidyExitHandler h d t st).
Proof.
  unfold alive, addTidyExitHandler. intros Ha.
  destruct (js_gt _ _); simpl; rewrite registerExitListeners_env_status; exact Ha.
Qed.

Lemma preserves_emit_tidy_exit P source :
  trigger_steps P -> preserves P (emit_tidy_exit source).
Proof.
  intros HP st Ha H. unfold emit_tidy_exit.
  apply preserves_forEach.
  - intros l. apply preserves_bind.
    + apply preserves_lift. intros s Hs Hp. split; [apply HP; assumption | exact Hs].
    + intros _. apply preserves_tidy_exit_listener, HP.
  - exact Ha.
  - apply HP; assumption.
Qed.

Lemma preserves_emittidyExitEvent P signal :
  trigger_steps P -> preserves P (_emittidyExitEvent signal).
Proof.
  intros HP. unfold _emittidyExitEvent.
  apply preserves_bind; [|intros _; apply preserves_bind].
  - apply preserves_lift. intros st Ha H. split; [apply HP; assumption|].
    unfold _registerDefaultTimeoutHandler.
    apply (addTidyExitHandler_alive _ _ _ st Ha).
  - apply preserves_lift. intros st Ha H. split; [apply HP; assumption | exact Ha].
  - intros _. apply preserves_emit_tidy_exit, HP.
Qed.

Lemma preserves_process_emit P name payload :
  trigger_steps P -> preserves P (process_emit name payload).
Proof.
  intros HP st Ha H. unfold process_emit.
  apply preserves_forEach; auto.
  intros b. apply preserves_bind.
  - apply preserves_lift. intros s Hs Hp. split; [apply HP; assumption | exact Hs].
  - intros _. unfold run_proc_handler. destruct (fn_body _).
    + destruct (loose_eq_shutdown payload).
      * apply preserves_emittidyExitEvent, HP.
      * apply preserves_ret.
    + apply preserves_emittidyExitEvent, HP.
Qed.

Lemma preserves_fire_timer P handle :
  trigger_steps P -> preserves P (fire_timer handle).
Proof.
  intros HP st Ha H. unfold fire_timer.
  destruct (existsb _ _).
  - apply preserves_suicide_timeout; [apply HP | exact Ha |].
    apply HP; assumption.
  - simpl. auto.
Qed.

(** *** The timeout fields and the logger are only written by the public API *)

Lemma registerExitListeners_timeout_fields st :
  timeout_fields (_registerExitListeners st) = timeout_fields st.
Proof.
  unfold _registerExitListeners. destruct (listening_to_exit st) as [[|]|]; reflexivity.
Qed.

Lemma js_gt_undefined v : js_gt JUndefined v = false.
Proof. reflexivity. Qed.

Lemma addTidyExitHandler_untimed_timeout_fields h d st :
  timeout_fields (addTidyExitHandler h d JUndefined st) = timeout_fields st.
Proof.
  unfold addTidyExitHandler. rewrite js_gt_undefined.
  unfold timeout_fields. simpl.
  apply registerExitListeners_timeout_fields.
Qed.

Lemma timeout_fields_callback_steps v :
  callback_steps (fun st => timeout_fields st = v).
Proof.
  constructor; intros; try assumption.
  - unfold log_call. destruct (log st); assumption.
  - unfold process_exit. destruct (exit_returns (env st)); assumption.
Qed.

Lemma timeout_fields_handler_steps v :
  handler_steps (fun st => timeout_fields st = v).
Proof.
  constructor; intros; try assumption. apply timeout_fields_callback_steps.
Qed.

Lemma timeout_fields_trigger_steps v :
  trigger_steps (fun st => timeout_fields st = v).
Proof.
  constructor; intros; try assumption.
  - apply timeout_fields_handler_steps.
  - unfold _registerDefaultTimeoutHandler.
    rewrite <- H0. apply addTidyExitHandler_untimed_timeout_fields.
Qed.

(** No callback of the runtime changes a timeout field or the logger. *)
Lemma runtime_keeps_timeout_fields ev st :
  alive st ->
  match ev with
  | process_event _ _ | timer_fires _ | done_called _ => True
  | _ => False
  end ->
  timeout_fields (snd (handle_event ev st)) = timeout_fields st.
Proof.
  intros Ha Hev.
  destruct ev; try contradiction; simpl.
  - apply (preserves_process_emit (fun s => timeout_fields s = timeout_fields st));
      auto using timeout_fields_trigger_steps.
  - apply (preserves_fire_timer (fun s => timeout_fields s = timeout_fields st));
      auto using timeout_fields_trigger_steps.
  - apply (preserves_emit_done (fun s => timeout_fields s = timeout_fields st));
      auto using timeout_fields_callback_steps.
Qed.

Lemma hookExpressApp_timeout_fields app st :
  timeout_fields (snd (hookExpressApp app st)) = timeout_fields st.
Proof.
  unfold hookExpressApp. destruct (app_get_state app st); [reflexivity|].
  simpl. rewrite addTidyExitHandler_untimed_timeout_fields. reflexivity.
Qed.

Lemma hookHttpServer_timeout_fields server hook_apps st :
  timeout_fields (snd (hookHttpServer server hook_apps st)) = timeout_fields st.
Proof.
  unfold hookHttpServer. simpl.
  assert (F : forall l s, timeout_fields (fold_left _detectAndHookExpressApp l s)
                          = timeout_fields s).
  { induction l as [|x r IH]; intros s; simpl; [reflexivity|].
    rewrite IH. unfold _detectAndHookExpressApp.
    destruct (forallb _ _); [apply hookExpressApp_timeout_fields | reflexivity]. }
  destruct hook_apps as [| |[|]| | | |]; rewrite ?F;
    apply addTidyExitHandler_untimed_timeout_fields.
Qed.

Lemma addTidyExitHandler_max_handler_timeout h d t st :
  max_handler_timeout (addTidyExitHandler h d t st)
  = if js_gt t (max_handler_timeout st) then t else max_handler_timeout st.
Proof.
  assert (E := registerExitListeners_timeout_fields st).
  unfold timeout_fields in E. injection E as E1 E2 E3.
  unfold addTidyExitHandler. simpl. rewrite E1.
  destruct (js_gt t (max_handler_timeout st)); simpl; auto.
Qed.

Lemma addTidyExitHandler_max_timeout h d t st :
  max_timeout (addTidyExitHandler h d t st) = max_timeout st.
Proof.
  assert (E := registerExitListeners_timeout_fields st).
  unfold timeout_fields in E. injection E as E1 E2 E3.
  unfold addTidyExitHandler. destruct (js_gt _ _); simpl; auto.
Qed.

Lemma init_timeouts st :
  max_handler_timeout (_init st) = JNum 0 /\ max_timeout (_init st) = JNum 0.
Proof.
  unfold _init. simpl.
  match goal with |- context [clearTimeout ?t ?s] => destruct t end; simpl; auto.
Qed.

Lemma track_max_nonneg h ev : 0 <= h -> 0 <= track_max h ev.
Proof.
  intros Hh. destruct ev; simpl; try lia.
  destruct timeout; lia.
Qed.

Lemma timeout_fields_eq s s0 :
  timeout_fields s = timeout_fields s0 ->
  max_handler_timeout s = max_handler_timeout s0 /\ max_timeout s = max_timeout s0.
Proof. unfold timeout_fields. intros E. split; congruence. Qed.

(** What one event does to the two timeout variables of a live process. *)
Lemma handle_event_timeouts ev st h :
  alive st -> max_handler_timeout st = JNum h -> 0 <= h ->
  max_handler_timeout (snd (handle_event ev st)) = JNum (track_max h ev)
  /\ max_timeout (snd (handle_event ev st)) = track_override (max_timeout st) ev.
Proof.
  intros Ha Hh Hpos.
  destruct ev; simpl.
  - rewrite addTidyExitHandler_max_handler_timeout, addTidyExitHandler_max_timeout, Hh.
    split; [|reflexivity].
    destruct timeout; unfold js_gt; simpl; try reflexivity.
    + destruct (0 >? h) eqn:E; [lia | reflexivity].
    + destruct (n >? h) eqn:E; f_equal; lia.
  - auto.
  - auto.
  - apply init_timeouts.
  - rewrite <- Hh. apply timeout_fields_eq, hookExpressApp_timeout_fields.
  - rewrite <- Hh. apply timeout_fields_eq, hookHttpServer_timeout_fields.
  - rewrite <- Hh. apply timeout_fields_eq.
    apply (runtime_keeps_timeout_fields (process_event name payload)); simpl; auto.
  - rewrite <- Hh. apply timeout_fields_eq.
    apply (runtime_keeps_timeout_fields (timer_fires handle)); simpl; auto.
  - rewrite <- Hh. apply timeout_fields_eq.
    apply (runtime_keeps_timeout_fields (done_called handler_number)); simpl; auto.
Qed.

(** In a live process the two timeout variables hold what the history of
    calls says: the running maximum of the requested timeouts, and the last
    override. *)
Lemma timeouts_follow_history stub throws evs :
  let st := run evs (loaded (boot stub throws)) in
  alive st ->
  max_handler_timeout st = JNum (running_max evs)
  /\ 0 <= running_max evs
  /\ max_timeout st = current_override evs.
Proof.
  induction evs as [|ev evs IH] using rev_ind; intros st Ha.
  - subst st. simpl. repeat split; try reflexivity.
  - subst st. rewrite run_snoc in *.
    assert (Hb := alive_before_step _ _ Ha).
    destruct (IH Hb) as (IH1 & IH2 & IH3). clear IH.
    unfold running_max, current_override. rewrite !fold_left_app. simpl.
    fold (running_max evs). fold (current_override evs).
    rewrite step_alive by exact Hb.
    destruct (handle_event_timeouts ev _ _ Hb IH1 IH2) as [E1 E2].
    rewrite E1, E2, IH3. repeat split. apply track_max_nonneg, IH2.
Qed.

(* ------------------------------------------------------------------------ *)
(** ** Timeout policy *)
(* ------------------------------------------------------------------------ *)

Lemma getTimeout_of_fields st h :
  max_handler_timeout st = JNum h ->
  getTimeout st = JNum (resolveTimeout h (override_of (max_timeout st))).
Proof.
  intros Hh. unfold getTimeout, resolveTimeout, js_gt. rewrite Hh.
  destruct (max_timeout st) as [| |m]; simpl.
  - destruct (h =? 0); reflexivity.
  - destruct (h =? 0); reflexivity.
  - destruct (h =? 0); simpl.
    + destruct (m =? 0); reflexivity.
    + destruct (m =? 0); simpl; [reflexivity|].
      destruct (m >? h); reflexivity.
Qed.

(** C1. In every state a live process can reach, [getTimeout()] is the
    resolution function of section 4.1 applied to the running maximum of the
    requested timeouts and to the override in force; the three scenarios of
    the specification evaluate to 322, 322 and 1231. *)
Theorem getTimeout_resolves :
  (forall stub throws evs,
      let st := run evs (loaded (boot stub throws)) in
      alive st ->
      getTimeout st
      = JNum (resolveTimeout (running_max evs) (override_of (current_override evs))))
  /\ getTimeout (run [call_addTidyExitHandler 0 (VStr "A") (JNum 322);
                      call_setMaxTimeout (JNum 1231)] node) = JNum 322
  /\ getTimeout (run [call_addTidyExitHandler 0 (VStr "A") (JNum 322);
                      call_setMaxTimeout (JNum 1231);
                      call_setMaxTimeout JNull] node) = JNum 322
  /\ getTimeout (run [call_addTidyExitHandler 0 VUndefined (JNum (1231 * 2));
                      call_setMaxTimeout (JNum 1231)] node) = JNum 1231.
Proof.
  split; [|repeat split; reflexivity].
  intros stub throws evs st Ha.
  destruct (timeouts_follow_history stub throws evs Ha) as (H1 & _ & H3).
  fold st in H1, H3. rewrite <- H3. apply getTimeout_of_fields, H1.
Qed.

Lemma getTimeout_resolves_witness :
  getTimeout (run [call_setMaxTimeout (JNum 1231);
                   call_addTidyExitHandler 1 (VStr "A") (JNum 322);
                   process_event "SIGTERM" VUndefined]
                  (loaded (boot true (fun _ => false))))
  = JNum 322.
Proof.
  apply (proj1 getTimeout_resolves true (fun _ => false)
           [call_setMaxTimeout (JNum 1231);
            call_addTidyExitHandler 1 (VStr "A") (JNum 322);
            process_event "SIGTERM" VUndefined]).
  reflexivity.
Defined.

(** C10. [setMaxTimeout(0)] leaves [getTimeout()] where an absent override
    leaves it: on the running maximum of the requested timeouts when there
    is one, on 120000 otherwise, never on 0; so it is after a reset, which
    stores 0 in the override. *)
Theorem zero_override_is_no_override :
  (forall st,
      getTimeout (setMaxTimeout (JNum 0) st)
      = if truthy (max_handler_timeout st) then max_handler_timeout st
        else JNum 120000)
  /\ (forall st, getTimeout (setMaxTimeout (JNum 0) st) <> JNum 0)
  /\ (forall st,
        getTimeout (setMaxTimeout (JNum 0) st) = getTimeout (setMaxTimeout JNull st)
        /\ getTimeout (setMaxTimeout (JNum 0) st)
           = getTimeout (setMaxTimeout JUndefined st))
  /\ (forall st, max_timeout (_init st) = JNum 0 /\ getTimeout (_init st) = JNum 120000)
  /\ (forall stub throws evs,
        let st := run evs (loaded (boot stub throws)) in
        getTimeout (setMaxTimeout (JNum 0) st)
        = JNum (if running_max evs =? 0 then 120000 else running_max evs)
        \/ halted (env st) = true).
Proof.
  assert (A : forall st,
      getTimeout (setMaxTimeout (JNum 0) st)
      = if truthy (max_handler_timeout st) then max_handler_timeout st
        else JNum 120000).
  { intros st. unfold getTimeout, setMaxTimeout. simpl.
    destruct (truthy (max_handler_timeout st)); reflexivity. }
  split; [exact A|]. split; [|split; [|split]].
  - intros st. rewrite A.
    destruct (max_handler_timeout st) as [| |n]; simpl; try discriminate.
    destruct (n =? 0) eqn:E; simpl; [discriminate|].
    intros F. injection F as F. lia.
  - intros st. rewrite A. unfold getTimeout, setMaxTimeout. simpl.
    destruct (truthy (max_handler_timeout st)); auto.
  - intros st. destruct (init_timeouts st) as [H1 H2]. split; [exact H2|].
    unfold getTimeout. rewrite H1, H2. reflexivity.
  - intros stub throws evs st.
    destruct (halted (env st)) eqn:E; [right; reflexivity | left].
    destruct (timeouts_follow_history stub throws evs E) as (H1 & _ & _).
    fold st in H1. rewrite A, H1. simpl.
    destruct (running_max evs =? 0); reflexivity.
Qed.

(* ------------------------------------------------------------------------ *)
(** ** Completion tracking *)
(* ------------------------------------------------------------------------ *)

Lemma increment_at_length i l : List.length (increment_at i l) = List.length l.
Proof.
  revert i. induction l as [|c r IH]; intros [|k]; simpl; auto.
Qed.

Lemma increment_slot_length n l : List.length (increment_slot n l) = List.length l.
Proof.
  unfold increment_slot. destruct (1 <=? n); auto using increment_at_length.
Qed.

Lemma log_call_module_variables msg st :
  handler_callback_registry (log_call msg st) = handler_callback_registry st
  /\ registered_handlers_count (log_call msg st) = registered_handlers_count st
  /\ tidy_exit_event (log_call msg st) = tidy_exit_event st
  /\ default_exit_timer (log_call msg st) = default_exit_timer st.
Proof. unfold log_call. destruct (log st); simpl; auto. Qed.

Lemma mark_done_length h st :
  List.length (handler_callback_registry (mark_done h st))
  = List.length (handler_callback_registry st).
Proof.
  unfold mark_done. destruct (truthy h); [|reflexivity].
  destruct (js_le _ _).
  - destruct h; simpl; auto using increment_slot_length.
  - destruct (log_call_module_variables
                ("Invalid callback handler number: " +s jsnum_to_string h) st)
      as (E & _). rewrite E. reflexivity.
Qed.

Lemma mark_done_count h st :
  registered_handlers_count (mark_done h st) = registered_handlers_count st.
Proof.
  unfold mark_done. destruct (truthy h); [|reflexivity].
  destruct (js_le _ _).
  - destruct h; reflexivity.
  - apply log_call_module_variables.
Qed.

Lemma all_callbacks_done_forallb l :
  all_callbacks_done l = forallb (fun counter => 1 <=? counter) l.
Proof.
  unfold all_callbacks_done. induction l as [|c r IH]; simpl; [reflexivity|].
  rewrite IH. f_equal.
  destruct (c <? 1) eqn:E1, (1 <=? c) eqn:E2; simpl; try reflexivity; lia.
Qed.

Lemma checkHandlersDone_decomposed h st :
  _checkHandlersDone h st = exit_if_drained (mark_done h st).
Proof.
  unfold _checkHandlersDone, exit_if_drained, isFullyDrained.
  fold (mark_done h st).
  rewrite mark_done_length, all_callbacks_done_forallb.
  destruct (_ <=? _); simpl; [|reflexivity].
  destruct (forallb _ _); reflexivity.
Qed.

Lemma process_exit_module_variables code st :
  isFullyDrained (snd (process_exit code st)) = isFullyDrained st
  /\ handler_callback_registry (snd (process_exit code st)) = handler_callback_registry st
  /\ registered_handlers_count (snd (process_exit code st)) = registered_handlers_count st
  /\ tidy_exit_event (snd (process_exit code st)) = tidy_exit_event st
  /\ exit_calls (env (snd (process_exit code st))) = exit_calls (env st) ++ [code]
  /\ logged (env (snd (process_exit code st))) = logged (env st)
  /\ fst (process_exit code st) = if exit_returns (env st) then Some tt else None.
Proof.
  unfold process_exit. destruct (exit_returns (env st)); simpl; auto 10.
Qed.

Lemma exit_if_drained_true st :
  isFullyDrained st = true ->
  isFullyDrained (snd (exit_if_drained st)) = true
  /\ handler_callback_registry (snd (exit_if_drained st)) = handler_callback_registry st
  /\ registered_handlers_count (snd (exit_if_drained st)) = registered_handlers_count st
  /\ tidy_exit_event (snd (exit_if_drained st)) = tidy_exit_event st
  /\ exit_calls (env (snd (exit_if_drained st))) = exit_calls (env st) ++ [0]
  /\ logged (env (snd (exit_if_drained st))) = logged (env st)
  /\ fst (exit_if_drained st) = if exit_returns (env st) then Some true else None.
Proof.
  intros D. unfold exit_if_drained. rewrite D. unfold bind.
  destruct (process_exit_module_variables 0 st) as (E1 & E2 & E3 & E4 & E5 & E6 & E7).
  destruct (process_exit 0 st) as [[[]|] st']; simpl in *;
    destruct (exit_returns (env st)); try discriminate;
    repeat split; congruence.
Qed.

Lemma exit_if_drained_false st :
  isFullyDrained st = false -> exit_if_drained st = (Some false, st).
Proof. intros D. unfold exit_if_drained. rewrite D. reflexivity. Qed.

(** What one call of [_checkHandlersDone] does, whether the check ends the
    process or not. *)
Lemma checkHandlersDone_outcome h st :
  let out := _checkHandlersDone h st in
  isFullyDrained (snd out) = isFullyDrained (mark_done h st)
  /\ handler_callback_registry (snd out) = handler_callback_registry (mark_done h st)
  /\ registered_handlers_count (snd out) = registered_handlers_count st
  /\ tidy_exit_event (snd out) = tidy_exit_event (mark_done h st)
  /\ (isFullyDrained (snd out) = true ->
      exit_calls (env (snd out)) = exit_calls (env (mark_done h st)) ++ [0]
      /\ fst out = if exit_returns (env (mark_done h st)) then Some true else None)
  /\ (isFullyDrained (snd out) = false -> out = (Some false, mark_done h st)).
Proof.
  intros out. subst out. rewrite checkHandlersDone_decomposed.
  destruct (isFullyDrained (mark_done h st)) eqn:D.
  - destruct (exit_if_drained_true _ D) as (E1 & E2 & E3 & E4 & E5 & E6 & E7).
    rewrite E1, E2, E3, E4, mark_done_count. repeat split; auto. discriminate.
  - rewrite (exit_if_drained_false _ D). simpl. rewrite D, mark_done_count.
    repeat split; auto; discriminate.
Qed.

Lemma mark_done_env h st :
  exit_calls (env (mark_done h st)) = exit_calls (env st)
  /\ exit_returns (env (mark_done h st)) = exit_returns (env st)
  /\ halted (env (mark_done h st)) = halted (env st)
  /\ tidy_exit_event (mark_done h st) = tidy_exit_event st.
Proof.
  unfold mark_done. destruct (truthy h); [|auto].
  destruct (js_le _ _).
  - destruct h; auto.
  - unfold log_call. destruct (log st); auto.
Qed.

(** A completion callback whose last check finds the registry drained has
    called [process.exit(0)]. *)
Lemma call_each_check_exits h k st :
  let st' := snd (call_each k (_checkHandlersDone h) st) in
  isFullyDrained st' = true ->
  st' = st \/ exists calls, exit_calls (env st') = exit_calls (env st) ++ 0 :: calls.
Proof.
  revert st. induction k as [|k IH]; intros st st' D; [left; reflexivity|].
  subst st'. simpl in *. unfold bind in *.
  destruct (checkHandlersDone_outcome h st) as (E1 & _ & _ & _ & E5 & E6).
  destruct (mark_done_env h st) as (M1 & M2 & _).
  destruct (_checkHandlersDone h st) as [[b|] st1] eqn:Out; simpl in *.
  - destruct (isFullyDrained st1) eqn:D1.
    + destruct (E5 eq_refl) as [E5a _]. rewrite M1 in E5a.
      destruct (IH st1 D) as [Same | [calls Ec]].
      * right. exists []. rewrite Same. exact E5a.
      * right. exists ([] ++ 0 :: calls). rewrite Ec, E5a, <- app_assoc. reflexivity.
    + specialize (E6 eq_refl). injection E6 as _ E6. subst st1.
      destruct (IH _ D) as [Same | [calls Ec]].
      * exfalso. rewrite Same in D. congruence.
      * right. exists calls. rewrite Ec, M1. reflexivity.
  - right. exists []. destruct (E5 D) as [E5a _]. rewrite E5a, M1. reflexivity.
Qed.

(** C2. [_checkHandlersDone] returns [true] exactly when the snapshot of
    the subscriber count is at most the length of the registry and every
    counter is at least 1; it calls [process.exit(0)] exactly then; and a
    completion callback that turns the condition from false to true has
    called [process.exit(0)]. *)
Theorem drained_check_exits_with_0 :
  (forall h st,
      let out := _checkHandlersDone h st in
      (forall b, fst out = Some b -> (b = true <-> isFullyDrained (snd out) = true))
      /\ (exit_returns (env st) = true -> fst out = Some (isFullyDrained (snd out)))
      /\ (isFullyDrained (snd out) = true ->
          exit_calls (env (snd out)) = exit_calls (env st) ++ [0])
      /\ (isFullyDrained (snd out) = false ->
          exit_calls (env (snd out)) = exit_calls (env st)))
  /\ (forall n st,
        let st' := snd (emit_done (JNum n) st) in
        isFullyDrained st = false ->
        isFullyDrained st' = true ->
        exists calls, exit_calls (env st') = exit_calls (env st) ++ 0 :: calls).
Proof.
  split.
  - intros h st out.
    destruct (checkHandlersDone_outcome h st) as (E1 & _ & _ & _ & E5 & E6).
    destruct (mark_done_env h st) as (M1 & M2 & _).
    fold out in E1, E5, E6. rewrite M1, M2 in E5.
    destruct (isFullyDrained (snd out)) eqn:D.
    + destruct (E5 eq_refl) as [E5a E5b]. repeat split; auto; try discriminate.
      * rewrite E5b in H. destruct (exit_returns (env st)); congruence.
      * intros R. rewrite E5b, R. reflexivity.
    + specialize (E6 eq_refl). rewrite E6. simpl. rewrite M1.
      repeat split; auto; try discriminate; intros; congruence.
  - intros n st st' D0 D1. subst st'. unfold emit_done in *.
    destruct (call_each_check_exits (JNum n) _ st D1) as [Same | Hc]; [|exact Hc].
    rewrite Same in D1. congruence.
Qed.

Lemma drained_check_exits_with_0_witness :
  let st := run [call_addTidyExitHandler 0 (VStr "slow") JUndefined;
                 process_event "SIGTERM" VUndefined] node_stubbed in
  isFullyDrained st = false
  /\ exists calls,
       exit_calls (env (snd (emit_done (JNum 1) st))) = exit_calls (env st) ++ 0 :: calls.
Proof.
  split; [reflexivity|].
  apply (proj2 drained_check_exits_with_0 1
           (run [call_addTidyExitHandler 0 (VStr "slow") JUndefined;
                 process_event "SIGTERM" VUndefined] node_stubbed));
    reflexivity.
Defined.

Lemma mark_done_unknown st n :
  Z.of_nat (List.length (handler_callback_registry st)) < n ->
  mark_done (JNum n) st
  = log_call ("Invalid callback handler number: " +s number_to_string n) st.
Proof.
  intros Hn. unfold mark_done, js_le. simpl.
  destruct (n =? 0) eqn:E0; [lia|]. simpl.
  destruct (n <=? _) eqn:E1; [lia | reflexivity].
Qed.

Lemma exit_if_drained_logged st :
  logged (env (snd (exit_if_drained st))) = logged (env st).
Proof.
  destruct (isFullyDrained st) eqn:D.
  - apply exit_if_drained_true, D.
  - rewrite exit_if_drained_false by exact D. reflexivity.
Qed.

(** The claim of C6 as written fails: a completion callback without a slot
    index logs nothing. *)
Lemma missing_slot_is_not_logged : ~ unknown_slot_logs_and_noops.
Proof.
  intros H.
  destruct (H (setLogger (custom_logger 0) node) JUndefined 0%nat
              (or_introl eq_refl) eq_refl) as [[msg Hm] _].
  vm_compute in Hm. discriminate.
Qed.

(** C6, amended. A completion callback with a slot index beyond the
    registry logs "Invalid callback handler number: n" and then does what a
    call without index does; a call without index logs nothing; neither
    changes a counter, the length of the registry or the snapshot. *)
Theorem unknown_slot_is_a_noop :
  (forall st n,
      Z.of_nat (List.length (handler_callback_registry st)) < n ->
      _checkHandlersDone (JNum n) st
      = _checkHandlersDone JUndefined
          (log_call ("Invalid callback handler number: " +s number_to_string n) st))
  /\ (forall st h,
        unknown_slot st h ->
        handler_callback_registry (snd (_checkHandlersDone h st))
        = handler_callback_registry st
        /\ registered_handlers_count (snd (_checkHandlersDone h st))
           = registered_handlers_count st)
  /\ (forall st,
        logged (env (snd (_checkHandlersDone JUndefined st))) = logged (env st))
  /\ (forall st n sink,
        Z.of_nat (List.length (handler_callback_registry st)) < n ->
        log st = custom_logger sink ->
        logged (env (snd (_checkHandlersDone (JNum n) st)))
        = logged (env st)
            ++ [(sink, "Invalid callback handler number: " +s number_to_string n)]).
Proof.
  split; [|split; [|split]].
  - intros st n Hn. rewrite !checkHandlersDone_decomposed.
    rewrite mark_done_unknown by exact Hn. reflexivity.
  - intros st h Hu.
    destruct (checkHandlersDone_outcome h st) as (_ & E2 & E3 & _).
    split; [|exact E3]. rewrite E2.
    destruct Hu as [-> | (n & -> & Hn)]; [reflexivity|].
    rewrite mark_done_unknown by exact Hn. apply log_call_module_variables.
  - intros st. rewrite checkHandlersDone_decomposed. apply exit_if_drained_logged.
  - intros st n sink Hn Hl. rewrite checkHandlersDone_decomposed.
    rewrite exit_if_drained_logged, mark_done_unknown by exact Hn.
    unfold log_call. rewrite Hl. reflexivity.
Qed.

Lemma unknown_slot_is_a_noop_witness :
  let st := setLogger (custom_logger 7)
              (run [call_addTidyExitHandler 0 (VStr "slow") JUndefined;
                    process_event "SIGTERM" VUndefined] node) in
  logged (env (snd (_checkHandlersDone (JNum 5) st)))
  = logged (env st) ++ [(7%nat, "Invalid callback handler number: 5")]
  /\ handler_callback_registry (snd (_checkHandlersDone (JNum 5) st))
     = handler_callback_registry st.
Proof.
  split.
  - apply (proj2 (proj2 (proj2 unknown_slot_is_a_noop))); reflexivity.
  - apply (proj1 (proj2 unknown_slot_is_a_noop)).
    right. exists 5. split; [reflexivity | vm_compute; reflexivity].
Defined.

(* ------------------------------------------------------------------------ *)
(** ** What the public API leaves alone *)
(* ------------------------------------------------------------------------ *)

Lemma addExitHandler_outcome_fields signal h st :
  outcome_fields (_addExitHandler signal h st) = outcome_fields st.
Proof. reflexivity. Qed.

Lemma registerExitListeners_outcome_fields st :
  outcome_fields (_registerExitListeners st) = outcome_fields st.
Proof.
  unfold _registerExitListeners. destruct (listening_to_exit st) as [[|]|]; reflexivity.
Qed.

Lemma addTidyExitHandler_outcome_fields h d t st :
  outcome_fields (addTidyExitHandler h d t st) = outcome_fields st.
Proof.
  unfold addTidyExitHandler.
  destruct (js_gt _ _); unfold outcome_fields; simpl;
    apply registerExitListeners_outcome_fields.
Qed.

Lemma log_call_outcome_fields msg st :
  outcome_fields (log_call msg st) = outcome_fields st.
Proof. unfold log_call. destruct (log st); reflexivity. Qed.

Lemma remove_tracked_outcome_fields signal st h :
  outcome_fields (remove_tracked signal st h) = outcome_fields st.
Proof.
  unfold remove_tracked. destruct (existsb _ _); [reflexivity|].
  destruct (remove_absent_throws _ _); [apply log_call_outcome_fields | reflexivity].
Qed.

Lemma fold_left_frame {A B} (f : state -> A -> state) (proj : state -> B) l :
  (forall st x, proj (f st x) = proj st) ->
  forall st, proj (fold_left f l st) = proj st.
Proof.
  intros Hf. induction l as [|x r IH]; intros st; simpl; [reflexivity|].
  rewrite IH. apply Hf.
Qed.

Lemma cleanup_signal_outcome_fields st signal :
  outcome_fields (cleanup_signal st signal) = outcome_fields st.
Proof.
  unfold cleanup_signal.
  destruct (obj_get signal _) as [[hs|]|]; try reflexivity.
  change (outcome_fields (fold_left (remove_tracked signal) hs st) = outcome_fields st).
  apply fold_left_frame. intros. apply remove_tracked_outcome_fields.
Qed.

Lemma cleanupExitListeners_outcome_fields st :
  outcome_fields (_cleanupExitListeners st) = outcome_fields st.
Proof.
  unfold _cleanupExitListeners. destruct (exit_signal_handlers st); [|reflexivity].
  change (outcome_fields (fold_left cleanup_signal (map fst l) st) = outcome_fields st).
  apply fold_left_frame. intros. apply cleanup_signal_outcome_fields.
Qed.

Lemma init_outcome_fields st : outcome_fields (_init st) = outcome_fields st.
Proof.
  unfold _init.
  match goal with
  | |- context [clearTimeout ?t ?s] =>
      change (outcome_fields (clearTimeout t s) = outcome_fields st);
      transitivity (outcome_fields s); [destruct t; reflexivity|]
  end.
  change (outcome_fields
            (_cleanupExitListeners
               (set_log default_logger
                  (set_tidy_exit_event {| on_tidyExit := []; on_done := 0 |}
                     (set_registered_handlers_count 0
                        (set_handler_callback_registry [] st)))))
          = outcome_fields st).
  rewrite cleanupExitListeners_outcome_fields. reflexivity.
Qed.




(* ------------------------------------------------------------------------ *)
(** ** The safety-net timer *)
(* ------------------------------------------------------------------------ *)

Lemma timer_discipline_frame st st' :
  timer_fields st' = timer_fields st -> timer_discipline st -> timer_discipline st'.
Proof.
  unfold timer_fields, timer_discipline. intros E. injection E as E1 E2.
  rewrite E1, E2. auto.
Qed.

Lemma log_call_timer_fields msg st : timer_fields (log_call msg st) = timer_fields st.
Proof. unfold log_call. destruct (log st); reflexivity. Qed.

Lemma process_exit_timer_fields code st :
  timer_fields (snd (process_exit code st)) = timer_fields st.
Proof. unfold process_exit. destruct (exit_returns (env st)); reflexivity. Qed.

Lemma registerExitListeners_timer_fields st :
  timer_fields (_registerExitListeners st) = timer_fields st.
Proof.
  unfold _registerExitListeners. destruct (listening_to_exit st) as [[|]|]; reflexivity.
Qed.

Lemma addTidyExitHandler_timer_fields h d t st :
  timer_fields (addTidyExitHandler h d t st) = timer_fields st.
Proof.
  unfold addTidyExitHandler.
  destruct (js_gt _ _); unfold timer_fields; simpl;
    apply registerExitListeners_timer_fields.
Qed.

Lemma arm_timer_fields st :
  timers (env (arm_timer st)) = timers (env st) ++ [(next_id (env st), getTimeout st)]
  /\ default_exit_timer (arm_timer st) = Some (next_id (env st)).
Proof. split; reflexivity. Qed.

Lemma clearTimeout_discipline t st :
  timer_discipline st -> timer_discipline (clearTimeout t st).
Proof.
  unfold timer_discipline, clearTimeout. destruct t as [id|]; [|auto]. simpl.
  destruct (timers (env st)) as [|p [|q r]]; simpl; auto; [|contradiction].
  destruct (Nat.eqb (fst p) id); simpl; auto.
Qed.

Lemma timer_discipline_handler_steps : handler_steps timer_discipline.
Proof.
  constructor; intros;
    try (eapply timer_discipline_frame; [|eassumption]; reflexivity).
  constructor; intros;
    try (eapply timer_discipline_frame; [|eassumption]; reflexivity).
  - eapply timer_discipline_frame; [apply log_call_timer_fields | assumption].
  - eapply timer_discipline_frame; [apply process_exit_timer_fields | assumption].
  - unfold timer_discipline in *. destruct (arm_timer_fields st) as [E1 E2].
    rewrite E1, E2.
    destruct (timers (env st)) as [|p [|q r]]; simpl; auto; try contradiction.
    congruence.
Qed.

Lemma timer_discipline_trigger_steps : trigger_steps timer_discipline.
Proof.
  constructor; intros;
    try (eapply timer_discipline_frame; [|eassumption]; reflexivity).
  - apply timer_discipline_handler_steps.
  - eapply timer_discipline_frame; [|eassumption].
    unfold _registerDefaultTimeoutHandler.
    transitivity (timer_fields
                    (addTidyExitHandler default_exit_handler
                       (VStr "default timeout handler") JUndefined st));
      [reflexivity | apply addTidyExitHandler_timer_fields].
  - apply clearTimeout_discipline. assumption.
Qed.

Lemma cleanupExitListeners_timer_fields st :
  timer_fields (_cleanupExitListeners st) = timer_fields st.
Proof.
  unfold _cleanupExitListeners. destruct (exit_signal_handlers st); [|reflexivity].
  change (timer_fields (fold_left cleanup_signal (map fst l) st) = timer_fields st).
  apply fold_left_frame. intros s signal. unfold cleanup_signal.
  destruct (obj_get signal _) as [[hs|]|]; try reflexivity.
  change (timer_fields (fold_left (remove_tracked signal) hs s) = timer_fields s).
  apply fold_left_frame. intros s' h. unfold remove_tracked.
  destruct (existsb _ _); [reflexivity|].
  destruct (remove_absent_throws _ _); [apply log_call_timer_fields | reflexivity].
Qed.

(** After a reset the handle is [null]; the timer it named is not pending,
    and under the discipline no timer is. *)
Lemma init_timer st :
  default_exit_timer (_init st) = None
  /\ (forall t delay, default_exit_timer st = Some t ->
                      ~ In (t, delay) (timers (env (_init st))))
  /\ (timer_discipline st -> timers (env (_init st)) = []).
Proof.
  assert (E := cleanupExitListeners_timer_fields
                 (set_log default_logger
                    (set_tidy_exit_event {| on_tidyExit := []; on_done := 0 |}
                       (set_registered_handlers_count 0
                          (set_handler_callback_registry [] st))))).
  unfold timer_fields in E. simpl in E. injection E as E1 E2.
  unfold _init. simpl. rewrite E2.
  split; [reflexivity|]. unfold clearTimeout.
  destruct (default_exit_timer st) as [id|] eqn:Et; simpl; rewrite E1.
  - split.
    + intros t delay Ht Hin. injection Ht as <-.
      apply filter_In in Hin. destruct Hin as [_ Hin]. simpl in Hin.
      rewrite Nat.eqb_refl in Hin. discriminate.
    + unfold timer_discipline. rewrite Et.
      destruct (timers (env st)) as [|p [|q r]]; simpl; auto; [|contradiction].
      intros Hp. injection Hp as <-. rewrite Nat.eqb_refl. reflexivity.
  - split; [discriminate|].
    unfold timer_discipline. rewrite Et.
    destruct (timers (env st)) as [|p [|q r]]; simpl; auto;
      [discriminate | contradiction].
Qed.

Lemma hookExpressApp_timer_fields app st :
  timer_fields (snd (hookExpressApp app st)) = timer_fields st.
Proof.
  unfold hookExpressApp. destruct (app_get_state app st); [reflexivity|].
  simpl. rewrite addTidyExitHandler_timer_fields. reflexivity.
Qed.

Lemma hookHttpServer_timer_fields server hook_apps st :
  timer_fields (snd (hookHttpServer server hook_apps st)) = timer_fields st.
Proof.
  unfold hookHttpServer. simpl.
  assert (F : forall l s, timer_fields (fold_left _detectAndHookExpressApp l s)
                          = timer_fields s).
  { intros l. apply fold_left_frame. intros s x. unfold _detectAndHookExpressApp.
    destruct (forallb _ _); [apply hookExpressApp_timer_fields | reflexivity]. }
  destruct hook_apps as [| |[|]| | | |]; rewrite ?F;
    apply addTidyExitHandler_timer_fields.
Qed.

Lemma init_timer_discipline st : timer_discipline st -> timer_discipline (_init st).
Proof.
  intros H. destruct (init_timer st) as (_ & _ & E).
  unfold timer_discipline. rewrite (E H). exact I.
Qed.

(* ------------------------------------------------------------------------ *)
(** ** Exit discipline *)
(* ------------------------------------------------------------------------ *)

Lemma exit_discipline_frame st st' :
  outcome_fields st' = outcome_fields st -> exit_discipline st -> exit_discipline st'.
Proof.
  unfold outcome_fields, exit_discipline. intros E. injection E as E1 E2 E3 E4 E5.
  rewrite E1, E2, E3. auto.
Qed.

Lemma exit_discipline_handler_steps : handler_steps exit_discipline.
Proof.
  constructor; intros;
    try (eapply exit_discipline_frame; [|eassumption]; reflexivity);
    [|assumption].
  constructor; intros;
    try (eapply exit_discipline_frame; [|eassumption]; reflexivity).
  - eapply exit_discipline_frame; [apply log_call_outcome_fields | assumption].
  - unfold exit_discipline, process_exit in *. unfold alive in H.
    destruct (exit_returns (env st)) eqn:E; simpl; rewrite E; [discriminate|].
    intros _. rewrite H in H0. rewrite (H0 eq_refl). reflexivity.
Qed.

Lemma exit_discipline_trigger_steps : trigger_steps exit_discipline.
Proof.
  constructor; intros;
    try (eapply exit_discipline_frame; [|eassumption]; reflexivity).
  - apply exit_discipline_handler_steps.
  - exact H0.
  - eapply exit_discipline_frame; [|eassumption].
    unfold _registerDefaultTimeoutHandler.
    transitivity (outcome_fields
                    (addTidyExitHandler default_exit_handler
                       (VStr "default timeout handler") JUndefined st));
      [reflexivity | apply addTidyExitHandler_outcome_fields].
Qed.

(* ------------------------------------------------------------------------ *)
(** ** Listeners on [process] *)
(* ------------------------------------------------------------------------ *)

Lemma obj_get_set_same {V} k (v : V) o : obj_get k (obj_set k v o) = Some v.
Proof.
  induction o as [|[k' w] r IH]; simpl.
  - rewrite String.eqb_refl. reflexivity.
  - destruct (String.eqb k' k) eqn:E; simpl; rewrite E; auto.
Qed.

Lemma obj_get_set_other {V} k k' (v : V) o :
  k <> k' -> obj_get k (obj_set k' v o) = obj_get k o.
Proof.
  intros Hk. induction o as [|[k0 w] r IH]; simpl.
  - destruct (String.eqb k' k) eqn:E; [|reflexivity].
    apply String.eqb_eq in E. congruence.
  - destruct (String.eqb k0 k') eqn:E; simpl.
    + apply String.eqb_eq in E. subst k0.
      destruct (String.eqb k' k) eqn:E'; [|reflexivity].
      apply String.eqb_eq in E'. congruence.
    + destruct (String.eqb k0 k); auto.
Qed.

Lemma obj_get_key {V} k (o : list (string * V)) v :
  obj_get k o = Some v -> In k (map fst o).
Proof.
  induction o as [|[k' w] r IH]; simpl; [discriminate|].
  destruct (String.eqb k' k) eqn:E.
  - apply String.eqb_eq in E. auto.
  - auto.
Qed.

Lemma NoDup_map_filter {A B} (f : A -> B) p l :
  NoDup (map f l) -> NoDup (map f (filter p l)).
Proof.
  induction l as [|x r IH]; simpl; intros H; [constructor|].
  inversion H as [|? ? Hx Hr]; subst.
  destruct (p x); simpl; auto.
  constructor; auto. intros Hin. apply Hx.
  apply in_map_iff in Hin. destruct Hin as (y & Ey & Hy).
  apply filter_In in Hy. apply in_map_iff. exists y. tauto.
Qed.

Lemma is_binding_name signal h b : is_binding signal h b = true -> bound_event b = signal.
Proof.
  unfold is_binding. intros H. apply andb_prop in H. destruct H as [H _].
  apply String.eqb_eq, H.
Qed.

Lemma filter_no_match {A} (p : A -> bool) l :
  existsb p l = false -> filter (fun x => negb (p x)) l = l.
Proof.
  induction l as [|x r IH]; simpl; [reflexivity|].
  intros H. apply orb_false_elim in H. destruct H as [Hx Hr].
  rewrite Hx. simpl. f_equal. auto.
Qed.

(** With one listener per event, [removeListener] drops every binding of
    the handler on that event. *)
Lemma remove_last_binding_filter signal h l :
  NoDup (map bound_event l) ->
  remove_last_binding signal h l = filter (fun b => negb (is_binding signal h b)) l.
Proof.
  induction l as [|b r IH]; simpl; intros H; [reflexivity|].
  inversion H as [|? ? Hb Hr]; subst.
  destruct (existsb (is_binding signal h) r) eqn:Er.
  - apply existsb_exists in Er. destruct Er as (b' & Hin & Hm).
    apply is_binding_name in Hm.
    destruct (is_binding signal h b) eqn:Eb.
    + apply is_binding_name in Eb. exfalso. apply Hb.
      apply in_map_iff. exists b'. split; [congruence | exact Hin].
    + simpl. f_equal. auto.
  - rewrite (filter_no_match _ _ Er).
    destruct (is_binding signal h b); reflexivity.
Qed.

Lemma remove_first_binding_incl signal h l b :
  In b (remove_first_binding signal h l) -> In b l.
Proof.
  induction l as [|x r IH]; simpl; [auto|].
  destruct (is_binding signal h x); simpl; intuition.
Qed.

Lemma remove_first_binding_NoDup signal h l :
  NoDup (map bound_event l) ->
  NoDup (map bound_event (remove_first_binding signal h l)).
Proof.
  induction l as [|x r IH]; simpl; intros H; [constructor|].
  inversion H as [|? ? Hx Hr]; subst.
  destruct (is_binding signal h x); simpl; auto.
  constructor; auto. intros Hin. apply Hx.
  apply in_map_iff in Hin. destruct Hin as (y & Ey & Hy).
  apply in_map_iff. exists y. split; [exact Ey|].
  eapply remove_first_binding_incl, Hy.
Qed.

(** With one listener per event, no listener of [signal] is left once the
    one that fired has unbound itself. *)
Lemma remove_first_binding_spent l b :
  NoDup (map bound_event l) -> In b l ->
  Forall (fun x => bound_event x <> bound_event b)
         (remove_first_binding (bound_event b) (bound_handler b) l).
Proof.
  induction l as [|x r IH]; simpl; intros H Hin; [constructor|].
  inversion H as [|? ? Hx Hr]; subst.
  destruct Hin as [-> | Hin].
  - unfold is_binding. rewrite String.eqb_refl, Nat.eqb_refl. simpl.
    apply Forall_forall. intros y Hy E. apply Hx.
    apply in_map_iff. exists y. auto.
  - destruct (is_binding _ _ x) eqn:Ex.
    + apply is_binding_name in Ex. exfalso. apply Hx.
      apply in_map_iff. exists b. auto.
    + constructor; [|auto].
      intros E. apply Hx. apply in_map_iff. exists b. auto.
Qed.

Lemma listener_discipline_frame st st' :
  listener_fields st' = listener_fields st ->
  listener_discipline st -> listener_discipline st'.
Proof.
  unfold listener_fields, listener_discipline, tracked.
  intros E. injection E as E1 E2 E3. rewrite E1, E2, E3. auto.
Qed.

Lemma spent_frame name st st' :
  listener_fields st' = listener_fields st -> spent name st -> spent name st'.
Proof.
  unfold listener_fields, spent.
  intros E. injection E as E1 E2 E3. rewrite E1, E2. auto.
Qed.

Lemma log_call_listener_fields msg st :
  listener_fields (log_call msg st) = listener_fields st.
Proof. unfold log_call. destruct (log st); reflexivity. Qed.

Lemma process_exit_listener_fields code st :
  listener_fields (snd (process_exit code st)) = listener_fields st.
Proof. unfold process_exit. destruct (exit_returns (env st)); reflexivity. Qed.

Lemma clearTimeout_listener_fields t st :
  listener_fields (clearTimeout t st) = listener_fields st.
Proof. destruct t; reflexivity. Qed.

Lemma registerExitListeners_unfold st :
  _registerExitListeners st
  = match listening_to_exit st with
    | Some true => st
    | _ => set_listening_to_exit (Some true) (fold_left bind_fresh exit_listeners st)
    end.
Proof.
  unfold _registerExitListeners. destruct (listening_to_exit st) as [[|]|]; reflexivity.
Qed.

Lemma bind_fresh_spec st p :
  let b := {| bound_event := fst p;
              bound_handler := {| fn_id := next_id (env st); fn_body := snd p |} |} in
  process_listeners (env (bind_fresh st p)) = process_listeners (env st) ++ [b]
  /\ listening_to_exit (bind_fresh st p) = listening_to_exit st
  /\ (forall x, tracked st x -> tracked (bind_fresh st p) x)
  /\ tracked (bind_fresh st p) b.
Proof.
  intros b. unfold bind_fresh, new_closure, _addExitHandler. simpl.
  repeat split.
  - intros x (o & hs & Eo & Eg & Hin). unfold tracked. simpl. rewrite Eo.
    destruct (String.eqb (bound_event x) (fst p)) eqn:E.
    + apply String.eqb_eq in E. rewrite <- E, Eg.
      eexists. exists (hs ++ [{| fn_id := next_id (env st); fn_body := snd p |}]).
      split; [reflexivity|]. rewrite obj_get_set_same.
      split; [reflexivity | apply in_or_app; auto].
    + apply String.eqb_neq in E. eexists. exists hs. split; [reflexivity|].
      rewrite obj_get_set_other by exact E. auto.
  - unfold tracked. simpl. eexists. eexists. split; [reflexivity|].
    rewrite obj_get_set_same. split; [reflexivity|].
    apply in_or_app. right. left. reflexivity.
Qed.

Lemma bind_all_spec ps st :
  let st' := fold_left bind_fresh ps st in
  map bound_event (process_listeners (env st'))
  = map bound_event (process_listeners (env st)) ++ map fst ps
  /\ listening_to_exit st' = listening_to_exit st
  /\ (forall x, tracked st x -> tracked st' x)
  /\ (Forall (disciplined st) (process_listeners (env st)) ->
      Forall well_paired ps ->
      Forall (disciplined st') (process_listeners (env st'))).
Proof.
  revert st. induction ps as [|p ps IH]; intros st st'; subst st'; simpl.
  - rewrite app_nil_r. auto.
  - destruct (bind_fresh_spec st p) as (E1 & E2 & E3 & E4).
    destruct (IH (bind_fresh st p)) as (I1 & I2 & I3 & I4).
    rewrite I1, I2, E1, E2, map_app, <- app_assoc. simpl.
    repeat split; auto.
    intros Hst Hps. inversion Hps as [|? ? Hp Hps']; subst.
    apply I4; [|exact Hps']. rewrite E1. apply Forall_app. split.
    + eapply Forall_impl; [|exact Hst]. intros x [Hx Hw]. split; auto.
    + constructor; [|constructor]. split; [exact E4 | exact Hp].
Qed.

Lemma exit_listeners_well_paired : Forall well_paired exit_listeners.
Proof.
  unfold exit_listeners, well_paired. simpl.
  repeat apply Forall_cons; try apply Forall_nil; simpl; intuition.
Qed.

Lemma exit_listeners_names_NoDup : NoDup (map fst exit_listeners).
Proof.
  simpl. repeat constructor; simpl; intuition discriminate.
Qed.

Lemma discipline_of_bound st :
  map bound_event (process_listeners (env st)) = map fst exit_listeners ->
  Forall (disciplined st) (process_listeners (env st)) ->
  listener_discipline (set_listening_to_exit (Some true) st).
Proof.
  intros I1 Hd. unfold listener_discipline.
  change (process_listeners (env (set_listening_to_exit (Some true) st)))
    with (process_listeners (env st)).
  split; [|split].
  - rewrite I1. apply exit_listeners_names_NoDup.
  - intros F. exfalso. apply F. reflexivity.
  - eapply Forall_impl; [|exact Hd].
    intros b [(o & hs & Eo & Eg & Hin) Hw]. split; [|exact Hw].
    exists o, hs. repeat split; assumption.
Qed.

Lemma bind_all_discipline st :
  process_listeners (env st) = [] ->
  listener_discipline
    (set_listening_to_exit (Some true) (fold_left bind_fresh exit_listeners st)).
Proof.
  intros Hn.
  pose proof (bind_all_spec exit_listeners st) as H. cbv zeta in H.
  destruct H as (I1 & _ & _ & I4).
  apply discipline_of_bound.
  - rewrite I1, Hn. reflexivity.
  - apply I4; [rewrite Hn; constructor | apply exit_listeners_well_paired].
Qed.

Lemma registerExitListeners_discipline st :
  listener_discipline st -> listener_discipline (_registerExitListeners st).
Proof.
  intros Hd. rewrite registerExitListeners_unfold.
  destruct Hd as (H1 & H2 & H3).
  destruct (listening_to_exit st) as [[|]|] eqn:El.
  - unfold listener_discipline. rewrite El. repeat split; assumption.
  - apply bind_all_discipline. apply H2. discriminate.
  - apply bind_all_discipline. apply H2. discriminate.
Qed.

Lemma registerExitListeners_spent name st :
  spent name st -> _registerExitListeners st = st.
Proof.
  intros [H _]. unfold _registerExitListeners. rewrite H. reflexivity.
Qed.

Lemma addTidyExitHandler_listener_fields h d t st :
  listener_fields (addTidyExitHandler h d t st)
  = listener_fields (_registerExitListeners st).
Proof. unfold addTidyExitHandler. destruct (js_gt _ _); reflexivity. Qed.

Lemma addTidyExitHandler_discipline h d t st :
  listener_discipline st -> listener_discipline (addTidyExitHandler h d t st).
Proof.
  intros H. eapply listener_discipline_frame.
  - apply addTidyExitHandler_listener_fields.
  - apply registerExitListeners_discipline, H.
Qed.

Lemma addTidyExitHandler_spent name h d t st :
  spent name st -> spent name (addTidyExitHandler h d t st).
Proof.
  intros H. eapply spent_frame; [apply addTidyExitHandler_listener_fields|].
  rewrite (registerExitListeners_spent name st H). exact H.
Qed.

Lemma unbind_discipline name h st :
  listener_discipline st ->
  listener_discipline
    (in_world (fun w => set_process_listeners
                 (remove_first_binding name h (process_listeners w)) w) st).
Proof.
  intros (H1 & H2 & H3). unfold listener_discipline. simpl. split; [|split].
  - apply remove_first_binding_NoDup, H1.
  - intros Hl. rewrite (H2 Hl). reflexivity.
  - apply Forall_forall. intros b Hb.
    apply remove_first_binding_incl in Hb.
    rewrite Forall_forall in H3. destruct (H3 b Hb) as [(o & hs & Ht) Hw].
    split; [exists o, hs; exact Ht | exact Hw].
Qed.

Lemma unbind_spent name name' h st :
  spent name st ->
  spent name
    (in_world (fun w => set_process_listeners
                 (remove_first_binding name' h (process_listeners w)) w) st).
Proof.
  intros [H1 H2]. split; [exact H1|]. simpl.
  apply Forall_forall. intros b Hb. apply remove_first_binding_incl in Hb.
  rewrite Forall_forall in H2. auto.
Qed.

Lemma listener_discipline_handler_steps : handler_steps listener_discipline.
Proof.
  constructor; intros;
    try (eapply listener_discipline_frame; [|eassumption]; reflexivity).
  constructor; intros;
    try (eapply listener_discipline_frame; [|eassumption]; reflexivity).
  - eapply listener_discipline_frame; [apply log_call_listener_fields | assumption].
  - eapply listener_discipline_frame; [apply process_exit_listener_fields | assumption].
Qed.

Lemma listener_discipline_trigger_steps : trigger_steps listener_discipline.
Proof.
  constructor; intros;
    try (eapply listener_discipline_frame; [|eassumption]; reflexivity).
  - apply listener_discipline_handler_steps.
  - unfold _registerDefaultTimeoutHandler.
    eapply listener_discipline_frame;
      [|apply (addTidyExitHandler_discipline default_exit_handler
                 (VStr "default timeout handler") JUndefined st); assumption].
    reflexivity.
  - apply unbind_discipline. assumption.
Qed.

Lemma spent_handler_steps name : handler_steps (spent name).
Proof.
  constructor; intros;
    try (eapply spent_frame; [|eassumption]; reflexivity).
  constructor; intros;
    try (eapply spent_frame; [|eassumption]; reflexivity).
  - eapply spent_frame; [apply log_call_listener_fields | assumption].
  - eapply spent_frame; [apply process_exit_listener_fields | assumption].
Qed.

Lemma spent_trigger_steps name : trigger_steps (spent name).
Proof.
  constructor; intros;
    try (eapply spent_frame; [|eassumption]; reflexivity).
  - apply spent_handler_steps.
  - unfold _registerDefaultTimeoutHandler.
    eapply spent_frame;
      [|apply (addTidyExitHandler_spent name default_exit_handler
                 (VStr "default timeout handler") JUndefined st); assumption].
    reflexivity.
  - apply unbind_spent. assumption.
Qed.

(** *** Unbinding on reset *)

Lemma remove_last_binding_absent signal h l :
  existsb (is_binding signal h) l = false -> remove_last_binding signal h l = l.
Proof.
  induction l as [|b r IH]; simpl; [reflexivity|].
  intros H. apply orb_false_elim in H. destruct H as [Hb Hr].
  rewrite Hr, Hb. reflexivity.
Qed.

Lemma remove_tracked_listener_fields signal st h :
  process_listeners (env (remove_tracked signal st h))
  = remove_last_binding signal h (process_listeners (env st))
  /\ listening_to_exit (remove_tracked signal st h) = listening_to_exit st
  /\ exit_signal_handlers (remove_tracked signal st h) = exit_signal_handlers st.
Proof.
  unfold remove_tracked.
  destruct (existsb _ _) eqn:E; [repeat split; reflexivity|].
  rewrite (remove_last_binding_absent _ _ _ E).
  destruct (remove_absent_throws _ _); [|repeat split; reflexivity].
  assert (F := log_call_listener_fields
                 ("Error while removing handler on process." +s signal) st).
  unfold listener_fields in F. injection F as F1 F2 F3. auto.
Qed.

Lemma remove_all_tracked signal hs st :
  NoDup (map bound_event (process_listeners (env st))) ->
  let st' := fold_left (remove_tracked signal) hs st in
  incl (process_listeners (env st')) (process_listeners (env st))
  /\ NoDup (map bound_event (process_listeners (env st')))
  /\ (forall b h, In b (process_listeners (env st')) -> In h hs ->
                  is_binding signal h b = false)
  /\ listening_to_exit st' = listening_to_exit st
  /\ exit_signal_handlers st' = exit_signal_handlers st.
Proof.
  revert st. induction hs as [|h hs IH]; intros st Hnd st'; subst st'; simpl.
  - repeat split; auto using incl_refl. intros b h _ [].
  - destruct (remove_tracked_listener_fields signal st h) as (E1 & E2 & E3).
    rewrite (remove_last_binding_filter _ _ _ Hnd) in E1.
    assert (Hnd1 : NoDup (map bound_event
                            (process_listeners (env (remove_tracked signal st h))))).
    { rewrite E1. apply NoDup_map_filter, Hnd. }
    destruct (IH _ Hnd1) as (I1 & I2 & I3 & I4 & I5).
    split; [|split; [|split; [|split]]].
    + intros b Hb. apply I1 in Hb. rewrite E1 in Hb.
      apply filter_In in Hb. tauto.
    + exact I2.
    + intros b h' Hb [<- | Hh]; [|eauto].
      apply I1 in Hb. rewrite E1 in Hb. apply filter_In in Hb.
      destruct Hb as [_ Hb]. destruct (is_binding signal h b); [discriminate | reflexivity].
    + congruence.
    + congruence.
Qed.

Lemma cleanup_signal_tracking st signal :
  tracking st ->
  let st' := cleanup_signal st signal in
  incl (process_listeners (env st')) (process_listeners (env st))
  /\ tracking st'
  /\ nulled signal st'
  /\ (forall k, nulled k st -> nulled k st')
  /\ listening_to_exit st' = listening_to_exit st.
Proof.
  intros [Hnd Htr] st'.
  set (o := match exit_signal_handlers st with Some o => o | None => [] end).
  set (st1 := match obj_get signal o with
              | Some (Some signalHandlers) =>
                  fold_left (remove_tracked signal) signalHandlers st
              | _ => st
              end).
  assert (Est' : st' = set_exit_signal_handlers (Some (obj_set signal None o)) st1)
    by reflexivity.
  assert (H1 : incl (process_listeners (env st1)) (process_listeners (env st))
               /\ NoDup (map bound_event (process_listeners (env st1)))
               /\ (forall b hs, obj_get signal o = Some (Some hs) ->
                                In b (process_listeners (env st1)) ->
                                In (bound_handler b) hs -> bound_event b <> signal)
               /\ listening_to_exit st1 = listening_to_exit st).
  { subst st1. destruct (obj_get signal o) as [[hs|]|] eqn:Eg;
      try (repeat split; auto using incl_refl; intros; discriminate).
    destruct (remove_all_tracked signal hs st Hnd) as (I1 & I2 & I3 & I4 & I5).
    repeat split; auto.
    intros b hs' Ehs Hb Hh E. injection Ehs as <-.
    specialize (I3 b (bound_handler b) Hb Hh).
    unfold is_binding in I3. rewrite E, String.eqb_refl, Nat.eqb_refl in I3.
    discriminate. }
  destruct H1 as (I1 & I2 & I3 & I4).
  rewrite Est'. simpl. repeat split; auto.
  - apply Forall_forall. intros b Hb.
    rewrite Forall_forall in Htr. destruct (Htr b (I1 b Hb)) as (o0 & hs & Eo & Eg & Hin).
    assert (o0 = o) by (subst o; rewrite Eo; reflexivity). subst o0.
    assert (Hne : bound_event b <> signal).
    { intros E. rewrite E in Eg. exact (I3 b hs Eg Hb Hin E). }
    exists (obj_set signal None o), hs. simpl.
    rewrite obj_get_set_other by exact Hne. auto.
  - intros o' hs Eo. simpl in Eo. injection Eo as <-.
    rewrite obj_get_set_same. discriminate.
  - intros k Hk o' hs Eo. simpl in Eo. injection Eo as <-.
    destruct (String.eqb k signal) eqn:E.
    + apply String.eqb_eq in E. subst k. rewrite obj_get_set_same. discriminate.
    + apply String.eqb_neq in E. rewrite obj_get_set_other by exact E.
      assert (Es : exit_signal_handlers st1 = exit_signal_handlers st).
      { subst st1. destruct (obj_get signal o) as [[hs'|]|]; try reflexivity.
        apply (remove_all_tracked signal hs' st Hnd). }
      subst o. destruct (exit_signal_handlers st) as [o|] eqn:Eo.
      * apply (Hk o hs Eo).
      * simpl. discriminate.
Qed.

Lemma cleanup_signals_tracking ks st :
  tracking st ->
  let st' := fold_left cleanup_signal ks st in
  incl (process_listeners (env st')) (process_listeners (env st))
  /\ tracking st'
  /\ (forall k, In k ks -> nulled k st')
  /\ (forall k, nulled k st -> nulled k st')
  /\ listening_to_exit st' = listening_to_exit st.
Proof.
  revert st. induction ks as [|k ks IH]; intros st Ht st'; subst st'; simpl.
  - repeat split; auto using incl_refl; try apply Ht. intros k [].
  - destruct (cleanup_signal_tracking st k Ht) as (C1 & C2 & C3 & C4 & C5).
    destruct (IH _ C2) as (I1 & I2 & I3 & I4 & I5).
    repeat split; try apply I2; try congruence.
    + intros b Hb. auto.
    + intros k' [<- | Hk]; auto.
    + auto.
Qed.

(** Under the discipline, [_cleanupExitListeners] leaves no listener bound. *)
Lemma cleanupExitListeners_unbinds st :
  tracking st -> process_listeners (env (_cleanupExitListeners st)) = [].
Proof.
  intros Ht. unfold _cleanupExitListeners.
  destruct (exit_signal_handlers st) as [o|] eqn:Eo.
  - simpl. destruct (cleanup_signals_tracking (map fst o) st Ht)
      as (I1 & [_ I2] & I3 & _ & _).
    destruct (process_listeners (env (fold_left cleanup_signal (map fst o) st)))
      as [|b r] eqn:El; [reflexivity | exfalso].
    inversion I2 as [|? ? (o' & hs' & Eo' & Eg' & _) _]; subst.
    assert (Hb : In b (process_listeners (env st))) by (apply I1; left; reflexivity).
    destruct Ht as [_ Htr]. rewrite Forall_forall in Htr.
    destruct (Htr b Hb) as (o0 & hs & Eo0 & Eg & _).
    rewrite Eo in Eo0. injection Eo0 as <-.
    apply obj_get_key in Eg.
    exact (I3 _ Eg o' hs' Eo' Eg').
  - destruct Ht as [_ Htr].
    destruct (process_listeners (env st)) as [|b r]; [reflexivity | exfalso].
    inversion Htr as [|? ? (o' & hs' & Eo' & _) _]; subst. congruence.
Qed.

Lemma listener_discipline_tracking st : listener_discipline st -> tracking st.
Proof.
  intros (H1 & _ & H3). split; [exact H1|].
  eapply Forall_impl; [|exact H3]. intros b [Hb _]. exact Hb.
Qed.

(** After a reset nothing is bound on [process] any more. *)
Lemma init_unbinds st :
  listener_discipline st ->
  process_listeners (env (_init st)) = [] /\ listener_discipline (_init st).
Proof.
  intros Hd.
  set (st0 := set_log default_logger
                (set_tidy_exit_event {| on_tidyExit := []; on_done := 0 |}
                   (set_registered_handlers_count 0
                      (set_handler_callback_registry [] st)))).
  assert (H0 : tracking st0).
  { apply listener_discipline_tracking.
    eapply listener_discipline_frame; [|exact Hd]. reflexivity. }
  assert (E := cleanupExitListeners_unbinds st0 H0).
  assert (El : process_listeners (env (_init st)) = []).
  { unfold _init. fold st0. simpl.
    match goal with |- context [clearTimeout ?t ?s] => destruct t end; simpl; exact E. }
  split; [exact El|].
  unfold listener_discipline. rewrite El. simpl.
  repeat split; auto; constructor.
Qed.

(* ------------------------------------------------------------------------ *)
(** ** Invariants of the reachable states *)
(* ------------------------------------------------------------------------ *)

Lemma callback_steps_and P Q :
  callback_steps P -> callback_steps Q -> callback_steps (fun st => P st /\ Q st).
Proof.
  intros HP HQ. constructor; intros; match goal with H : _ /\ _ |- _ => destruct H end;
    split; first [apply HP | apply HQ]; assumption.
Qed.

Lemma handler_steps_and P Q :
  handler_steps P -> handler_steps Q -> handler_steps (fun st => P st /\ Q st).
Proof.
  intros HP HQ. constructor;
    [apply callback_steps_and; [apply HP | apply HQ] | ..];
    intros; match goal with H : _ /\ _ |- _ => destruct H end;
    split; first [apply HP | apply HQ]; assumption.
Qed.

Lemma trigger_steps_and P Q :
  trigger_steps P -> trigger_steps Q -> trigger_steps (fun st => P st /\ Q st).
Proof.
  intros HP HQ. constructor;
    [apply handler_steps_and; [apply HP | apply HQ] | ..];
    intros; match goal with H : _ /\ _ |- _ => destruct H end;
    split; first [apply HP | apply HQ]; assumption.
Qed.

Lemma api_steps_and P Q :
  api_steps P -> api_steps Q -> api_steps (fun st => P st /\ Q st).
Proof.
  intros HP HQ. constructor;
    intros; match goal with H : _ /\ _ |- _ => destruct H end;
    split; first [apply HP | apply HQ]; assumption.
Qed.

Lemma app_steps_alive app v st :
  alive (app_use_middleware app st) = alive st
  /\ alive (app_set_state app v st) = alive st.
Proof. split; reflexivity. Qed.

Lemma hookExpressApp_keeps P app :
  api_steps P -> keeps P (fun st => snd (hookExpressApp app st)).
Proof.
  intros HP st Ha H. unfold hookExpressApp.
  destruct (app_get_state app st); simpl; [auto|].
  split.
  - apply HP; [exact Ha|]. apply HP; [exact Ha|]. apply HP; assumption.
  - apply addTidyExitHandler_alive. exact Ha.
Qed.

Lemma hookHttpServer_keeps P server hook_apps :
  api_steps P -> keeps P (fun st => snd (hookHttpServer server hook_apps st)).
Proof.
  intros HP st Ha H. unfold hookHttpServer. simpl.
  assert (H1 : P (addTidyExitHandler (http_exit_handler (server_id server))
                    (VStr "httpServer") JUndefined st)
               /\ alive (addTidyExitHandler (http_exit_handler (server_id server))
                           (VStr "httpServer") JUndefined st)).
  { split; [apply HP; assumption | apply addTidyExitHandler_alive, Ha]. }
  destruct H1 as [H1 Ha1].
  assert (F : keeps P (fun s => fold_left _detectAndHookExpressApp
                                  (request_listeners server) s)).
  { apply keeps_fold_left. intros x s Hs Hp. unfold _detectAndHookExpressApp.
    destruct (forallb _ _); [|auto].
    apply (hookExpressApp_keeps P (listener_app x) HP); assumption. }
  destruct hook_apps as [| |[|]| | | |]; auto; apply F; assumption.
Qed.

(** A property kept by the elementary steps is kept by every event. *)
Lemma handle_event_preserves P ev :
  trigger_steps P -> api_steps P ->
  (is_reset ev = true -> forall st, alive st -> P st -> P (_init st)) ->
  preserves P (handle_event ev).
Proof.
  intros HT HA HR. destruct ev; simpl.
  - apply preserves_lift. intros st Ha H.
    split; [apply HA; assumption | apply addTidyExitHandler_alive, Ha].
  - apply preserves_lift. intros st Ha H. split; [apply HA; assumption | exact Ha].
  - apply preserves_lift. intros st Ha H. split; [apply HA; assumption | exact Ha].
  - apply preserves_lift. intros st Ha H. split; [apply HR; auto|].
    assert (E := init_outcome_fields st). unfold outcome_fields in E.
    unfold alive in *. congruence.
  - apply preserves_lift. apply hookExpressApp_keeps, HA.
  - apply preserves_lift. apply hookHttpServer_keeps, HA.
  - apply preserves_process_emit, HT.
  - apply preserves_fire_timer, HT.
  - apply preserves_emit_done, HT.
Qed.

Lemma step_preserves P ev st :
  trigger_steps P -> api_steps P ->
  (is_reset ev = true -> forall st, alive st -> P st -> P (_init st)) ->
  P st -> P (step st ev).
Proof.
  intros HT HA HR H. unfold step. destruct (halted (env st)) eqn:E; [exact H|].
  apply (handle_event_preserves P ev HT HA HR st E H).
Qed.

Lemma timer_discipline_api_steps : api_steps timer_discipline.
Proof.
  constructor; intros;
    try (eapply timer_discipline_frame; [|eassumption]; reflexivity).
  eapply timer_discipline_frame; [apply addTidyExitHandler_timer_fields | assumption].
Qed.

Lemma exit_discipline_api_steps : api_steps exit_discipline.
Proof.
  constructor; intros;
    try (eapply exit_discipline_frame; [|eassumption]; reflexivity).
  eapply exit_discipline_frame; [apply addTidyExitHandler_outcome_fields | assumption].
Qed.

Lemma listener_discipline_api_steps : api_steps listener_discipline.
Proof.
  constructor; intros;
    try (eapply listener_discipline_frame; [|eassumption]; reflexivity).
  apply addTidyExitHandler_discipline. assumption.
Qed.

Lemma spent_api_steps name : api_steps (spent name).
Proof.
  constructor; intros;
    try (eapply spent_frame; [|eassumption]; reflexivity).
  apply addTidyExitHandler_spent. assumption.
Qed.

Lemma coordinator_invariant_step ev st :
  coordinator_invariant st -> coordinator_invariant (step st ev).
Proof.
  apply (step_preserves
           (fun s => timer_discipline s /\ exit_discipline s /\ listener_discipline s)).
  - apply trigger_steps_and; [apply timer_discipline_trigger_steps|].
    apply trigger_steps_and;
      [apply exit_discipline_trigger_steps | apply listener_discipline_trigger_steps].
  - apply api_steps_and; [apply timer_discipline_api_steps|].
    apply api_steps_and;
      [apply exit_discipline_api_steps | apply listener_discipline_api_steps].
  - intros _ s Ha (H1 & H2 & H3). split; [|split].
    + apply init_timer_discipline, H1.
    + eapply exit_discipline_frame; [apply init_outcome_fields | exact H2].
    + apply init_unbinds, H3.
Qed.

Lemma coordinator_invariant_run evs st :
  coordinator_invariant st -> coordinator_invariant (run evs st).
Proof.
  revert st. induction evs as [|ev evs IH]; intros st H; simpl; [exact H|].
  apply IH, coordinator_invariant_step, H.
Qed.

Lemma coordinator_invariant_loaded stub throws :
  coordinator_invariant (loaded (boot stub throws)).
Proof.
  split; [|split].
  - exact I.
  - intros _. reflexivity.
  - split; [constructor | split; [reflexivity | constructor]].
Qed.

(** Every state the process reaches satisfies the invariant. *)
Lemma reached_invariant stub throws evs :
  coordinator_invariant (reached stub throws evs).
Proof. apply coordinator_invariant_run, coordinator_invariant_loaded. Qed.

(* ------------------------------------------------------------------------ *)
(** ** Reset *)
(* ------------------------------------------------------------------------ *)

Lemma state_eq (s t : state) :
  tracker_fields s = tracker_fields t ->
  exit_signal_handlers s = exit_signal_handlers t ->
  listening_to_exit s = listening_to_exit t ->
  env s = env t ->
  s = t.
Proof.
  destruct s, t. unfold tracker_fields. simpl. intros E. injection E. intros.
  subst. reflexivity.
Qed.

Lemma fold_left_fixed {A} (f : state -> A -> state) l st :
  (forall x, In x l -> f st x = st) -> fold_left f l st = st.
Proof.
  induction l as [|x r IH]; simpl; intros H; [reflexivity|].
  rewrite (H x) by auto. apply IH. auto.
Qed.

Lemma obj_set_same_value {V} k (v : V) o : obj_get k o = Some v -> obj_set k v o = o.
Proof.
  induction o as [|[k' w] r IH]; simpl; [discriminate|].
  destruct (String.eqb k' k) eqn:E.
  - intros H. injection H as ->. reflexivity.
  - intros H. f_equal. auto.
Qed.

Lemma obj_set_keys {V} k (v : V) o :
  In k (map fst o) -> map fst (obj_set k v o) = map fst o.
Proof.
  induction o as [|[k' w] r IH]; simpl; [intros []|].
  destruct (String.eqb k' k) eqn:E; [reflexivity|].
  intros [H | H].
  - subst k'. rewrite String.eqb_refl in E. discriminate.
  - simpl. f_equal. auto.
Qed.

Lemma remove_tracked_tracker_fields signal st h :
  tracker_fields (remove_tracked signal st h) = tracker_fields st.
Proof.
  unfold remove_tracked. destruct (existsb _ _); [reflexivity|].
  destruct (remove_absent_throws _ _); [|reflexivity].
  unfold log_call. destruct (log st); reflexivity.
Qed.

Lemma remove_tracked_signal_handlers signal st h :
  exit_signal_handlers (remove_tracked signal st h) = exit_signal_handlers st.
Proof. apply remove_tracked_listener_fields. Qed.

Lemma cleanup_signal_fields st signal :
  tracker_fields (cleanup_signal st signal) = tracker_fields st
  /\ listening_to_exit (cleanup_signal st signal) = listening_to_exit st
  /\ exit_signal_handlers (cleanup_signal st signal)
     = Some (obj_set signal None (signal_handlers st)).
Proof.
  unfold cleanup_signal. fold (signal_handlers st).
  destruct (obj_get signal (signal_handlers st)) as [[hs|]|]; simpl; auto.
  split; [|split; [|reflexivity]].
  - apply (fold_left_frame (remove_tracked signal) tracker_fields).
    intros. apply remove_tracked_tracker_fields.
  - apply (fold_left_frame (remove_tracked signal) listening_to_exit).
    intros. apply remove_tracked_listener_fields.
Qed.

(** An entry that is already [null] is left as it is. *)
Lemma cleanup_signal_null st signal o :
  exit_signal_handlers st = Some o ->
  obj_get signal o = Some None ->
  cleanup_signal st signal = st.
Proof.
  intros Eo Eg. unfold cleanup_signal. rewrite Eo, Eg.
  rewrite (obj_set_same_value _ _ _ Eg).
  apply state_eq; auto.
Qed.

Lemma cleanup_signals_null ks st :
  (forall k, In k ks -> In k (map fst (signal_handlers st))) ->
  let st' := fold_left cleanup_signal ks st in
  tracker_fields st' = tracker_fields st
  /\ listening_to_exit st' = listening_to_exit st
  /\ map fst (signal_handlers st') = map fst (signal_handlers st)
  /\ (forall k, In k ks -> obj_get k (signal_handlers st') = Some None)
  /\ (forall k, obj_get k (signal_handlers st) = Some None ->
                obj_get k (signal_handlers st') = Some None)
  /\ (ks <> [] -> exit_signal_handlers st' = Some (signal_handlers st')).
Proof.
  revert st. induction ks as [|k ks IH]; intros st Hk st'; subst st'; simpl.
  - split; [|split; [|split; [|split; [|split]]]]; auto.
    + intros k [].
    + intros F. exfalso. apply F. reflexivity.
  - destruct (cleanup_signal_fields st k) as (C1 & C2 & C3).
    assert (Cs : signal_handlers (cleanup_signal st k)
                 = obj_set k None (signal_handlers st)).
    { unfold signal_handlers at 1. rewrite C3. reflexivity. }
    assert (Ck : map fst (signal_handlers (cleanup_signal st k))
                 = map fst (signal_handlers st)).
    { rewrite Cs. apply obj_set_keys. apply Hk. left. reflexivity. }
    destruct (IH (cleanup_signal st k)) as (I1 & I2 & I3 & I4 & I5 & I6).
    { intros k' Hk'. rewrite Ck. apply Hk. right. exact Hk'. }
    assert (Hnull : forall k', obj_get k' (signal_handlers st) = Some None \/ k' = k ->
                               obj_get k' (signal_handlers (cleanup_signal st k))
                               = Some None).
    { intros k' Hk'. rewrite Cs. destruct (String.eqb k' k) eqn:E.
      - apply String.eqb_eq in E. subst k'. apply obj_get_set_same.
      - apply String.eqb_neq in E. rewrite obj_get_set_other by exact E.
        destruct Hk' as [Hk' | Hk']; [exact Hk' | contradiction]. }
    split; [|split; [|split; [|split; [|split]]]]; try congruence.
    + intros k' [<- | Hk']; auto.
    + intros k' Hk'. auto.
    + intros _. destruct ks as [|k2 ks2]; [|apply I6; discriminate].
      cbn [fold_left]. rewrite Cs. exact C3.
Qed.

(** What [_cleanupExitListeners] leaves in the variables it writes. *)
Lemma cleanupExitListeners_nulls st :
  tracker_fields (_cleanupExitListeners st) = tracker_fields st
  /\ match exit_signal_handlers st with
     | None => _cleanupExitListeners st = st
     | Some o =>
         listening_to_exit (_cleanupExitListeners st) = Some false
         /\ exists o',
             exit_signal_handlers (_cleanupExitListeners st) = Some o'
             /\ forall k, In k (map fst o') -> obj_get k o' = Some None
     end.
Proof.
  unfold _cleanupExitListeners. destruct (exit_signal_handlers st) as [o|] eqn:Eo; [|auto].
  destruct (cleanup_signals_null (map fst o) st) as (I1 & I2 & I3 & I4 & I5 & I6).
  { unfold signal_handlers. rewrite Eo. auto. }
  split; [exact I1|]. split; [reflexivity|]. simpl.
  destruct o as [|p o].
  - simpl. exists []. split; [exact Eo | intros k []].
  - exists (signal_handlers (fold_left cleanup_signal (map fst (p :: o)) st)).
    split; [apply I6; discriminate|].
    intros k Hk. apply I4. rewrite I3 in Hk.
    unfold signal_handlers in Hk. rewrite Eo in Hk. exact Hk.
Qed.

(** On a state it has already cleaned, [_cleanupExitListeners] does nothing. *)
Lemma cleanupExitListeners_again st :
  match exit_signal_handlers st with
  | None => True
  | Some o => listening_to_exit st = Some false
              /\ forall k, In k (map fst o) -> obj_get k o = Some None
  end ->
  _cleanupExitListeners st = st.
Proof.
  unfold _cleanupExitListeners. destruct (exit_signal_handlers st) as [o|] eqn:Eo; [|auto].
  intros [Hl Hn].
  assert (F : forall ks, incl ks (map fst o) -> fold_left cleanup_signal ks st = st).
  { intros ks Hks. apply fold_left_fixed. intros k Hk.
    apply (cleanup_signal_null st k o Eo). apply Hn, Hks, Hk. }
  rewrite F by apply incl_refl.
  apply state_eq; auto.
Qed.

Lemma init_fields st :
  pristine (_init st)
  /\ exit_signal_handlers (_init st)
     = exit_signal_handlers
         (_cleanupExitListeners
            (set_log default_logger
               (set_tidy_exit_event {| on_tidyExit := []; on_done := 0 |}
                  (set_registered_handlers_count 0
                     (set_handler_callback_registry [] st)))))
  /\ listening_to_exit (_init st)
     = listening_to_exit
         (_cleanupExitListeners
            (set_log default_logger
               (set_tidy_exit_event {| on_tidyExit := []; on_done := 0 |}
                  (set_registered_handlers_count 0
                     (set_handler_callback_registry [] st))))).
Proof.
  set (st0 := set_log default_logger _).
  destruct (cleanupExitListeners_nulls st0) as [T _].
  unfold tracker_fields in T. simpl in T. injection T as T1 T2 T3 T4 T5 T6 T7.
  unfold pristine, tracker_fields, _init. fold st0. simpl.
  match goal with |- context [clearTimeout ?t ?s] => destruct t end; simpl;
    rewrite T1, T2, T3, T4; auto.
Qed.

(** A pristine state is a fixed point of everything in [_init] but the
    unbinding. *)
Lemma init_of_pristine st :
  pristine st -> _init st = _cleanupExitListeners st.
Proof.
  intros Hp. unfold pristine, tracker_fields in Hp.
  injection Hp as P1 P2 P3 P4 P5 P6 P7.
  assert (E0 : set_log default_logger
                 (set_tidy_exit_event {| on_tidyExit := []; on_done := 0 |}
                    (set_registered_handlers_count 0
                       (set_handler_callback_registry [] st))) = st).
  { apply state_eq; auto. unfold tracker_fields. simpl. congruence. }
  unfold _init. rewrite E0.
  destruct (cleanupExitListeners_nulls st) as [T _].
  unfold tracker_fields in T. injection T as T1 T2 T3 T4 T5 T6 T7.
  simpl. rewrite T7, P7. simpl.
  apply state_eq; auto. unfold tracker_fields. simpl. congruence.
Qed.

Lemma init_idempotent st : _init (_init st) = _init st.
Proof.
  destruct (init_fields st) as (Hp & He & Hl).
  rewrite (init_of_pristine _ Hp).
  apply cleanupExitListeners_again.
  set (st0 := set_log default_logger _) in *.
  destruct (cleanupExitListeners_nulls st0) as [_ Hc].
  rewrite He, Hl.
  destruct (exit_signal_handlers st0) as [o|] eqn:Eo.
  - destruct Hc as (Hc1 & o' & Hc2 & Hc3). rewrite Hc2. auto.
  - rewrite Hc, Eo. exact I.
Qed.

Lemma pristine_fields st :
  pristine st ->
  handler_callback_registry st = []
  /\ max_timeout st = JNum 0
  /\ max_handler_timeout st = JNum 0
  /\ default_exit_timer st = None.
Proof.
  unfold pristine, tracker_fields. intros Hp.
  injection Hp as P1 P2 P3 P4 P5 P6 P7. auto.
Qed.

(** C8. Running the reset twice gives the state one run gives; after a
    reset the completion registry is empty, the timer handle is null and the
    timer it named is not pending, [getTimeout()] is 120000, and in every
    state the process can reach no listener is left bound on [process] and
    no timer is left pending. *)
Theorem reset_is_idempotent_and_clean :
  (forall st, _init (_init st) = _init st)
  /\ (forall st,
        handler_callback_registry (_init st) = []
        /\ default_exit_timer (_init st) = None
        /\ (forall t delay, default_exit_timer st = Some t ->
                            ~ In (t, delay) (timers (env (_init st))))
        /\ getTimeout (_init st) = JNum 120000)
  /\ (forall stub throws evs,
        process_listeners (env (_init (reached stub throws evs))) = []
        /\ timers (env (_init (reached stub throws evs))) = []).
Proof.
  split; [exact init_idempotent|]. split.
  - intros st. destruct (init_fields st) as (Hp & _ & _).
    destruct (pristine_fields _ Hp) as (P4 & P5 & P6 & P7).
    destruct (init_timer st) as (T1 & T2 & _).
    split; [exact P4|]. split; [exact P7|]. split; [exact T2|].
    unfold getTimeout. rewrite P5, P6. reflexivity.
  - intros stub throws evs.
    destruct (reached_invariant stub throws evs) as (H1 & _ & H3).
    split; [exact (proj1 (init_unbinds _ H3)) | exact (proj2 (proj2 (init_timer _)) H1)].
Qed.

Lemma reset_is_idempotent_and_clean_witness :
  let st := reached false (fun _ => false)
              [call_addTidyExitHandler 0 (VStr "slow") (JNum 500);
               process_event "SIGTERM" VUndefined] in
  default_exit_timer st = Some 4%nat
  /\ In (4%nat, JNum 500) (timers (env st))
  /\ ~ In (4%nat, JNum 500) (timers (env (_init st))).
Proof.
  split; [vm_compute; reflexivity|]. split; [vm_compute; left; reflexivity|].
  apply (proj1 (proj2 (proj2 (proj1 (proj2 reset_is_idempotent_and_clean)
                                (reached false (fun _ => false)
                                   [call_addTidyExitHandler 0 (VStr "slow") (JNum 500);
                                    process_event "SIGTERM" VUndefined]))))).
  vm_compute. reflexivity.
Defined.

(* ------------------------------------------------------------------------ *)
(** ** The forced exit *)
(* ------------------------------------------------------------------------ *)

Lemma clearTimeout_drained t st :
  isFullyDrained (clearTimeout t st) = isFullyDrained st
  /\ exit_calls (env (clearTimeout t st)) = exit_calls (env st)
  /\ log (clearTimeout t st) = log st.
Proof. destruct t; auto. Qed.

Lemma suicide_timeout_not_drained st :
  isFullyDrained st = false ->
  exit_calls (env (snd (suicide_timeout st))) = exit_calls (env st) ++ [1].
Proof.
  intros D. unfold suicide_timeout, bind.
  rewrite checkHandlersDone_decomposed.
  change (mark_done JUndefined st) with st.
  rewrite (exit_if_drained_false _ D). simpl.
  destruct (process_exit_module_variables 1
              (log_call "Timed out waiting for graceful exit. Quitting hard now" st))
    as (_ & _ & _ & _ & E & _).
  rewrite E. f_equal.
  unfold log_call. destruct (log st); reflexivity.
Qed.

(** C5. The safety-net task arms one timer for [getTimeout()] when no
    handle is kept, none when one is, and calls [done] in both cases; when
    the timer fires on a registry that is not drained, [process.exit(1)] is
    called; no reachable state has more than one timer pending. *)
Theorem safety_net_arms_one_timer :
  (forall done st,
      default_exit_timer st = None ->
      _defaultExitHandler done st = done (arm_timer st)
      /\ timers (env (arm_timer st))
         = timers (env st) ++ [(next_id (env st), getTimeout st)]
      /\ default_exit_timer (arm_timer st) = Some (next_id (env st)))
  /\ (forall done st t,
        default_exit_timer st = Some t -> _defaultExitHandler done st = done st)
  /\ (forall st handle,
        existsb (fun p => Nat.eqb (fst p) handle) (timers (env st)) = true ->
        isFullyDrained st = false ->
        exit_calls (env (snd (fire_timer handle st))) = exit_calls (env st) ++ [1])
  /\ (forall stub throws evs,
        (List.length (timers (env (reached stub throws evs))) <= 1)%nat).
Proof.
  split; [|split; [|split]].
  - intros done st E. unfold _defaultExitHandler. rewrite E.
    repeat split; reflexivity.
  - intros done st t E. unfold _defaultExitHandler. rewrite E. reflexivity.
  - intros st handle Hp D. unfold fire_timer. rewrite Hp.
    destruct (clearTimeout_drained (Some handle) st) as (C1 & C2 & _).
    rewrite suicide_timeout_not_drained by (rewrite C1; exact D).
    rewrite C2. reflexivity.
  - intros stub throws evs.
    destruct (reached_invariant stub throws evs) as (H1 & _ & _).
    unfold timer_discipline in H1.
    destruct (timers (env (reached stub throws evs))) as [|p [|q r]]; simpl;
      [lia | lia | contradiction].
Qed.

Lemma safety_net_arms_one_timer_witness :
  let st := reached false (fun _ => false)
              [call_addTidyExitHandler 0 (VStr "slow") (JNum 500);
               process_event "SIGTERM" VUndefined] in
  isFullyDrained st = false
  /\ exit_calls (env (snd (fire_timer 4 st))) = exit_calls (env st) ++ [1].
Proof.
  split; [reflexivity|].
  apply (proj1 (proj2 (proj2 safety_net_arms_one_timer))); reflexivity.
Defined.

(* ------------------------------------------------------------------------ *)
(** ** Triggers and broadcasts *)
(* ------------------------------------------------------------------------ *)

Lemma snd_then_ret (m : M unit) st : snd ((m ;;; ret tt) st) = snd (m st).
Proof. unfold bind. destruct (m st) as [[[]|] st']; reflexivity. Qed.




Lemma outcome_fields_alive st st' :
  outcome_fields st' = outcome_fields st -> alive st -> alive st'.
Proof. unfold outcome_fields, alive. intros E. injection E. congruence. Qed.


Lemma emittidyExitEvent_unfold signal st :
  _emittidyExitEvent signal st
  = emit_tidy_exit signal
      (set_registered_handlers_count
         (Z.of_nat (List.length
                      (on_tidyExit (tidy_exit_event (_registerDefaultTimeoutHandler st)))))
         (_registerDefaultTimeoutHandler st)).
Proof. reflexivity. Qed.

Lemma registerDefaultTimeoutHandler_outcome_fields st :
  outcome_fields (_registerDefaultTimeoutHandler st) = outcome_fields st.
Proof.
  unfold _registerDefaultTimeoutHandler.
  transitivity (outcome_fields
                  (addTidyExitHandler default_exit_handler
                     (VStr "default timeout handler") JUndefined st));
    [reflexivity | apply addTidyExitHandler_outcome_fields].
Qed.


Lemma filter_name_unique name l :
  NoDup (map bound_event l) ->
  filter (fun b => String.eqb (bound_event b) name) l = []
  \/ exists b, filter (fun b => String.eqb (bound_event b) name) l = [b]
               /\ In b l /\ bound_event b = name.
Proof.
  induction l as [|x r IH]; simpl; intros H; [left; reflexivity|].
  inversion H as [|? ? Hx Hr]; subst.
  destruct (String.eqb (bound_event x) name) eqn:E.
  - right. exists x. apply String.eqb_eq in E. repeat split; auto.
    f_equal. destruct (IH Hr) as [F | (b & F & Hb & Eb)]; [exact F|].
    exfalso. apply Hx. apply in_map_iff. exists b. split; [congruence | exact Hb].
  - destruct (IH Hr) as [F | (b & F & Hb & Eb)]; [left; exact F|].
    right. exists b. auto.
Qed.

(** What a delivery on [process] amounts to when at most one listener waits
    for each event. *)
Lemma process_emit_cases name payload st :
  listener_discipline st ->
  (snd (process_emit name payload st) = st
   /\ filter (fun b => String.eqb (bound_event b) name) (process_listeners (env st)) = [])
  \/ exists b,
       In b (process_listeners (env st)) /\ bound_event b = name
       /\ well_bound b
       /\ snd (process_emit name payload st)
          = snd (run_proc_handler (bound_handler b) payload
                   (in_world (fun w => set_process_listeners
                                (remove_first_binding name (bound_handler b)
                                   (process_listeners w)) w) st)).
Proof.
  intros (H1 & _ & H3). unfold process_emit.
  destruct (filter_name_unique name _ H1) as [F | (b & F & Hb & Eb)]; rewrite F.
  - left. auto.
  - right. exists b. rewrite Forall_forall in H3.
    repeat split; auto; [apply H3, Hb|].
    simpl. rewrite snd_then_ret. reflexivity.
Qed.





(** *** One-shot listeners *)

Lemma spent_no_listener name st :
  spent name st ->
  filter (fun b => String.eqb (bound_event b) name) (process_listeners (env st)) = [].
Proof.
  intros [_ H]. induction (process_listeners (env st)) as [|b r IH]; [reflexivity|].
  inversion H as [|? ? Hb Hr]; subst. simpl.
  destruct (String.eqb (bound_event b) name) eqn:E; [|auto].
  apply String.eqb_eq in E. contradiction.
Qed.

(** Nothing happens when an event arrives whose listener is spent. *)
Lemma spent_ignores name payload st :
  spent name st -> step st (process_event name payload) = st.
Proof.
  intros H. unfold step. destruct (halted (env st)); [reflexivity|].
  simpl. unfold process_emit. rewrite (spent_no_listener name st H). reflexivity.
Qed.

Lemma spent_step name ev st :
  is_reset ev = false -> spent name st -> spent name (step st ev).
Proof.
  intros Hr. apply step_preserves.
  - apply spent_trigger_steps.
  - apply spent_api_steps.
  - congruence.
Qed.

Lemma spent_run name evs st :
  forallb (fun ev => negb (is_reset ev)) evs = true ->
  spent name st -> spent name (run evs st).
Proof.
  revert st. induction evs as [|ev evs IH]; intros st Hr H; simpl; [exact H|].
  simpl in Hr. apply andb_prop in Hr. destruct Hr as [Hr1 Hr2].
  apply IH; [exact Hr2|]. apply spent_step; [|exact H].
  destruct (is_reset ev); [discriminate | reflexivity].
Qed.

(** The delivery of an event spends the listener that waited for it. *)
Lemma delivery_spends name payload st :
  listener_discipline st -> alive st ->
  filter (fun b => String.eqb (bound_event b) name) (process_listeners (env st)) <> [] ->
  spent name (step st (process_event name payload)).
Proof.
  intros Hd Ha Hf. rewrite step_alive by exact Ha. simpl.
  destruct (process_emit_cases name payload st Hd) as [[_ F] | (b & Hb & Eb & Hw & E)];
    [contradiction|].
  rewrite E.
  assert (Hs : spent name
                 (in_world (fun w => set_process_listeners
                              (remove_first_binding name (bound_handler b)
                                 (process_listeners w)) w) st)).
  { destruct Hd as (H1 & H2 & _). split.
    - change (listening_to_exit st = Some true).
      destruct (listening_to_exit st) as [[|]|] eqn:El; [reflexivity | |];
        rewrite H2 in Hb by congruence; destruct Hb.
    - change (Forall (fun x => bound_event x <> name)
                (remove_first_binding name (bound_handler b)
                   (process_listeners (env st)))).
      rewrite <- Eb. apply remove_first_binding_spent; assumption. }
  unfold run_proc_handler.
  destruct (fn_body (bound_handler b)).
  - destruct (loose_eq_shutdown payload); [|exact Hs].
    apply (preserves_emittidyExitEvent (spent name) payload (spent_trigger_steps name));
      [exact Ha | exact Hs].
  - apply (preserves_emittidyExitEvent (spent name) _ (spent_trigger_steps name));
      [exact Ha | exact Hs].
Qed.


(** *** The platform does not change *)

Lemma exit_returns_trigger_steps v :
  trigger_steps (fun st => exit_returns (env st) = v).
Proof.
  constructor; [constructor; [constructor|..]|..]; intros; try assumption.
  - unfold log_call. destruct (log st); assumption.
  - unfold process_exit. destruct (exit_returns (env st)) eqn:E; simpl; congruence.
  - rewrite <- H0.
    assert (E := registerDefaultTimeoutHandler_outcome_fields st).
    unfold outcome_fields in E. injection E. auto.
Qed.






(* ------------------------------------------------------------------------ *)
(** ** Slots of the completion registry *)
(* ------------------------------------------------------------------------ *)

Lemma slot_fields_callback_steps v : callback_steps (fun st => slot_fields st = v).
Proof.
  constructor; intros; try assumption.
  - rewrite <- H0. unfold slot_fields. simpl. rewrite increment_slot_length. reflexivity.
  - rewrite <- H0. unfold log_call. destruct (log st); reflexivity.
  - rewrite <- H0. unfold process_exit. destruct (exit_returns (env st)); reflexivity.
Qed.

Lemma log_call_slot_fields msg st : slot_fields (log_call msg st) = slot_fields st.
Proof. unfold log_call. destruct (log st); reflexivity. Qed.

(** A subscribed closure takes the slot after the last one, whatever its
    handler then does. *)
Lemma tidy_exit_listener_slot l source st :
  alive st ->
  let out := tidy_exit_listener l source st in
  slot_fields (snd out)
  = (invoked (env st)
       ++ [(l, Z.of_nat (List.length (handler_callback_registry st)) + 1)],
     S (List.length (handler_callback_registry st)))
  /\ (fst out <> None -> alive (snd out)).
Proof.
  intros Ha out. subst out. unfold tidy_exit_listener.
  match goal with
  | |- slot_fields (snd (run_exit_handler ?h ?d ?s)) = ?v /\ _ =>
      apply (preserves_run_exit_handler (fun x => slot_fields x = v) h d)
  end.
  - apply slot_fields_callback_steps.
  - apply preserves_emit_done, slot_fields_callback_steps.
  - apply log_call_alive, Ha.
  - match goal with
    | |- slot_fields (in_world _ (log_call ?msg ?s1)) = _ =>
        assert (E := log_call_slot_fields msg s1);
        remember (log_call msg s1) as s2 eqn:Es2; clear Es2
    end.
    unfold slot_fields in *. injection E as E1 E2.
    cbn [in_world set_env env invoked set_invoked handler_callback_registry].
    rewrite E1, E2.
    cbn [set_handler_callback_registry env handler_callback_registry].
    rewrite length_app. cbn [List.length].
    rewrite Nat.add_1_r. f_equal. f_equal. f_equal. f_equal. lia.
Qed.

Lemma unsubscribe_first_slot st :
  slot_fields (unsubscribe_first st) = slot_fields st
  /\ (alive st -> alive (unsubscribe_first st)).
Proof. split; auto. Qed.

Lemma forEach_listeners_cons source l r st :
  forEach (fun l => lift unsubscribe_first ;;; tidy_exit_listener l source) (l :: r) st
  = match tidy_exit_listener l source (unsubscribe_first st) with
    | (Some _, s1) =>
        forEach (fun l => lift unsubscribe_first ;;; tidy_exit_listener l source) r s1
    | (None, s1) => (None, s1)
    end.
Proof. reflexivity. Qed.

Lemma forEach_listeners_slots source ls st :
  alive st ->
  let out := forEach (fun l => lift unsubscribe_first ;;; tidy_exit_listener l source)
                     ls st in
  exists k,
    (k <= List.length ls)%nat
    /\ slot_fields (snd out)
       = (invoked (env st)
            ++ number_from (Z.of_nat (List.length (handler_callback_registry st)) + 1)
                 (firstn k ls),
          (List.length (handler_callback_registry st) + k)%nat)
    /\ (fst out <> None -> k = List.length ls).
Proof.
  revert st. induction ls as [|l r IH]; intros st Ha out; subst out.
  - exists 0%nat. cbn [forEach ret fst snd firstn number_from List.length].
    unfold slot_fields. rewrite app_nil_r, Nat.add_0_r. auto.
  - rewrite forEach_listeners_cons.
    destruct (unsubscribe_first_slot st) as [_ Hu].
    destruct (tidy_exit_listener_slot l source (unsubscribe_first st) (Hu Ha))
      as [E1 A1].
    change (invoked (env (unsubscribe_first st))) with (invoked (env st)) in E1.
    change (handler_callback_registry (unsubscribe_first st))
      with (handler_callback_registry st) in E1.
    destruct (tidy_exit_listener l source (unsubscribe_first st)) as [[u|] s1];
      cbn [fst snd] in E1, A1.
    + assert (Ha1 : alive s1) by (apply A1; discriminate).
      destruct (IH s1 Ha1) as (k & Hk & Es & Hf).
      unfold slot_fields in E1. injection E1 as E1a E1b.
      exists (S k). split; [cbn [List.length]; lia|]. split.
      * rewrite Es, E1a, E1b. cbn [firstn number_from].
        rewrite <- app_assoc. cbn [app].
        f_equal; [|lia]. f_equal. f_equal. f_equal. lia.
      * intros Hn. rewrite (Hf Hn). reflexivity.
    + exists 1%nat. split; [cbn [List.length]; lia|]. split.
      * cbn [snd]. rewrite E1. cbn [firstn number_from].
        f_equal. lia.
      * cbn [fst]. congruence.
Qed.

Lemma registerExitListeners_tracker_fields st :
  tracker_fields (_registerExitListeners st) = tracker_fields st
  /\ apps (env (_registerExitListeners st)) = apps (env st).
Proof.
  unfold _registerExitListeners. destruct (listening_to_exit st) as [[|]|]; auto.
Qed.

Lemma addTidyExitHandler_registry h d t st :
  handler_callback_registry (addTidyExitHandler h d t st) = handler_callback_registry st
  /\ on_tidyExit (tidy_exit_event (addTidyExitHandler h d t st))
     = on_tidyExit (tidy_exit_event st) ++ [{| appExitHandler := h; desc := d |}]
  /\ apps (env (addTidyExitHandler h d t st)) = apps (env st).
Proof.
  destruct (registerExitListeners_tracker_fields st) as [E Ea].
  unfold tracker_fields in E. injection E as E1 E2 E3 E4 E5 E6 E7.
  unfold addTidyExitHandler. destruct (js_gt _ _); simpl; rewrite E2, E4; auto.
Qed.

Lemma hookExpressApp_registry app st :
  handler_callback_registry (snd (hookExpressApp app st)) = handler_callback_registry st.
Proof.
  unfold hookExpressApp. destruct (app_get_state app st); [reflexivity|]. cbn [snd].
  destruct (addTidyExitHandler_registry (express_exit_handler app) (VStr "expressApp")
              JUndefined (app_set_state app false (app_use_middleware app st)))
    as [E _].
  rewrite E. reflexivity.
Qed.

Lemma hookHttpServer_registry server hook_apps st :
  handler_callback_registry (snd (hookHttpServer server hook_apps st))
  = handler_callback_registry st.
Proof.
  unfold hookHttpServer. cbn [snd].
  assert (F : forall l s,
             handler_callback_registry (fold_left _detectAndHookExpressApp l s)
             = handler_callback_registry s).
  { intros l. apply fold_left_frame. intros s x. unfold _detectAndHookExpressApp.
    destruct (forallb _ _); [apply hookExpressApp_registry | reflexivity]. }
  destruct hook_apps as [| |[|]| | | |]; rewrite ?F;
    apply addTidyExitHandler_registry.
Qed.

Lemma api_calls_take_no_slot evs st :
  forallb is_api_call evs = true ->
  handler_callback_registry st = [] ->
  handler_callback_registry (run evs st) = [].
Proof.
  revert st. induction evs as [|ev evs IH]; intros st Hc H; simpl; [exact H|].
  simpl in Hc. apply andb_prop in Hc. destruct Hc as [Hc1 Hc2].
  apply IH; [exact Hc2|]. unfold step. destruct (halted (env st)); [exact H|].
  destruct ev; try discriminate; simpl; try exact H.
  - rewrite <- H. apply addTidyExitHandler_registry.
  - destruct (init_fields st) as [Hp _]. unfold pristine, tracker_fields in Hp.
    injection Hp. auto.
  - rewrite <- H. apply hookExpressApp_registry.
  - rewrite <- H. apply hookHttpServer_registry.
Qed.

Lemma empty_registry_callback_steps :
  callback_steps (fun st => handler_callback_registry st = []).
Proof.
  constructor.
  - intros n st _ H.
    cbn [handler_callback_registry set_handler_callback_registry].
    apply length_zero_iff_nil. rewrite increment_slot_length, H. reflexivity.
  - intros msg st _ H. rewrite <- H. apply log_call_module_variables.
  - intros code st _ H. rewrite <- H. apply process_exit_module_variables.
  - intros st _ _ H. exact H.
  - intros app st _ H. exact H.
  - intros server st _ H. exact H.
Qed.

(** An event that is no qualifying trigger takes no slot: a message that
    does not compare equal to ['shutdown'] only unbinds its listener, a
    timer that fires checks without a slot number, and a completion callback
    finds no slot to mark in an empty registry. *)
Lemma untriggered_step_takes_no_slot ev st :
  qualifying ev = false ->
  listener_discipline st ->
  handler_callback_registry st = [] ->
  handler_callback_registry (step st ev) = [].
Proof.
  intros Hq Hd H. unfold step. destruct (halted (env st)) eqn:Ha; [exact H|].
  destruct (is_api_call ev) eqn:Hc.
  - assert (E := api_calls_take_no_slot [ev] st).
    cbn [forallb] in E. rewrite Hc in E. specialize (E eq_refl H).
    cbn [run fold_left] in E. unfold step in E. rewrite Ha in E. exact E.
  - destruct ev; try discriminate; cbn [handle_event].
    + destruct (process_emit_cases name payload st Hd)
        as [[E _] | (b & _ & Eb & Hw & E)]; rewrite E; [exact H|].
      unfold run_proc_handler. cbn [qualifying] in Hq.
      apply orb_false_iff in Hq. destruct Hq as [Hm Hs].
      destruct Hw as [[Hn Hbody] | [Hn _]].
      * rewrite Hbody. rewrite Eb in Hn. rewrite Hn in Hm.
        cbn [andb] in Hm. rewrite String.eqb_refl in Hm. cbn [andb] in Hm.
        rewrite Hm. exact H.
      * exfalso. rewrite Eb in Hn.
        assert (Ht : existsb (String.eqb name) SYSTEM_EXIT_SIGNALS = true).
        { apply existsb_exists. exists name. split; [exact Hn | apply String.eqb_refl]. }
        congruence.
    + unfold fire_timer. destruct (existsb _ _); [|exact H].
      apply (preserves_suicide_timeout (fun s => handler_callback_registry s = []));
        [apply empty_registry_callback_steps | exact Ha | exact H].
    + apply (preserves_emit_done (fun s => handler_callback_registry s = []));
        [apply empty_registry_callback_steps | exact Ha | exact H].
Qed.

Lemma untriggered_run_takes_no_slot evs st :
  triggers evs = 0%nat ->
  coordinator_invariant st ->
  handler_callback_registry st = [] ->
  handler_callback_registry (run evs st) = [].
Proof.
  revert st. induction evs as [|ev evs IH]; intros st Ht Hi H; [exact H|].
  unfold triggers in Ht. cbn [filter] in Ht.
  destruct (qualifying ev) eqn:Hq; [discriminate|].
  change (handler_callback_registry (run evs (step st ev)) = []).
  apply IH; [exact Ht | apply coordinator_invariant_step, Hi|].
  apply untriggered_step_takes_no_slot; [exact Hq | apply Hi | exact H].
Qed.

(** The claim of C9 as written fails: a registration takes no slot. *)
Lemma registration_takes_no_slot : ~ slots_assigned_at_registration.
Proof.
  intros H.
  specialize (H [call_addTidyExitHandler 0 (VStr "task") JUndefined] eq_refl).
  vm_compute in H. discriminate.
Qed.

(** C9, amended. A task gets its slot when the broadcast calls it, not
    when it is registered: registering leaves the registry as it is, and it
    is empty as long as no qualifying trigger has occurred, whatever else
    has (calls of the public API, other messages, timers, completion
    callbacks); a subscriber
    that is called takes the slot after the last one, counting from 1; a
    broadcast numbers the subscribers it calls consecutively in subscription
    order and lengthens the registry by their number. *)
Theorem slots_are_assigned_by_the_broadcast :
  (forall h d t st,
      handler_callback_registry (addTidyExitHandler h d t st)
      = handler_callback_registry st)
  /\ (forall stub throws evs,
        triggers evs = 0%nat ->
        handler_callback_registry (reached stub throws evs) = [])
  /\ (forall l source st,
        alive st ->
        slot_fields (snd (tidy_exit_listener l source st))
        = (invoked (env st)
             ++ [(l, Z.of_nat (List.length (handler_callback_registry st)) + 1)],
           S (List.length (handler_callback_registry st))))
  /\ (forall source st,
        alive st ->
        let subscribers := on_tidyExit (tidy_exit_event st) in
        let out := emit_tidy_exit source st in
        exists k,
          (k <= List.length subscribers)%nat
          /\ slot_fields (snd out)
             = (invoked (env st)
                  ++ number_from
                       (Z.of_nat (List.length (handler_callback_registry st)) + 1)
                       (firstn k subscribers),
                (List.length (handler_callback_registry st) + k)%nat)
          /\ (fst out <> None -> k = List.length subscribers)).
Proof.
  split; [|split; [|split]].
  - intros. apply addTidyExitHandler_registry.
  - intros stub throws evs Ht.
    apply untriggered_run_takes_no_slot;
      [exact Ht | apply coordinator_invariant_loaded | reflexivity].
  - intros l source st Ha. apply tidy_exit_listener_slot, Ha.
  - intros source st Ha subscribers out. subst out. unfold emit_tidy_exit.
    apply (forEach_listeners_slots source subscribers
             (in_world (fun w => set_broadcasts
                          (broadcasts w ++ [(to_string source, List.length subscribers)])
                          w) st)).
    exact Ha.
Qed.

Lemma slots_are_assigned_by_the_broadcast_witness :
  let st := addTidyExitHandler (app_exit_handler 1) (VStr "second") JUndefined
              (addTidyExitHandler (app_exit_handler 0) (VStr "first") JUndefined node) in
  let evs := [call_addTidyExitHandler 0 (VStr "first") JUndefined;
              process_event "message" (VStr "not-shutdown");
              process_event "SIGHUP" VUndefined;
              done_called 1;
              timer_fires 0;
              call_addTidyExitHandler 1 (VStr "second") JUndefined] in
  (triggers evs = 0%nat
   /\ handler_callback_registry (reached false (fun _ => false) evs) = [])
  /\ slot_fields (snd (tidy_exit_listener
                         {| appExitHandler := app_exit_handler 0; desc := VStr "first" |}
                         (VStr "SIGTERM") st))
     = ([({| appExitHandler := app_exit_handler 0; desc := VStr "first" |}, 1)], 1%nat).
Proof.
  split.
  - split; [vm_compute; reflexivity|].
    apply (proj1 (proj2 slots_are_assigned_by_the_broadcast) false (fun _ => false)
             [call_addTidyExitHandler 0 (VStr "first") JUndefined;
              process_event "message" (VStr "not-shutdown");
              process_event "SIGHUP" VUndefined;
              done_called 1;
              timer_fires 0;
              call_addTidyExitHandler 1 (VStr "second") JUndefined]).
    vm_compute. reflexivity.
  - apply (proj1 (proj2 (proj2 slots_are_assigned_by_the_broadcast))
             {| appExitHandler := app_exit_handler 0; desc := VStr "first" |}
             (VStr "SIGTERM")
             (addTidyExitHandler (app_exit_handler 1) (VStr "second") JUndefined
                (addTidyExitHandler (app_exit_handler 0) (VStr "first") JUndefined
                   node))).
    reflexivity.
Defined.

(* ------------------------------------------------------------------------ *)
(** ** The message listener *)
(* ------------------------------------------------------------------------ *)

Lemma message_is_no_signal : ~ In "message" SYSTEM_EXIT_SIGNALS.
Proof. simpl. intuition discriminate. Qed.

(** A message that does not compare equal to ['shutdown'] only unbinds the
    listener that received it. *)
Lemma other_message_unbinds payload st :
  listener_discipline st -> alive st ->
  filter (fun b => String.eqb (bound_event b) "message") (process_listeners (env st))
    <> [] ->
  loose_eq_shutdown payload = false ->
  exists b,
    In b (process_listeners (env st)) /\ bound_event b = "message"
    /\ step st (process_event "message" payload)
       = in_world (fun w => set_process_listeners
                     (remove_first_binding "message" (bound_handler b)
                        (process_listeners w)) w) st.
Proof.
  intros Hd Ha Hf Hl. rewrite step_alive by exact Ha. simpl.
  destruct (process_emit_cases "message" payload st Hd)
    as [[_ F] | (b & Hb & Eb & Hw & E)]; [contradiction|].
  exists b. repeat split; auto. rewrite E. unfold run_proc_handler.
  destruct Hw as [[_ Hbody] | [Hn _]].
  - rewrite Hbody, Hl. reflexivity.
  - rewrite Eb in Hn. destruct (message_is_no_signal Hn).
Qed.

(** C7. What the code does where the claim fails: in every reachable state
    with the message listener bound, a message other than ['shutdown'] runs
    no broadcast and leaves the variables of the library alone, but it
    unbinds the listener, and no later message starts a broadcast before a
    reset.  So a handler registered, then 'not-shutdown', then 'shutdown'
    gives no broadcast at all, where 'shutdown' alone gives one; and the
    array ['shutdown'], which is not the string, starts one. *)
Theorem message_listener_is_consumed :
  (forall stub throws evs payload later,
      let st := reached stub throws evs in
      let st1 := step st (process_event "message" payload) in
      alive st ->
      filter (fun b => String.eqb (bound_event b) "message")
             (process_listeners (env st)) <> [] ->
      loose_eq_shutdown payload = false ->
      broadcasts (env st1) = broadcasts (env st)
      /\ tracker_fields st1 = tracker_fields st
      /\ exit_signal_handlers st1 = exit_signal_handlers st
      /\ listening_to_exit st1 = listening_to_exit st
      /\ Forall (fun b => bound_event b <> "message") (process_listeners (env st1))
      /\ (forallb (fun ev => negb (is_reset ev)) later = true ->
          step (run later st1) (process_event "message" (VStr "shutdown"))
          = run later st1))
  /\ broadcasts (env (reached false (fun _ => false)
                        [call_addTidyExitHandler 1 (VStr "task") JUndefined;
                         process_event "message" (VStr "not-shutdown");
                         process_event "message" (VStr "shutdown")])) = []
  /\ broadcasts (env (reached false (fun _ => false)
                        [call_addTidyExitHandler 1 (VStr "task") JUndefined;
                         process_event "message" (VStr "shutdown")]))
     = [("shutdown", 2%nat)]
  /\ broadcasts (env (reached false (fun _ => false)
                        [call_addTidyExitHandler 1 (VStr "task") JUndefined;
                         process_event "message" (VArr [VStr "shutdown"])]))
     = [("shutdown", 2%nat)].
Proof.
  split; [|repeat split; reflexivity].
  intros stub throws evs payload later st st1 Ha Hf Hl.
  destruct (reached_invariant stub throws evs) as (_ & _ & Hd). fold st in Hd.
  assert (Hs : spent "message" st1) by (apply delivery_spends; assumption).
  destruct (other_message_unbinds payload st Hd Ha Hf Hl) as (b & _ & _ & E).
  fold st1 in E.
  repeat split; try (rewrite E; reflexivity).
  - apply Hs.
  - intros Hr. apply spent_ignores, spent_run; assumption.
Qed.

Lemma message_listener_is_consumed_witness :
  let st := reached false (fun _ => false)
              [call_addTidyExitHandler 1 (VStr "task") JUndefined] in
  let st1 := step st (process_event "message" (VStr "not-shutdown")) in
  Forall (fun b => bound_event b <> "message") (process_listeners (env st1))
  /\ step (run [call_addTidyExitHandler 1 (VStr "other") JUndefined] st1)
          (process_event "message" (VStr "shutdown"))
     = run [call_addTidyExitHandler 1 (VStr "other") JUndefined] st1.
Proof.
  destruct (proj1 message_listener_is_consumed false (fun _ => false)
              [call_addTidyExitHandler 1 (VStr "task") JUndefined]
              (VStr "not-shutdown")
              [call_addTidyExitHandler 1 (VStr "other") JUndefined])
    as (_ & _ & _ & _ & H5 & H6).
  - reflexivity.
  - vm_compute. discriminate.
  - reflexivity.
  - split; [exact H5 | apply H6; reflexivity].
Defined.

(* ------------------------------------------------------------------------ *)
(** ** Hooks *)
(* ------------------------------------------------------------------------ *)

Lemma find_app_store id a l : find_app id (store_app id a l) = a.
Proof.
  induction l as [|[k b] r IH]; simpl.
  - rewrite Nat.eqb_refl. reflexivity.
  - destruct (Nat.eqb k id) eqn:E; simpl; rewrite E; auto.
Qed.

Lemma find_app_store_other id id' a l :
  id <> id' -> find_app id (store_app id' a l) = find_app id l.
Proof.
  intros Hn. induction l as [|[k b] r IH]; simpl.
  - destruct (Nat.eqb id' id) eqn:E; [|reflexivity].
    apply Nat.eqb_eq in E. congruence.
  - destruct (Nat.eqb k id') eqn:E; simpl.
    + apply Nat.eqb_eq in E. subst k.
      destruct (Nat.eqb id' id) eqn:E'; [|reflexivity].
      apply Nat.eqb_eq in E'. congruence.
    + destruct (Nat.eqb k id); auto.
Qed.

(** C4. What the code does where the claim fails: [hookHttpServer] and
    [hookExpressApp] evaluate to [undefined] in every case, never to a
    handle.  The rest is as claimed: on an application that carries the
    flag [hookExpressApp] changes nothing; otherwise it installs the
    middleware once, sets the flag to [false] and subscribes a task that
    sets the flag to [true] and then calls [done]. *)
Theorem hooks_return_undefined :
  (forall server hook_apps st,
      fst (hookHttpServer server hook_apps st) = returns_undefined)
  /\ (forall app st, fst (hookExpressApp app st) = returns_undefined)
  /\ (forall app st flag,
        app_get_state app st = Some flag -> snd (hookExpressApp app st) = st)
  /\ (forall app st,
        app_get_state app st = None ->
        let st' := snd (hookExpressApp app st) in
        app_get_state app st' = Some false
        /\ tidy_middleware (find_app app (apps (env st')))
           = S (tidy_middleware (find_app app (apps (env st))))
        /\ on_tidyExit (tidy_exit_event st')
           = on_tidyExit (tidy_exit_event st)
               ++ [{| appExitHandler := express_exit_handler app;
                      desc := VStr "expressApp" |}])
  /\ (forall app done st,
        run_exit_handler (express_exit_handler app) done st
        = done (app_set_state app true st)
        /\ app_get_state app (app_set_state app true st) = Some true).
Proof.
  split; [|split; [|split; [|split]]].
  - intros. reflexivity.
  - intros app st. unfold hookExpressApp. destruct (app_get_state app st); reflexivity.
  - intros app st flag E. unfold hookExpressApp. rewrite E. reflexivity.
  - intros app st E st'. subst st'. unfold hookExpressApp. rewrite E. cbn [snd].
    destruct (addTidyExitHandler_registry (express_exit_handler app) (VStr "expressApp")
                JUndefined (app_set_state app false (app_use_middleware app st)))
      as (_ & E2 & E3).
    unfold app_get_state. rewrite E2, E3.
    unfold app_set_state, app_use_middleware.
    cbn [in_world set_env env apps set_apps tidy_exit_event].
    rewrite !find_app_store. cbn [tidy_exit_state tidy_middleware]. auto.
  - intros app done st. split; [reflexivity|].
    unfold app_get_state, app_set_state. simpl. rewrite find_app_store. reflexivity.
Qed.

Lemma hooks_return_undefined_witness :
  app_get_state 3 (snd (hookExpressApp 3 node)) = Some false
  /\ snd (hookExpressApp 3 (snd (hookExpressApp 3 node))) = snd (hookExpressApp 3 node).
Proof.
  split.
  - apply (proj1 (proj2 (proj2 (proj2 hooks_return_undefined))) 3%nat node).
    reflexivity.
  - apply (proj1 (proj2 (proj2 hooks_return_undefined)) 3%nat
             (snd (hookExpressApp 3 node)) false).
    reflexivity.
Defined.


(* ------------------------------------------------------------------------ *)
(** ** Further properties of the timeout policy *)
(* ------------------------------------------------------------------------ *)

Lemma addTidyExitHandler_log h d t st : log (addTidyExitHandler h d t st) = log st.
Proof.
  assert (E := registerExitListeners_timeout_fields st).
  unfold timeout_fields in E. injection E as _ _ E3.
  unfold addTidyExitHandler. destruct (js_gt _ _); exact E3.
Qed.

(** A requested timeout that is missing, [null] or not positive leaves the
    running maximum of a reachable state as it is. *)
Lemma useless_timeout_is_ignored stub throws evs h d t :
  alive (reached stub throws evs) ->
  js_gt t (JNum 0) = false ->
  timeout_fields (addTidyExitHandler h d t (reached stub throws evs))
  = timeout_fields (reached stub throws evs).
Proof.
  intros Ha Ht.
  destruct (timeouts_follow_history stub throws evs Ha) as (H1 & H2 & _).
  fold (reached stub throws evs) in H1.
  assert (Hgt : js_gt t (JNum (running_max evs)) = false).
  { destruct t as [| |z]; unfold js_gt in *; simpl in *; try reflexivity; lia. }
  remember (reached stub throws evs) as st eqn:Est. clear Est.
  unfold timeout_fields.
  rewrite addTidyExitHandler_max_handler_timeout, addTidyExitHandler_max_timeout,
    addTidyExitHandler_log, H1, Hgt.
  reflexivity.
Qed.

(** X1. When a handler timeout and an override are both positive, the smaller
    one is the effective timeout; a requested timeout that is missing,
    [null], zero or negative changes nothing. *)
Theorem getTimeout_is_the_smaller_bound :
  (forall st h m,
      max_handler_timeout st = JNum h -> max_timeout st = JNum m ->
      0 < h -> 0 < m ->
      getTimeout st = JNum (Z.min h m))
  /\ (forall stub throws evs n d t,
        alive (reached stub throws evs) ->
        js_gt t (JNum 0) = false ->
        getTimeout (step (reached stub throws evs) (call_addTidyExitHandler n d t))
        = getTimeout (reached stub throws evs)).
Proof.
  split.
  - intros st h m Hh Hm Ph Pm. unfold getTimeout, js_gt. rewrite Hh, Hm. simpl.
    destruct (h =? 0) eqn:E0; [lia|]. destruct (m =? 0) eqn:E1; [lia|]. simpl.
    destruct (m >? h) eqn:E2; f_equal; lia.
  - intros stub throws evs n d t Ha Ht. rewrite step_alive by exact Ha.
    cbn [handle_event lift snd].
    assert (E := useless_timeout_is_ignored stub throws evs (app_exit_handler n) d t
                   Ha Ht).
    unfold timeout_fields in E. injection E as E1 E2 _.
    unfold getTimeout. rewrite E1, E2. reflexivity.
Qed.

Lemma getTimeout_is_the_smaller_bound_witness :
  getTimeout (reached false (fun _ => false)
                [call_addTidyExitHandler 0 (VStr "a") (JNum 700);
                 call_setMaxTimeout (JNum 300)])
  = JNum (Z.min 700 300)
  /\ getTimeout (step (reached false (fun _ => false)
                         [call_addTidyExitHandler 0 (VStr "a") (JNum 700)])
                      (call_addTidyExitHandler 0 (VStr "b") (JNum (-5))))
     = getTimeout (reached false (fun _ => false)
                     [call_addTidyExitHandler 0 (VStr "a") (JNum 700)]).
Proof.
  split.
  - apply (proj1 getTimeout_is_the_smaller_bound); vm_compute; reflexivity.
  - apply (proj2 getTimeout_is_the_smaller_bound); vm_compute; reflexivity.
Defined.

(* ------------------------------------------------------------------------ *)
(** ** What the library does not react to *)
(* ------------------------------------------------------------------------ *)

Lemma well_bound_name b :
  well_bound b -> bound_event b = "message" \/ In (bound_event b) SYSTEM_EXIT_SIGNALS.
Proof. intros [[H _] | [H _]]; auto. Qed.

(** X2. An event that is neither ['message'] nor one of the three signals finds
    no listener of the library in any reachable state: its delivery changes
    nothing. *)
Theorem other_events_are_ignored :
  forall stub throws evs name payload,
    name <> "message" -> ~ In name SYSTEM_EXIT_SIGNALS ->
    step (reached stub throws evs) (process_event name payload)
    = reached stub throws evs.
Proof.
  intros stub throws evs name payload Hm Hs.
  destruct (reached_invariant stub throws evs) as (_ & _ & Hd).
  remember (reached stub throws evs) as st eqn:Est. clear Est.
  unfold step. destruct (halted (env st)); [reflexivity|].
  cbn [handle_event].
  destruct (process_emit_cases name payload st Hd) as [[E _] | (b & Hb & Eb & Hw & _)];
    [exact E|].
  exfalso. destruct (well_bound_name b Hw) as [H | H]; rewrite Eb in H; auto.
Qed.

Lemma other_events_are_ignored_witness :
  step (reached false (fun _ => false)
          [call_addTidyExitHandler 0 (VStr "a") JUndefined])
       (process_event "SIGHUP" VUndefined)
  = reached false (fun _ => false) [call_addTidyExitHandler 0 (VStr "a") JUndefined].
Proof.
  apply other_events_are_ignored.
  - discriminate.
  - simpl. intuition discriminate.
Defined.

(** X3. After a reset of a reachable state nothing the runtime delivers has an
    effect: a completion callback handed out earlier, the timer armed
    earlier and any signal or message leave the state as it is. *)
Theorem nothing_reacts_after_reset :
  forall stub throws evs,
    let st := _init (reached stub throws evs) in
    (forall n, snd (emit_done (JNum n) st) = st)
    /\ (forall handle, snd (fire_timer handle st) = st)
    /\ (forall name payload, snd (process_emit name payload st) = st).
Proof.
  intros stub throws evs st.
  destruct (reached_invariant stub throws evs) as (H1 & _ & H3).
  destruct (init_fields (reached stub throws evs)) as (Hp & _ & _).
  destruct (init_timer (reached stub throws evs)) as (_ & _ & Ht).
  destruct (init_unbinds _ H3) as [Hl _].
  specialize (Ht H1). fold st in Hp, Ht, Hl. clearbody st.
  split; [|split].
  - intros n. unfold emit_done.
    unfold pristine, tracker_fields in Hp.
    assert (E : tidy_exit_event st = {| on_tidyExit := []; on_done := 0 |})
      by (injection Hp; auto).
    rewrite E. reflexivity.
  - intros handle. unfold fire_timer. rewrite Ht. reflexivity.
  - intros name payload. unfold process_emit. rewrite Hl. reflexivity.
Qed.

(* ------------------------------------------------------------------------ *)
(** ** Arming the listeners *)
(* ------------------------------------------------------------------------ *)

Lemma registerExitListeners_listening st :
  listening_to_exit (_registerExitListeners st) = Some true.
Proof.
  rewrite registerExitListeners_unfold.
  destruct (listening_to_exit st) as [[|]|] eqn:El; [exact El | reflexivity..].
Qed.

Lemma registerExitListeners_idempotent st :
  _registerExitListeners (_registerExitListeners st) = _registerExitListeners st.
Proof.
  rewrite (registerExitListeners_unfold (_registerExitListeners st)).
  rewrite registerExitListeners_listening. reflexivity.
Qed.

Lemma bind_fresh_signal_handlers st p : exit_signal_handlers (bind_fresh st p) <> None.
Proof. unfold bind_fresh, new_closure, _addExitHandler. cbn. discriminate. Qed.

Lemma bind_all_signal_handlers ps st :
  exit_signal_handlers st <> None \/ ps <> [] ->
  exit_signal_handlers (fold_left bind_fresh ps st) <> None.
Proof.
  revert st. induction ps as [|p ps IH]; intros st H; cbn [fold_left].
  - destruct H as [H | H]; [exact H | congruence].
  - apply IH. left. apply bind_fresh_signal_handlers.
Qed.

Lemma armed_is_tracked_frame st st' :
  listener_fields st' = listener_fields st -> armed_is_tracked st -> armed_is_tracked st'.
Proof.
  unfold listener_fields, armed_is_tracked. intros E. injection E as _ E2 E3.
  rewrite E2, E3. auto.
Qed.

Lemma set_listening_to_exit_fields v st :
  exit_signal_handlers (set_listening_to_exit v st) = exit_signal_handlers st
  /\ process_listeners (env (set_listening_to_exit v st)) = process_listeners (env st).
Proof. split; reflexivity. Qed.

Lemma exit_listeners_nonempty : exit_listeners <> [].
Proof. unfold exit_listeners. discriminate. Qed.

Lemma armed_after_binding st :
  exit_signal_handlers st <> None ->
  armed_is_tracked (set_listening_to_exit (Some true) st).
Proof. intros H _. exact H. Qed.

Lemma registerExitListeners_armed st :
  armed_is_tracked st -> armed_is_tracked (_registerExitListeners st).
Proof.
  intros H. rewrite registerExitListeners_unfold.
  destruct (listening_to_exit st) as [[|]|] eqn:El.
  - exact H.
  - apply armed_after_binding, bind_all_signal_handlers.
    right. exact exit_listeners_nonempty.
  - apply armed_after_binding, bind_all_signal_handlers.
    right. exact exit_listeners_nonempty.
Qed.

Lemma addTidyExitHandler_armed h d t st :
  armed_is_tracked st -> armed_is_tracked (addTidyExitHandler h d t st).
Proof.
  intros H. eapply armed_is_tracked_frame.
  - apply addTidyExitHandler_listener_fields.
  - apply registerExitListeners_armed, H.
Qed.

Lemma armed_is_tracked_trigger_steps : trigger_steps armed_is_tracked.
Proof.
  constructor; [constructor; [constructor|..]|..]; intros;
    try (eapply armed_is_tracked_frame; [|eassumption]; reflexivity);
    try assumption.
  - eapply armed_is_tracked_frame; [apply log_call_listener_fields | assumption].
  - eapply armed_is_tracked_frame; [apply process_exit_listener_fields | assumption].
  - unfold _registerDefaultTimeoutHandler.
    eapply armed_is_tracked_frame;
      [|apply (addTidyExitHandler_armed default_exit_handler
                 (VStr "default timeout handler") JUndefined st); assumption].
    reflexivity.
Qed.

Lemma armed_is_tracked_api_steps : api_steps armed_is_tracked.
Proof.
  constructor; intros;
    try (eapply armed_is_tracked_frame; [|eassumption]; reflexivity).
  apply addTidyExitHandler_armed. assumption.
Qed.

(** After a reset the flag [listening_to_exit] is not [true]. *)
Lemma init_disarms st :
  armed_is_tracked st -> listening_to_exit (_init st) <> Some true.
Proof.
  intros H. destruct (init_fields st) as (_ & _ & El). rewrite El.
  set (st0 := set_log default_logger _).
  destruct (cleanupExitListeners_nulls st0) as [_ Hc].
  change (exit_signal_handlers st0) with (exit_signal_handlers st) in Hc.
  destruct (exit_signal_handlers st) as [o|] eqn:Eo.
  - destruct Hc as [Hc _]. rewrite Hc. discriminate.
  - rewrite Hc. change (listening_to_exit st0) with (listening_to_exit st).
    intros F. apply (H F). exact Eo.
Qed.

Lemma init_armed st : armed_is_tracked st -> armed_is_tracked (_init st).
Proof. intros H F. destruct (init_disarms st H F). Qed.

Lemma reached_armed_is_tracked stub throws evs :
  armed_is_tracked (reached stub throws evs).
Proof.
  unfold reached.
  assert (F : forall evs st, armed_is_tracked st -> armed_is_tracked (run evs st)).
  { induction evs0 as [|ev evs0 IH]; intros st H; cbn [run fold_left]; [exact H|].
    apply IH. apply step_preserves; auto.
    - apply armed_is_tracked_trigger_steps.
    - apply armed_is_tracked_api_steps.
    - intros _ s _ Hs. apply init_armed, Hs. }
  apply F. intros E. vm_compute in E. discriminate.
Qed.

Lemma names_after_arming st :
  process_listeners (env st) = [] ->
  listening_to_exit st <> Some true ->
  map bound_event (process_listeners (env (_registerExitListeners st)))
  = map fst exit_listeners.
Proof.
  intros Hl Ha. rewrite registerExitListeners_unfold.
  pose proof (bind_all_spec exit_listeners st) as B. cbv zeta in B.
  destruct B as (B1 & _).
  destruct (listening_to_exit st) as [[|]|]; [congruence | |];
    rewrite (proj2 (set_listening_to_exit_fields _ _)), B1, Hl; reflexivity.
Qed.

(** X4. Arming is guarded: [_registerExitListeners] is idempotent and a
    registration on an armed state binds nothing; the first registration
    after a reset of any reachable state binds exactly one listener for each
    of 'message', 'SIGTERM', 'SIGINT' and 'SIGBREAK', in this order. *)
Theorem registration_arms_four_listeners_once :
  (forall st,
      _registerExitListeners (_registerExitListeners st) = _registerExitListeners st)
  /\ (forall h d t st,
        listening_to_exit st = Some true ->
        listener_fields (addTidyExitHandler h d t st) = listener_fields st)
  /\ (forall stub throws evs h d t,
        map bound_event
          (process_listeners
             (env (addTidyExitHandler h d t (_init (reached stub throws evs)))))
        = ["message"; "SIGTERM"; "SIGINT"; "SIGBREAK"]).
Proof.
  split; [exact registerExitListeners_idempotent|]. split.
  - intros h d t st El. rewrite addTidyExitHandler_listener_fields.
    unfold _registerExitListeners. rewrite El. reflexivity.
  - intros stub throws evs h d t.
    destruct (reached_invariant stub throws evs) as (_ & _ & Hd).
    assert (Ha := init_disarms _ (reached_armed_is_tracked stub throws evs)).
    destruct (init_unbinds _ Hd) as [Hl _].
    assert (E := addTidyExitHandler_listener_fields h d t
                   (_init (reached stub throws evs))).
    unfold listener_fields in E. injection E as E1 _ _. rewrite E1.
    rewrite (names_after_arming _ Hl Ha). reflexivity.
Qed.

Lemma registration_arms_four_listeners_once_witness :
  let st := addTidyExitHandler (app_exit_handler 0) (VStr "a") JUndefined node in
  listener_fields (addTidyExitHandler (app_exit_handler 0) (VStr "b") JUndefined st)
  = listener_fields st.
Proof.
  apply (proj1 (proj2 registration_arms_four_listeners_once)).
  vm_compute. reflexivity.
Defined.

(** *** Nothing is armed before the first registration *)

Lemma unarmed_discipline st :
  unarmed st -> listener_discipline st /\ timer_discipline st.
Proof.
  intros (Hl & Ht & _). unfold listener_discipline, timer_discipline.
  rewrite Hl, Ht. repeat split; auto; constructor.
Qed.

Lemma outcome_fields_components st st' :
  outcome_fields st' = outcome_fields st ->
  exit_calls (env st') = exit_calls (env st)
  /\ halted (env st') = halted (env st)
  /\ broadcasts (env st') = broadcasts (env st).
Proof. unfold outcome_fields. intros E. injection E. auto. Qed.

Lemma outcome_fields_exit_returns st st' :
  outcome_fields st' = outcome_fields st ->
  exit_returns (env st') = exit_returns (env st).
Proof. unfold outcome_fields. intros E. injection E. auto. Qed.

Lemma pristine_emitter st :
  pristine st -> tidy_exit_event st = {| on_tidyExit := []; on_done := 0 |}.
Proof. unfold pristine, tracker_fields. intros E. injection E. auto. Qed.

Lemma unarmed_step ev st :
  is_subscription ev = false -> unarmed st -> unarmed (step st ev).
Proof.
  intros Hs Hu. assert (Hu' := Hu).
  destruct Hu' as (Hl & Ht & Hd & Hb & He & Ha).
  unfold step. rewrite Ha.
  destruct ev; try discriminate; cbn [handle_event lift snd].
  - exact Hu.
  - exact Hu.
  - destruct (unarmed_discipline st Hu) as [D1 D2].
    destruct (init_unbinds _ D1) as [Il _].
    destruct (init_timer st) as (_ & _ & It).
    destruct (init_fields st) as (Ip & _ & _).
    destruct (outcome_fields_components _ _ (init_outcome_fields st))
      as (O1 & O2 & O4).
    assert (Ie := pristine_emitter _ Ip).
    unfold unarmed. rewrite Il, (It D2), Ie, O1, O2, O4.
    repeat split; auto.
  - unfold process_emit. rewrite Hl. exact Hu.
  - unfold fire_timer. rewrite Ht. exact Hu.
  - unfold emit_done. rewrite Hd. exact Hu.
Qed.

(** X5. The library arms nothing until a task is registered: after loading it,
    whatever is done short of registering a task or hooking an application
    or a server, no listener is bound on [process], so signals and messages
    are not caught; no timer is pending, no broadcast has run and
    [process.exit] has not been called. *)
Theorem nothing_is_armed_before_registration :
  forall stub throws evs,
    forallb (fun ev => negb (is_subscription ev)) evs = true ->
    unarmed (reached stub throws evs).
Proof.
  intros stub throws evs. unfold reached.
  assert (F : forall evs st,
             forallb (fun ev => negb (is_subscription ev)) evs = true ->
             unarmed st -> unarmed (run evs st)).
  { induction evs0 as [|ev evs0 IH]; intros st Hs H; cbn [run fold_left]; [exact H|].
    cbn [forallb] in Hs. apply andb_prop in Hs. destruct Hs as [Hs1 Hs2].
    apply IH; [exact Hs2|]. apply unarmed_step; [|exact H].
    destruct (is_subscription ev); [discriminate | reflexivity]. }
  intros Hs. apply F; [exact Hs|].
  unfold unarmed. repeat split; reflexivity.
Qed.

Lemma nothing_is_armed_before_registration_witness :
  unarmed (reached false (fun _ => false)
             [call_setMaxTimeout (JNum 100); process_event "SIGTERM" VUndefined;
              call_reset; process_event "message" (VStr "shutdown")]).
Proof.
  apply nothing_is_armed_before_registration. vm_compute. reflexivity.
Defined.

(* ------------------------------------------------------------------------ *)
(** ** What a trigger leaves behind *)
(* ------------------------------------------------------------------------ *)

Lemma tidy_exit_event_callback_steps v :
  callback_steps (fun st => tidy_exit_event st = v).
Proof.
  constructor; intros; try assumption.
  - rewrite <- H0. apply log_call_module_variables.
  - rewrite <- H0. apply process_exit_module_variables.
Qed.

Lemma tidy_exit_event_handler_steps v :
  handler_steps (fun st => tidy_exit_event st = v).
Proof.
  constructor; intros; try assumption. apply tidy_exit_event_callback_steps.
Qed.

Lemma snapshot_fields_handler_steps v :
  handler_steps (fun st => snapshot_fields st = v).
Proof.
  constructor; [constructor|..]; intros; try assumption.
  - rewrite <- H0. unfold snapshot_fields.
    destruct (log_call_module_variables msg st) as (_ & E2 & E3 & _).
    rewrite E2, E3. reflexivity.
  - rewrite <- H0. unfold snapshot_fields.
    destruct (process_exit_module_variables code st) as (_ & _ & E3 & E4 & _).
    rewrite E3, E4. reflexivity.
Qed.

Lemma snapshot_fields_components st v :
  snapshot_fields st = v ->
  registered_handlers_count st = fst v /\ on_done (tidy_exit_event st) = snd v.
Proof. unfold snapshot_fields. intros <-. split; reflexivity. Qed.

(** The listeners called by a broadcast that returns are all unsubscribed. *)
Lemma forEach_listeners_unsubscribes source ls rest st :
  alive st ->
  on_tidyExit (tidy_exit_event st) = ls ++ rest ->
  let out := forEach (fun l => lift unsubscribe_first ;;; tidy_exit_listener l source)
                     ls st in
  fst out <> None -> on_tidyExit (tidy_exit_event (snd out)) = rest.
Proof.
  revert st. induction ls as [|l r IH]; intros st Ha Hs out; subst out.
  - intros _. exact Hs.
  - rewrite forEach_listeners_cons.
    assert (Hu : on_tidyExit (tidy_exit_event (unsubscribe_first st)) = r ++ rest).
    { unfold unsubscribe_first. cbn [tidy_exit_event set_tidy_exit_event on_tidyExit].
      rewrite Hs. reflexivity. }
    destruct (preserves_tidy_exit_listener
                (fun s => tidy_exit_event s = tidy_exit_event (unsubscribe_first st))
                l source (tidy_exit_event_handler_steps _)
                (unsubscribe_first st) Ha eq_refl) as [E A].
    destruct (tidy_exit_listener l source (unsubscribe_first st)) as [[u|] s1];
      cbn [fst snd] in E, A.
    + apply IH; [apply A; discriminate|]. rewrite E. exact Hu.
    + cbn [fst]. congruence.
Qed.

(** X6. A trigger takes its snapshot after subscribing the safety net, so the
    snapshot is the number of subscribed tasks plus one; it subscribes
    [_checkHandlersDone] to 'done' once more; and when the broadcast returns
    every subscriber has been called and unsubscribed, so that a later
    trigger only reaches what is subscribed after this one. *)
Theorem trigger_consumes_the_subscribers :
  forall signal st,
    alive st ->
    let out := _emittidyExitEvent signal st in
    registered_handlers_count (snd out)
    = Z.of_nat (S (List.length (on_tidyExit (tidy_exit_event st))))
    /\ on_done (tidy_exit_event (snd out)) = S (on_done (tidy_exit_event st))
    /\ (fst out <> None -> on_tidyExit (tidy_exit_event (snd out)) = []).
Proof.
  intros signal st Ha out. subst out. rewrite emittidyExitEvent_unfold.
  assert (E := registerDefaultTimeoutHandler_outcome_fields st).
  assert (Ha1 := outcome_fields_alive _ _ E Ha). clear E.
  assert (Hs : on_tidyExit (tidy_exit_event (_registerDefaultTimeoutHandler st))
               = on_tidyExit (tidy_exit_event st)
                   ++ [{| appExitHandler := default_exit_handler;
                          desc := VStr "default timeout handler" |}]).
  { unfold _registerDefaultTimeoutHandler.
    cbn [tidy_exit_event set_tidy_exit_event on_tidyExit].
    apply addTidyExitHandler_registry. }
  assert (Hd : on_done (tidy_exit_event (_registerDefaultTimeoutHandler st))
               = S (on_done (tidy_exit_event st))).
  { unfold _registerDefaultTimeoutHandler.
    cbn [tidy_exit_event set_tidy_exit_event on_done]. f_equal.
    destruct (registerExitListeners_tracker_fields st) as [T _].
    unfold tracker_fields in T. injection T as _ T2 _ _ _ _ _.
    unfold addTidyExitHandler. rewrite js_gt_undefined.
    cbn [tidy_exit_event set_tidy_exit_event on_done]. rewrite T2. reflexivity. }
  remember (_registerDefaultTimeoutHandler st) as s1 eqn:Es1. clear Es1.
  unfold emit_tidy_exit.
  set (s2 := set_registered_handlers_count
               (Z.of_nat (List.length (on_tidyExit (tidy_exit_event s1)))) s1).
  set (ls := on_tidyExit (tidy_exit_event s2)).
  set (s3 := in_world _ s2).
  assert (Els : ls = on_tidyExit (tidy_exit_event s1)) by reflexivity.
  assert (Ha3 : alive s3) by exact Ha1.
  assert (E3 : snapshot_fields s3
               = (Z.of_nat (List.length (on_tidyExit (tidy_exit_event s1))),
                  on_done (tidy_exit_event s1))) by reflexivity.
  assert (T3 : on_tidyExit (tidy_exit_event s3) = ls ++ []).
  { rewrite app_nil_r. reflexivity. }
  clearbody ls s3. clear s2.
  assert (P : snapshot_fields
                (snd (forEach (fun l => lift unsubscribe_first ;;;
                                        tidy_exit_listener l signal) ls s3))
              = snapshot_fields s3).
  { apply (preserves_forEach (fun s => snapshot_fields s = snapshot_fields s3));
      [|exact Ha3 | reflexivity].
    intros l. apply preserves_bind.
    - apply preserves_lift. intros s Hs' Hp. split; [exact Hp | exact Hs'].
    - intros _. apply preserves_tidy_exit_listener, snapshot_fields_handler_steps. }
  rewrite E3 in P. apply snapshot_fields_components in P. destruct P as [P1 P2].
  split; [|split].
  - rewrite P1, Hs, length_app. cbn [List.length fst]. lia.
  - rewrite P2. exact Hd.
  - apply (forEach_listeners_unsubscribes signal ls [] s3 Ha3 T3).
Qed.

Lemma trigger_consumes_the_subscribers_witness :
  let st := addTidyExitHandler (app_exit_handler 0) (VStr "slow") JUndefined
              node_stubbed in
  registered_handlers_count (snd (_emittidyExitEvent (VStr "SIGTERM") st)) = 2
  /\ on_tidyExit (tidy_exit_event (snd (_emittidyExitEvent (VStr "SIGTERM") st))) = [].
Proof.
  destruct (trigger_consumes_the_subscribers (VStr "SIGTERM")
              (addTidyExitHandler (app_exit_handler 0) (VStr "slow") JUndefined
                 node_stubbed)) as (H1 & _ & H3).
  - vm_compute. reflexivity.
  - split; [exact H1 | apply H3; vm_compute; discriminate].
Defined.

(* ------------------------------------------------------------------------ *)
(** ** The first broadcast, from trigger to exit *)
(* ------------------------------------------------------------------------ *)

Lemma increment_at_last r c : increment_at (List.length r) (r ++ [c]) = r ++ [c + 1].
Proof. induction r as [|x r IH]; cbn; [reflexivity | f_equal; exact IH]. Qed.

Lemma progress_frame st st' counters snapshot exits :
  handler_callback_registry st' = handler_callback_registry st ->
  snapshot_fields st' = snapshot_fields st ->
  outcome_fields st' = outcome_fields st ->
  progress st counters snapshot exits -> progress st' counters snapshot exits.
Proof.
  intros E1 E2 E3 (P1 & P2 & P3 & P4 & P5).
  destruct (outcome_fields_components _ _ E3) as (O1 & O2 & _).
  destruct (snapshot_fields_components _ _ E2) as [S1 S2]. cbn [fst snd] in S1, S2.
  unfold progress. rewrite E1, S1, S2, O1, O2. auto.
Qed.

Lemma log_call_progress msg st counters snapshot exits :
  progress st counters snapshot exits ->
  progress (log_call msg st) counters snapshot exits.
Proof.
  apply progress_frame.
  - apply log_call_module_variables.
  - unfold snapshot_fields.
    destruct (log_call_module_variables msg st) as (_ & E2 & E3 & _).
    rewrite E2, E3. reflexivity.
  - apply log_call_outcome_fields.
Qed.

Lemma mark_done_last r c st :
  handler_callback_registry st = r ++ [c] ->
  mark_done (JNum (Z.of_nat (List.length r) + 1)) st
  = set_handler_callback_registry (r ++ [c + 1]) st.
Proof.
  intros P1. unfold mark_done, js_le, truthy, to_number. rewrite P1, length_app.
  cbn [List.length].
  destruct (Z.of_nat (List.length r) + 1 =? 0) eqn:E0; [lia|]. cbn [negb].
  destruct (Z.of_nat (List.length r) + 1 <=? Z.of_nat (List.length r + 1)) eqn:E1;
    [|lia].
  unfold increment_slot.
  destruct (1 <=? Z.of_nat (List.length r) + 1) eqn:E2; [|lia].
  replace (Z.to_nat (Z.of_nat (List.length r) + 1 - 1)) with (List.length r) by lia.
  rewrite increment_at_last. reflexivity.
Qed.

(** A check made while the registry is shorter than the snapshot marks the
    slot and returns [false]. *)
Lemma check_before_last r c snapshot exits st :
  progress st (r ++ [c]) snapshot exits ->
  Z.of_nat (List.length r) + 1 < snapshot ->
  let out := _checkHandlersDone (JNum (Z.of_nat (List.length r) + 1)) st in
  fst out = Some false /\ progress (snd out) (r ++ [c + 1]) snapshot exits.
Proof.
  intros (P1 & P2 & P3 & P4 & P5) Hlt out. subst out.
  rewrite checkHandlersDone_decomposed, (mark_done_last r c st P1).
  assert (Hd : isFullyDrained (set_handler_callback_registry (r ++ [c + 1]) st) = false).
  { unfold isFullyDrained.
    cbn [registered_handlers_count handler_callback_registry
         set_handler_callback_registry].
    rewrite P2, length_app. cbn [List.length].
    destruct (snapshot <=? Z.of_nat (List.length r + 1)) eqn:E; [lia | reflexivity]. }
  rewrite (exit_if_drained_false _ Hd). cbn [fst snd].
  split; [reflexivity|]. unfold progress.
  cbn [registered_handlers_count handler_callback_registry
       set_handler_callback_registry tidy_exit_event env].
  auto.
Qed.

Lemma emit_done_before_last r c snapshot exits st :
  progress st (r ++ [c]) snapshot exits ->
  Z.of_nat (List.length r) + 1 < snapshot ->
  let out := emit_done (JNum (Z.of_nat (List.length r) + 1)) st in
  fst out = Some tt /\ progress (snd out) (r ++ [c + 1]) snapshot exits.
Proof.
  intros P Hlt out. subst out. unfold emit_done.
  destruct P as (P1 & P2 & P3 & P4 & P5). rewrite P3.
  cbn [call_each]. unfold bind.
  destruct (check_before_last r c snapshot exits st
              (conj P1 (conj P2 (conj P3 (conj P4 P5)))) Hlt) as [F Q].
  destruct (_checkHandlersDone (JNum (Z.of_nat (List.length r) + 1)) st)
    as [[b|] s1]; cbn [fst snd] in F, Q; [|discriminate].
  cbn [ret fst snd]. auto.
Qed.

Lemma done_calls_before_last n r c snapshot exits st :
  progress st (r ++ [c]) snapshot exits ->
  Z.of_nat (List.length r) + 1 < snapshot ->
  let out := call_each n (emit_done (JNum (Z.of_nat (List.length r) + 1))) st in
  fst out = Some tt /\ progress (snd out) (r ++ [c + Z.of_nat n]) snapshot exits.
Proof.
  revert c st. induction n as [|n IH]; intros c st P Hlt out; subst out.
  - cbn [call_each ret fst snd]. rewrite Z.add_0_r. auto.
  - cbn [call_each]. unfold bind.
    destruct (emit_done_before_last r c snapshot exits st P Hlt) as [F Q].
    destruct (emit_done (JNum (Z.of_nat (List.length r) + 1)) st) as [[u|] s1];
      cbn [fst snd] in F, Q; [|discriminate].
    destruct (IH (c + 1) s1 Q Hlt) as [F' Q'].
    split; [exact F'|].
    replace (c + Z.of_nat (S n)) with (c + 1 + Z.of_nat n) by lia. exact Q'.
Qed.

(** The state in which the subscribed closure calls its handler. *)
Lemma listener_prologue l source st r snapshot exits :
  progress st r snapshot exits ->
  exists st3,
    tidy_exit_listener l source st
    = run_exit_handler (appExitHandler l)
        (emit_done (JNum (Z.of_nat (List.length r) + 1))) st3
    /\ progress st3 (r ++ [0]) snapshot exits
    /\ exit_returns (env st3) = exit_returns (env st).
Proof.
  intros P. assert (P' := P). destruct P' as (P1 & _).
  eexists. split.
  - unfold tidy_exit_listener. rewrite P1, length_app. cbn [List.length].
    replace (Z.of_nat (List.length r + 1)) with (Z.of_nat (List.length r) + 1) by lia.
    reflexivity.
  - match goal with
    | |- progress (in_world _ (log_call ?msg ?s1)) _ _ _ /\ _ =>
        assert (Q : progress (log_call msg s1) (r ++ [0]) snapshot exits);
        [apply log_call_progress;
         destruct P as (Q1 & Q2 & Q3 & Q4 & Q5); unfold progress;
         cbn [registered_handlers_count handler_callback_registry
              set_handler_callback_registry tidy_exit_event env];
         auto |];
        assert (T : exit_returns (env (log_call msg s1)) = exit_returns (env s1))
          by (unfold log_call; destruct (log s1); reflexivity);
        remember (log_call msg s1) as s2 eqn:Es2; clear Es2
    end.
    split; [exact Q | exact T].
Qed.

(** A subscriber that is not the last one of a first broadcast leaves the
    number of its [done] calls in its slot and the process alive. *)
Lemma listener_before_last l source st r snapshot exits :
  progress st r snapshot exits ->
  Z.of_nat (List.length r) + 1 < snapshot ->
  let out := tidy_exit_listener l source st in
  fst out = Some tt
  /\ progress (snd out) (r ++ [Z.of_nat (done_calls l)]) snapshot exits.
Proof.
  intros P Hlt out. subst out.
  destruct (listener_prologue l source st r snapshot exits P)
    as (st3 & E & Q & _).
  rewrite E. clear E. unfold done_calls.
  destruct (appExitHandler l) as [|app|server|n]; cbn [run_exit_handler].
  - unfold _defaultExitHandler.
    destruct (default_exit_timer st3).
    + apply (emit_done_before_last r 0 snapshot exits st3 Q Hlt).
    + apply (emit_done_before_last r 0 snapshot exits); [|exact Hlt].
      revert Q. apply progress_frame; reflexivity.
  - unfold bind, lift.
    apply (emit_done_before_last r 0 snapshot exits); [|exact Hlt].
    revert Q. apply progress_frame; reflexivity.
  - cbn [lift fst snd]. split; [reflexivity|].
    revert Q. apply progress_frame; reflexivity.
  - apply (done_calls_before_last n r 0 snapshot exits st3 Q Hlt).
Qed.

(** The subscribers of a first broadcast that are not the last one. *)
Lemma listeners_before_last source ls st r snapshot exits :
  progress st r snapshot exits ->
  Z.of_nat (List.length r) + Z.of_nat (List.length ls) < snapshot ->
  let out := forEach (fun l => lift unsubscribe_first ;;; tidy_exit_listener l source)
                     ls st in
  fst out = Some tt
  /\ progress (snd out) (r ++ map (fun l => Z.of_nat (done_calls l)) ls) snapshot exits.
Proof.
  revert st r. induction ls as [|l ls IH]; intros st r P Hlt out; subst out.
  - cbn [forEach ret fst snd map]. rewrite app_nil_r. auto.
  - rewrite forEach_listeners_cons. cbn [List.length] in Hlt.
    assert (Pu : progress (unsubscribe_first st) r snapshot exits).
    { revert P. apply progress_frame; reflexivity. }
    destruct (listener_before_last l source (unsubscribe_first st) r snapshot exits Pu)
      as [F Q]; [lia|].
    destruct (tidy_exit_listener l source (unsubscribe_first st)) as [[u|] s1];
      cbn [fst snd] in F, Q; [|discriminate].
    destruct (IH s1 (r ++ [Z.of_nat (done_calls l)]) Q) as [F' Q'].
    { rewrite length_app. cbn [List.length]. lia. }
    split; [exact F'|]. cbn [map]. rewrite <- app_assoc in Q'. exact Q'.
Qed.

Lemma forEach_app {A} (f : A -> M unit) a b st :
  forEach f (a ++ b) st
  = match forEach f a st with
    | (Some _, s) => forEach f b s
    | (None, s) => (None, s)
    end.
Proof.
  revert st. induction a as [|x a IH]; intros st; [reflexivity|].
  cbn [app forEach]. unfold bind.
  destruct (f x st) as [[u|] s]; [apply IH | reflexivity].
Qed.

Lemma counters_all_done ls :
  forallb (fun counter => 1 <=? counter) (map (fun l => Z.of_nat (done_calls l)) ls)
  = forallb calls_done ls.
Proof.
  induction ls as [|l ls IH]; [reflexivity|]. cbn [map forallb]. rewrite IH.
  f_equal. unfold calls_done.
  destruct (Nat.ltb_spec 0 (done_calls l)); lia.
Qed.

(** The [done] of the last subscriber of a first broadcast: it exits with 0
    when every earlier slot is marked, and keeps waiting otherwise. *)
Lemma last_check r snapshot exits st :
  progress st (r ++ [0]) snapshot exits ->
  Z.of_nat (List.length r) + 1 = snapshot ->
  let out := emit_done (JNum (Z.of_nat (List.length r) + 1)) st in
  (forallb (fun counter => 1 <=? counter) r = true ->
     exit_calls (env (snd out)) = exits ++ [0]
     /\ fst out = if exit_returns (env st) then Some tt else None)
  /\ (forallb (fun counter => 1 <=? counter) r = false ->
        out = (Some tt, set_handler_callback_registry (r ++ [1]) st)).
Proof.
  intros (P1 & P2 & P3 & P4 & P5) Hs out. subst out.
  unfold emit_done. rewrite P3. cbn [call_each]. unfold bind.
  rewrite checkHandlersDone_decomposed, (mark_done_last r 0 st P1).
  cbn [Z.add].
  assert (Hd : isFullyDrained (set_handler_callback_registry (r ++ [1]) st)
               = forallb (fun counter => 1 <=? counter) r).
  { unfold isFullyDrained.
    cbn [registered_handlers_count handler_callback_registry
         set_handler_callback_registry].
    rewrite P2, length_app, forallb_app. cbn [List.length forallb].
    destruct (snapshot <=? Z.of_nat (List.length r + 1)) eqn:E; [|lia].
    cbn [andb]. rewrite !andb_true_r. reflexivity. }
  split; intros Hr; rewrite Hr in Hd.
  - destruct (exit_if_drained_true _ Hd) as (_ & _ & _ & _ & X & _ & F).
    destruct (exit_if_drained (set_handler_callback_registry (r ++ [1]) st))
      as [[b|] s1]; cbn [fst snd ret] in *.
    + split; [rewrite X; f_equal; exact P4|].
      cbn [env set_handler_callback_registry] in F.
      destruct (exit_returns (env st)); [reflexivity | discriminate].
    + split; [rewrite X; f_equal; exact P4|].
      cbn [env set_handler_callback_registry] in F.
      destruct (exit_returns (env st)); [discriminate | reflexivity].
  - rewrite (exit_if_drained_false _ Hd). reflexivity.
Qed.

(** The safety net runs last in a first broadcast. *)
Lemma last_listener l source st r snapshot exits :
  progress st r snapshot exits ->
  Z.of_nat (List.length r) + 1 = snapshot ->
  appExitHandler l = default_exit_handler ->
  let out := tidy_exit_listener l source st in
  (forallb (fun counter => 1 <=? counter) r = true ->
     exit_calls (env (snd out)) = exits ++ [0]
     /\ fst out = if exit_returns (env st) then Some tt else None)
  /\ (forallb (fun counter => 1 <=? counter) r = false ->
        fst out = Some tt
        /\ progress (snd out) (r ++ [1]) snapshot exits
        /\ isFullyDrained (snd out) = false).
Proof.
  intros P Hs Hl out. subst out.
  destruct (listener_prologue l source st r snapshot exits P) as (st3 & E & Q & R).
  rewrite E, Hl. clear E. cbn [run_exit_handler]. unfold _defaultExitHandler.
  match goal with
  | |- context [emit_done _ ?s] =>
      assert (Q4 : progress s (r ++ [0]) snapshot exits
                   /\ exit_returns (env s) = exit_returns (env st));
      [ destruct (default_exit_timer st3);
        [ split; [exact Q | exact R]
        | split; [revert Q; apply progress_frame; reflexivity | exact R] ]
      | remember s as st4 eqn:E4; clear E4 ]
  end.
  destruct Q4 as [Q4 R4].
  destruct (last_check r snapshot exits st4 Q4 Hs) as [A B].
  split; intros Hr.
  - rewrite <- R4. apply A, Hr.
  - rewrite (B Hr). cbn [fst snd].
    destruct Q4 as (Q1 & Q2 & Q3 & Q5 & Q6).
    split; [reflexivity|]. split.
    + unfold progress.
      cbn [registered_handlers_count handler_callback_registry
           set_handler_callback_registry tidy_exit_event env].
      auto.
    + unfold isFullyDrained.
      cbn [registered_handlers_count handler_callback_registry
           set_handler_callback_registry].
      rewrite forallb_app, Hr. apply andb_false_iff. right. reflexivity.
Qed.

(** The state in which the subscribers of a first broadcast are called. *)
Lemma first_broadcast_start signal st :
  alive st ->
  handler_callback_registry st = [] ->
  on_done (tidy_exit_event st) = 0%nat ->
  exists s3,
    _emittidyExitEvent signal st
    = forEach (fun l => lift unsubscribe_first ;;; tidy_exit_listener l signal)
        (on_tidyExit (tidy_exit_event st)
           ++ [{| appExitHandler := default_exit_handler;
                  desc := VStr "default timeout handler" |}]) s3
    /\ progress s3 [] (Z.of_nat (List.length (on_tidyExit (tidy_exit_event st))) + 1)
         (exit_calls (env st))
    /\ exit_returns (env s3) = exit_returns (env st)
    /\ timer_fields s3 = timer_fields st
    /\ timeout_fields s3 = timeout_fields st.
Proof.
  intros Ha Hr Hd. rewrite emittidyExitEvent_unfold.
  assert (E := registerDefaultTimeoutHandler_outcome_fields st).
  destruct (outcome_fields_components _ _ E) as (O1 & O2 & _).
  assert (O3 := outcome_fields_exit_returns _ _ E). clear E.
  assert (Hs : on_tidyExit (tidy_exit_event (_registerDefaultTimeoutHandler st))
               = on_tidyExit (tidy_exit_event st)
                   ++ [{| appExitHandler := default_exit_handler;
                          desc := VStr "default timeout handler" |}]).
  { unfold _registerDefaultTimeoutHandler.
    cbn [tidy_exit_event set_tidy_exit_event on_tidyExit].
    apply addTidyExitHandler_registry. }
  assert (Hd1 : on_done (tidy_exit_event (_registerDefaultTimeoutHandler st)) = 1%nat).
  { unfold _registerDefaultTimeoutHandler.
    cbn [tidy_exit_event set_tidy_exit_event on_done]. f_equal.
    destruct (registerExitListeners_tracker_fields st) as [T _].
    unfold tracker_fields in T. injection T as _ T2 _ _ _ _ _.
    unfold addTidyExitHandler. rewrite js_gt_undefined.
    cbn [tidy_exit_event set_tidy_exit_event on_done]. rewrite T2. exact Hd. }
  assert (Hr1 : handler_callback_registry (_registerDefaultTimeoutHandler st) = []).
  { unfold _registerDefaultTimeoutHandler.
    cbn [handler_callback_registry set_tidy_exit_event].
    rewrite (proj1 (addTidyExitHandler_registry _ _ _ st)). exact Hr. }
  assert (Ht1 : timer_fields (_registerDefaultTimeoutHandler st) = timer_fields st).
  { unfold _registerDefaultTimeoutHandler.
    rewrite <- (addTidyExitHandler_timer_fields default_exit_handler
                  (VStr "default timeout handler") JUndefined st).
    reflexivity. }
  assert (Hv1 : timeout_fields (_registerDefaultTimeoutHandler st) = timeout_fields st).
  { unfold _registerDefaultTimeoutHandler.
    rewrite <- (addTidyExitHandler_untimed_timeout_fields default_exit_handler
                  (VStr "default timeout handler") st).
    reflexivity. }
  remember (_registerDefaultTimeoutHandler st) as s1 eqn:Es1. clear Es1.
  unfold emit_tidy_exit.
  cbn [tidy_exit_event set_registered_handlers_count].
  rewrite Hs. eexists. split; [reflexivity|].
  split; [|split; [exact O3 | split; [exact Ht1 | exact Hv1]]].
  unfold progress.
  cbn [registered_handlers_count handler_callback_registry
       set_registered_handlers_count tidy_exit_event env in_world].
  split; [exact Hr1|]. split.
  { transitivity (Z.of_nat (List.length (on_tidyExit (tidy_exit_event st)) + 1));
      [rewrite length_app; reflexivity | lia]. }
  split; [exact Hd1|]. split; [exact O1 | exact (eq_trans O2 Ha)].
Qed.

Lemma broadcast_prefix_preserves P source ls st :
  handler_steps P ->
  (forall s, alive s -> P s -> P (unsubscribe_first s)) ->
  alive st -> P st ->
  P (snd (forEach (fun l => lift unsubscribe_first ;;; tidy_exit_listener l source)
                  ls st)).
Proof.
  intros HP Hu Ha H.
  apply (preserves_forEach P); [|exact Ha | exact H].
  intros l. apply preserves_bind.
  - apply preserves_lift. intros s Hs Hp. split; [apply Hu; assumption | exact Hs].
  - intros _. apply preserves_tidy_exit_listener, HP.
Qed.

(** X7. On the first trigger since the library was loaded or reset, tasks
    that all call [done] before they return make the process exit with 0
    during the broadcast, through the safety net's own [done]; if one of them
    has not called [done], the broadcast returns without any exit, the
    process is alive and the registry holds one counter per task, in
    subscription order, and 1 for the safety net. *)
Theorem first_trigger_exits_once_all_are_done :
  forall signal st,
    alive st ->
    handler_callback_registry st = [] ->
    on_done (tidy_exit_event st) = 0%nat ->
    let tasks := on_tidyExit (tidy_exit_event st) in
    let out := _emittidyExitEvent signal st in
    (forallb calls_done tasks = true ->
       exit_calls (env (snd out)) = exit_calls (env st) ++ [0]
       /\ fst out = if exit_returns (env st) then Some tt else None)
    /\ (forallb calls_done tasks = false ->
          fst out = Some tt
          /\ exit_calls (env (snd out)) = exit_calls (env st)
          /\ alive (snd out)
          /\ isFullyDrained (snd out) = false
          /\ handler_callback_registry (snd out)
             = map (fun l => Z.of_nat (done_calls l)) tasks ++ [1]).
Proof.
  intros signal st Ha Hr Hd tasks out. subst out.
  destruct (first_broadcast_start signal st Ha Hr Hd) as (s3 & E & P & R & _).
  rewrite E. clear E. fold tasks in P |- *.
  assert (A3 : alive s3) by apply P.
  assert (R4 := broadcast_prefix_preserves
                  (fun s => exit_returns (env s) = exit_returns (env st))
                  signal tasks s3
                  (ts_handlers _ (exit_returns_trigger_steps _))
                  (ts_unsubscribe _ (exit_returns_trigger_steps _)) A3 R).
  cbv beta in R4.
  destruct (listeners_before_last signal tasks s3 [] _ _ P) as [F Q].
  { cbn [List.length]. lia. }
  rewrite forEach_app.
  destruct (forEach (fun l => lift unsubscribe_first ;;; tidy_exit_listener l signal)
                    tasks s3) as [[u|] s4]; cbn [fst snd] in F, Q, R4; [|discriminate].
  cbn [app] in Q. rewrite forEach_listeners_cons.
  assert (Qu : progress (unsubscribe_first s4)
                 (map (fun l => Z.of_nat (done_calls l)) tasks)
                 (Z.of_nat (List.length tasks) + 1) (exit_calls (env st))).
  { revert Q. apply progress_frame; reflexivity. }
  destruct (last_listener {| appExitHandler := default_exit_handler;
                             desc := VStr "default timeout handler" |}
              signal (unsubscribe_first s4) _ _ _ Qu) as [A B].
  { rewrite length_map. reflexivity. }
  { reflexivity. }
  rewrite counters_all_done in A, B.
  destruct (tidy_exit_listener _ signal (unsubscribe_first s4)) as [[u'|] s5];
    cbn [fst snd forEach ret] in *.
  - split; intros Hall.
    + destruct (A Hall) as [X Y]. split; [exact X|].
      change (exit_returns (env (unsubscribe_first s4)))
        with (exit_returns (env s4)) in Y.
      rewrite R4 in Y. destruct (exit_returns (env st)); [reflexivity | discriminate].
    + destruct (B Hall) as (_ & (Q1 & Q2 & Q3 & Q4 & Q5) & D).
      split; [reflexivity|]. split; [exact Q4|]. split; [exact Q5|].
      split; [exact D | exact Q1].
  - split; intros Hall.
    + destruct (A Hall) as [X Y]. split; [exact X|].
      change (exit_returns (env (unsubscribe_first s4)))
        with (exit_returns (env s4)) in Y.
      rewrite R4 in Y. destruct (exit_returns (env st)); [discriminate | reflexivity].
    + destruct (B Hall) as (Y & _). discriminate.
Qed.

Lemma first_trigger_exits_once_all_are_done_witness :
  let st := addTidyExitHandler (app_exit_handler 1) (VStr "quick") JUndefined node in
  let slow := addTidyExitHandler (app_exit_handler 0) (VStr "slow") JUndefined st in
  _emittidyExitEvent (VStr "SIGTERM") st
  = (None, snd (_emittidyExitEvent (VStr "SIGTERM") st))
  /\ exit_calls (env (snd (_emittidyExitEvent (VStr "SIGTERM") st))) = [0]
  /\ exit_calls (env (snd (_emittidyExitEvent (VStr "SIGTERM") slow))) = []
  /\ handler_callback_registry (snd (_emittidyExitEvent (VStr "SIGTERM") slow))
     = [1; 0; 1].
Proof.
  assert (H := first_trigger_exits_once_all_are_done (VStr "SIGTERM")
                 (addTidyExitHandler (app_exit_handler 1) (VStr "quick") JUndefined node)
                 eq_refl eq_refl eq_refl).
  assert (H' := first_trigger_exits_once_all_are_done (VStr "SIGTERM")
                  (addTidyExitHandler (app_exit_handler 0) (VStr "slow") JUndefined
                     (addTidyExitHandler (app_exit_handler 1) (VStr "quick") JUndefined
                        node))
                  eq_refl eq_refl eq_refl).
  cbv zeta in H, H'.
  destruct H as [H _]. destruct H' as [_ H'].
  destruct (H ltac:(vm_compute; reflexivity)) as [X Y].
  destruct (H' ltac:(vm_compute; reflexivity)) as (_ & X' & _ & _ & Z').
  split; [vm_compute; reflexivity|].
  split; [exact X|]. split; [exact X' | exact Z'].
Defined.

Lemma getTimeout_of_timeout_fields s s0 :
  timeout_fields s = timeout_fields s0 -> getTimeout s = getTimeout s0.
Proof.
  intros E. destruct (timeout_fields_eq _ _ E) as [E1 E2].
  unfold getTimeout. rewrite E1, E2. reflexivity.
Qed.

Lemma arm_timer_armed v st :
  timer_for v st -> default_exit_timer st = None -> armed_for v (arm_timer st).
Proof.
  intros (V & [(T & _) | (id & _ & N)]) D; [|congruence].
  split; [exact V|]. exists (next_id (env st)).
  destruct (arm_timer_fields st) as [A B].
  split; [rewrite A, T; reflexivity | exact B].
Qed.

Lemma armed_for_callback_steps v : callback_steps (armed_for v).
Proof.
  constructor.
  - intros n st _ H. exact H.
  - intros msg st _ H. unfold log_call. destruct (log st); exact H.
  - intros code st _ H. unfold process_exit. destruct (exit_returns (env st)); exact H.
  - intros st _ D (_ & id & _ & N). congruence.
  - intros app st _ H. exact H.
  - intros server st _ H. exact H.
Qed.

Lemma timer_for_handler_steps v : handler_steps (timer_for v).
Proof.
  constructor; [constructor|..].
  - intros n st _ H. exact H.
  - intros msg st _ H. unfold log_call. destruct (log st); exact H.
  - intros code st _ H. unfold process_exit. destruct (exit_returns (env st)); exact H.
  - intros st _ D H. destruct (arm_timer_armed v st H D) as [V X].
    split; [exact V | right; exact X].
  - intros app st _ H. exact H.
  - intros server st _ H. exact H.
  - intros st _ H. exact H.
  - intros x st _ H. exact H.
Qed.

(** The safety net leaves its timer pending, whether it armed it or found
    it armed. *)
Lemma default_listener_arms v l source st :
  alive st -> timer_for v st -> appExitHandler l = default_exit_handler ->
  armed_for v (snd (tidy_exit_listener l source st)).
Proof.
  intros Ha H Hl. unfold tidy_exit_listener. rewrite Hl. cbn [run_exit_handler].
  match goal with
  | |- context [_defaultExitHandler ?d ?s] =>
      assert (Hd : preserves (armed_for v) d)
        by apply preserves_emit_done, armed_for_callback_steps;
      assert (A3 : alive s) by apply log_call_alive, Ha;
      assert (H3 : timer_for v s)
        by (apply (hs_invoked _ (timer_for_handler_steps v));
            [apply log_call_alive, Ha|];
            apply (hs_log _ (hs_callbacks _ (timer_for_handler_steps v)));
            [exact Ha|];
            apply (hs_push _ (timer_for_handler_steps v)); assumption);
      remember d as done eqn:Ed; clear Ed;
      remember s as st3 eqn:E3; clear E3
  end.
  unfold _defaultExitHandler. destruct (default_exit_timer st3) eqn:D.
  - apply Hd; [exact A3|].
    destruct H3 as (V & [(_ & N) | X]); [congruence|]. split; [exact V | exact X].
  - apply Hd; [exact A3|]. apply arm_timer_armed; assumption.
Qed.

Lemma fire_timer_not_drained st handle :
  existsb (fun p => Nat.eqb (fst p) handle) (timers (env st)) = true ->
  isFullyDrained st = false ->
  exit_calls (env (snd (fire_timer handle st))) = exit_calls (env st) ++ [1].
Proof.
  intros Hp D. unfold fire_timer. rewrite Hp.
  destruct (clearTimeout_drained (Some handle) st) as (C1 & C2 & _).
  rewrite suicide_timeout_not_drained by (rewrite C1; exact D).
  rewrite C2. reflexivity.
Qed.

(** X8. A task that has not called [done] when the first broadcast returns
    leaves the process to the safety net: one timer is pending, armed for
    the timeout resolved when the trigger arrived, and when it fires the
    process exits with 1. *)
Theorem straggler_is_cut_off_by_the_timer :
  forall signal st,
    alive st ->
    handler_callback_registry st = [] ->
    on_done (tidy_exit_event st) = 0%nat ->
    timers (env st) = [] ->
    default_exit_timer st = None ->
    forallb calls_done (on_tidyExit (tidy_exit_event st)) = false ->
    let st' := snd (_emittidyExitEvent signal st) in
    exists id,
      timers (env st') = [(id, getTimeout st)]
      /\ default_exit_timer st' = Some id
      /\ exit_calls (env st') = exit_calls (env st)
      /\ exit_calls (env (snd (fire_timer id st'))) = exit_calls (env st) ++ [1].
Proof.
  intros signal st Ha Hr Hd Ht Hn Hall st'. subst st'.
  destruct (first_broadcast_start signal st Ha Hr Hd) as (s3 & E & P & _ & T3 & V3).
  rewrite E. clear E.
  assert (A3 : alive s3) by apply P.
  assert (H3 : timer_for (timeout_fields st) s3).
  { unfold timer_fields in T3. injection T3 as T31 T32.
    split; [exact V3|]. left. split; congruence. }
  assert (H4 := broadcast_prefix_preserves (timer_for (timeout_fields st))
                  signal (on_tidyExit (tidy_exit_event st)) s3
                  (timer_for_handler_steps _) (fun s _ H => H) A3 H3).
  destruct (listeners_before_last signal (on_tidyExit (tidy_exit_event st))
              s3 [] _ _ P) as [F Q].
  { cbn [List.length]. lia. }
  rewrite forEach_app.
  destruct (forEach (fun l => lift unsubscribe_first ;;; tidy_exit_listener l signal)
                    (on_tidyExit (tidy_exit_event st)) s3) as [[u|] s4];
    cbn [fst snd] in F, Q, H4; [|discriminate].
  cbn [app] in Q. rewrite forEach_listeners_cons.
  assert (Qu : progress (unsubscribe_first s4)
                 (map (fun l => Z.of_nat (done_calls l))
                      (on_tidyExit (tidy_exit_event st)))
                 (Z.of_nat (List.length (on_tidyExit (tidy_exit_event st))) + 1)
                 (exit_calls (env st))).
  { revert Q. apply progress_frame; reflexivity. }
  assert (A4 : alive (unsubscribe_first s4)) by apply Qu.
  destruct (last_listener {| appExitHandler := default_exit_handler;
                             desc := VStr "default timeout handler" |}
              signal (unsubscribe_first s4) _ _ _ Qu) as [_ B].
  { rewrite length_map. reflexivity. }
  { reflexivity. }
  rewrite counters_all_done in B.
  destruct (B Hall) as (_ & (_ & _ & _ & X & _) & D). clear B.
  assert (T := default_listener_arms (timeout_fields st)
                 {| appExitHandler := default_exit_handler;
                    desc := VStr "default timeout handler" |}
                 signal (unsubscribe_first s4) A4 H4 eq_refl).
  destruct (tidy_exit_listener _ signal (unsubscribe_first s4)) as [[u'|] s5];
    cbn [fst snd forEach ret] in *.
  - destruct T as (V & id & T1 & T2).
    exists id. rewrite <- (getTimeout_of_timeout_fields _ _ V).
    split; [exact T1|]. split; [exact T2|]. split; [exact X|].
    rewrite <- X. apply fire_timer_not_drained; [|exact D].
    rewrite T1. cbn [existsb fst]. rewrite Nat.eqb_refl. reflexivity.
  - destruct T as (V & id & T1 & T2).
    exists id. rewrite <- (getTimeout_of_timeout_fields _ _ V).
    split; [exact T1|]. split; [exact T2|]. split; [exact X|].
    rewrite <- X. apply fire_timer_not_drained; [|exact D].
    rewrite T1. cbn [existsb fst]. rewrite Nat.eqb_refl. reflexivity.
Qed.

Lemma straggler_is_cut_off_by_the_timer_witness :
  let st := addTidyExitHandler (app_exit_handler 0) (VStr "slow") (JNum 500) node in
  exists id,
    timers (env (snd (_emittidyExitEvent (VStr "SIGTERM") st))) = [(id, JNum 500)]
    /\ default_exit_timer (snd (_emittidyExitEvent (VStr "SIGTERM") st)) = Some id
    /\ exit_calls (env (snd (_emittidyExitEvent (VStr "SIGTERM") st))) = []
    /\ exit_calls (env (snd (fire_timer id
                               (snd (_emittidyExitEvent (VStr "SIGTERM") st))))) = [1].
Proof.
  exact (straggler_is_cut_off_by_the_timer (VStr "SIGTERM")
           (addTidyExitHandler (app_exit_handler 0) (VStr "slow") (JNum 500) node)
           eq_refl eq_refl eq_refl eq_refl eq_refl eq_refl).
Defined.

(* ------------------------------------------------------------------------ *)
(** ** The logger *)
(* ------------------------------------------------------------------------ *)

Lemma log_call_quiet msg v st : quiet v st -> log_call msg st = st.
Proof. intros [H _]. unfold log_call. rewrite H. reflexivity. Qed.

Lemma registerExitListeners_quiet v st :
  quiet v st -> quiet v (_registerExitListeners st).
Proof.
  intros [H1 H2]. split.
  - destruct (registerExitListeners_tracker_fields st) as [T _].
    unfold tracker_fields in T. injection T as T1 _ _ _ _ _ _. congruence.
  - unfold _registerExitListeners. destruct (listening_to_exit st) as [[|]|]; exact H2.
Qed.

Lemma addTidyExitHandler_quiet h d t v st :
  quiet v st -> quiet v (addTidyExitHandler h d t st).
Proof.
  intros H. apply registerExitListeners_quiet in H.
  unfold addTidyExitHandler. destruct (js_gt _ _); exact H.
Qed.

Lemma quiet_trigger_steps v : trigger_steps (quiet v).
Proof.
  constructor; [constructor; [constructor|..]|..].
  - intros n st _ H. exact H.
  - intros msg st _ H. rewrite (log_call_quiet msg v st H). exact H.
  - intros code st _ H. unfold process_exit. destruct (exit_returns (env st)); exact H.
  - intros st _ _ H. exact H.
  - intros app st _ H. exact H.
  - intros server st _ H. exact H.
  - intros st _ H. exact H.
  - intros x st _ H. exact H.
  - intros x st _ H. exact H.
  - intros st _ H. exact H.
  - intros st _ H. unfold _registerDefaultTimeoutHandler.
    apply (addTidyExitHandler_quiet default_exit_handler
             (VStr "default timeout handler") JUndefined) in H.
    exact H.
  - intros n st _ H. exact H.
  - intros name h st _ H. exact H.
  - intros handle st _ H. exact H.
Qed.

Lemma remove_tracked_quiet signal v st h :
  quiet v st -> quiet v (remove_tracked signal st h).
Proof.
  intros H. unfold remove_tracked. destruct (existsb _ _); [exact H|].
  destruct (remove_absent_throws _ _); [|exact H].
  rewrite (log_call_quiet _ v st H). exact H.
Qed.

Lemma fold_left_keeps {A} (P : state -> Prop) (f : state -> A -> state) l :
  (forall st x, P st -> P (f st x)) -> forall st, P st -> P (fold_left f l st).
Proof.
  intros Hf. induction l as [|x r IH]; intros st H; cbn [fold_left]; [exact H|].
  apply IH, Hf, H.
Qed.

Lemma cleanup_signal_quiet v st signal :
  quiet v st -> quiet v (cleanup_signal st signal).
Proof.
  intros H. unfold cleanup_signal.
  destruct (obj_get signal _) as [[hs|]|]; try exact H.
  change (quiet v (fold_left (remove_tracked signal) hs st)).
  apply fold_left_keeps; [|exact H]. intros. apply remove_tracked_quiet. assumption.
Qed.

Lemma cleanupExitListeners_quiet v st :
  quiet v st -> quiet v (_cleanupExitListeners st).
Proof.
  intros H. unfold _cleanupExitListeners.
  destruct (exit_signal_handlers st); [|exact H].
  change (quiet v (fold_left cleanup_signal (map fst l) st)).
  apply fold_left_keeps; [|exact H]. intros. apply cleanup_signal_quiet. assumption.
Qed.

Lemma init_quiet st : quiet (logged (env st)) (_init st).
Proof.
  unfold _init.
  match goal with
  | |- context [clearTimeout ?t ?s] =>
      change (quiet (logged (env st)) (clearTimeout t s));
      assert (H : quiet (logged (env st)) s); [|destruct t; exact H]
  end.
  change (quiet (logged (env st))
            (_cleanupExitListeners
               (set_log default_logger
                  (set_tidy_exit_event {| on_tidyExit := []; on_done := 0 |}
                     (set_registered_handlers_count 0
                        (set_handler_callback_registry [] st)))))).
  apply cleanupExitListeners_quiet. split; reflexivity.
Qed.

Lemma hookExpressApp_quiet app v st :
  quiet v st -> quiet v (snd (hookExpressApp app st)).
Proof.
  intros H. unfold hookExpressApp. destruct (app_get_state app st); [exact H|].
  cbn [snd]. apply addTidyExitHandler_quiet. exact H.
Qed.

Lemma hookHttpServer_quiet server hook_apps v st :
  quiet v st -> quiet v (snd (hookHttpServer server hook_apps st)).
Proof.
  intros H. unfold hookHttpServer. cbn [snd].
  apply (addTidyExitHandler_quiet (http_exit_handler (server_id server))
           (VStr "httpServer") JUndefined) in H.
  assert (F : quiet v (fold_left _detectAndHookExpressApp (request_listeners server)
                         (addTidyExitHandler (http_exit_handler (server_id server))
                            (VStr "httpServer") JUndefined st))).
  { apply fold_left_keeps; [|exact H]. intros s x Hs.
    unfold _detectAndHookExpressApp.
    destruct (forallb _ _); [apply hookExpressApp_quiet, Hs | exact Hs]. }
  destruct hook_apps as [| |[|]| | | |]; assumption.
Qed.

Lemma quiet_step v ev st :
  is_set_logger ev = false -> quiet v st -> quiet v (step st ev).
Proof.
  intros Hev H. unfold step. destruct (halted (env st)) eqn:Ha; [exact H|].
  destruct ev; try discriminate; cbn [handle_event lift snd].
  - apply addTidyExitHandler_quiet, H.
  - exact H.
  - destruct H as [_ <-]. apply init_quiet.
  - apply hookExpressApp_quiet, H.
  - apply hookHttpServer_quiet, H.
  - apply (preserves_process_emit (quiet v)); [apply quiet_trigger_steps | exact Ha | exact H].
  - apply (preserves_fire_timer (quiet v)); [apply quiet_trigger_steps | exact Ha | exact H].
  - apply (preserves_emit_done (quiet v)); [|exact Ha | exact H].
    apply quiet_trigger_steps.
Qed.

Lemma quiet_run v evs st :
  forallb (fun ev => negb (is_set_logger ev)) evs = true ->
  quiet v st -> quiet v (run evs st).
Proof.
  revert st. induction evs as [|ev evs IH]; intros st Hev H; [exact H|].
  cbn [forallb] in Hev. apply andb_true_iff in Hev. destruct Hev as [He Hs].
  apply negb_true_iff in He.
  change (quiet v (run evs (step st ev))).
  apply IH; [exact Hs|]. apply quiet_step; assumption.
Qed.

(** X9. A reset silences the library.  [_init] puts the default logger back
    before it removes the process listeners, so the reset itself hands no
    message to a logger set earlier, not even the one about a removal that
    throws; and until [setLogger] is called again no trigger, timer or
    completion callback hands one either. *)
Theorem reset_silences_the_logger :
  forall st,
    log (_init st) = default_logger
    /\ logged (env (_init st)) = logged (env st)
    /\ (forall evs,
          forallb (fun ev => negb (is_set_logger ev)) evs = true ->
          log (run evs (_init st)) = default_logger
          /\ logged (env (run evs (_init st))) = logged (env st)).
Proof.
  intros st. destruct (init_quiet st) as [H1 H2].
  split; [exact H1|]. split; [exact H2|].
  intros evs Hev. apply (quiet_run _ evs (_init st) Hev). split; assumption.
Qed.

(* ------------------------------------------------------------------------ *)
(** ** Servers and applications *)
(* ------------------------------------------------------------------------ *)

Lemma hookExpressApp_same app st :
  find_app app (apps (env (snd (hookExpressApp app st))))
  = if unhooked app st then hooked (find_app app (apps (env st)))
    else find_app app (apps (env st)).
Proof.
  unfold hookExpressApp, unhooked.
  destruct (app_get_state app st) eqn:E; [reflexivity|]. cbn [snd].
  destruct (addTidyExitHandler_registry (express_exit_handler app) (VStr "expressApp")
              JUndefined (app_set_state app false (app_use_middleware app st)))
    as (_ & _ & E3).
  rewrite E3. unfold app_set_state, app_use_middleware.
  cbn [in_world set_env env apps set_apps].
  rewrite !find_app_store. reflexivity.
Qed.

Lemma hookExpressApp_other app app' st :
  app <> app' ->
  find_app app (apps (env (snd (hookExpressApp app' st))))
  = find_app app (apps (env st)).
Proof.
  intros Hn. unfold hookExpressApp.
  destruct (app_get_state app' st) eqn:E; [reflexivity|]. cbn [snd].
  destruct (addTidyExitHandler_registry (express_exit_handler app') (VStr "expressApp")
              JUndefined (app_set_state app' false (app_use_middleware app' st)))
    as (_ & _ & E3).
  rewrite E3. unfold app_set_state, app_use_middleware.
  cbn [in_world set_env env apps set_apps].
  rewrite !(find_app_store_other app app') by exact Hn. reflexivity.
Qed.

Lemma unhooked_hooked app st st' :
  find_app app (apps (env st')) = hooked (find_app app (apps (env st))) ->
  unhooked app st' = false.
Proof. intros E. unfold unhooked, app_get_state. rewrite E. reflexivity. Qed.

Lemma unhooked_same app st st' :
  find_app app (apps (env st')) = find_app app (apps (env st)) ->
  unhooked app st' = unhooked app st.
Proof. intros E. unfold unhooked, app_get_state. rewrite E. reflexivity. Qed.

(** Hooking the listeners of a server one after the other hooks each
    application they stand for once. *)
Lemma detect_all_hooks_once app ls st :
  find_app app (apps (env (fold_left _detectAndHookExpressApp ls st)))
  = if existsb (fun l => is_express l && Nat.eqb (listener_app l) app) ls
       && unhooked app st
    then hooked (find_app app (apps (env st)))
    else find_app app (apps (env st)).
Proof.
  revert st. induction ls as [|l ls IH]; intros st; [reflexivity|].
  cbn [fold_left existsb]. rewrite IH. clear IH.
  unfold _detectAndHookExpressApp. fold (is_express l).
  destruct (is_express l); cbn [andb orb]; [|reflexivity].
  destruct (Nat.eqb (listener_app l) app) eqn:E; cbn [orb].
  - apply Nat.eqb_eq in E. rewrite E.
    assert (S := hookExpressApp_same app st).
    destruct (unhooked app st) eqn:U.
    + rewrite (unhooked_hooked _ _ _ S), andb_false_r. exact S.
    + rewrite (unhooked_same _ _ _ S), U, andb_false_r. exact S.
  - apply Nat.eqb_neq in E.
    assert (S := hookExpressApp_other app (listener_app l) st (not_eq_sym E)).
    rewrite (unhooked_same _ _ _ S), S. reflexivity.
Qed.

(** X10. [hookHttpServer] looks at the ['request'] listeners of the server
    unless [hook_apps] is exactly [false]; [null], [0] and [undefined] do not
    switch the detection off.  An application is hooked when one of the
    listeners standing for it has [use], [set] and [get] and it does not
    carry the flag yet: it then gets the flag [false] and one copy of the
    middleware, however many listeners stand for it.  Every other
    application is left as it was. *)
Theorem hookHttpServer_hooks_each_app_once :
  forall server hook_apps st app,
    let st' := snd (hookHttpServer server hook_apps st) in
    find_app app (apps (env st'))
    = if negb (strictly_false hook_apps) && serves server app && unhooked app st
      then hooked (find_app app (apps (env st)))
      else find_app app (apps (env st)).
Proof.
  intros server hook_apps st app st'. subst st'.
  unfold hookHttpServer. cbn [snd].
  destruct (addTidyExitHandler_registry (http_exit_handler (server_id server))
              (VStr "httpServer") JUndefined st) as (_ & _ & E3).
  assert (U : unhooked app (addTidyExitHandler (http_exit_handler (server_id server))
                              (VStr "httpServer") JUndefined st)
              = unhooked app st).
  { apply unhooked_same. rewrite E3. reflexivity. }
  assert (F := detect_all_hooks_once app (request_listeners server)
                 (addTidyExitHandler (http_exit_handler (server_id server))
                    (VStr "httpServer") JUndefined st)).
  rewrite U, E3 in F. fold (serves server app) in F.
  destruct hook_apps as [| |[|]| | | |]; cbn [strictly_false negb andb];
    first [exact F | rewrite E3; reflexivity].
Qed.

Lemma reset_silences_the_logger_witness :
  let st := reached false (fun _ => true)
              [call_setLogger 7;
               call_addTidyExitHandler 0 (VStr "slow") JUndefined;
               process_event "SIGTERM" VUndefined] in
  let evs := [call_addTidyExitHandler 0 (VStr "slow") JUndefined;
              process_event "SIGINT" VUndefined;
              timer_fires 9] in
  List.length (logged (env st)) = 2%nat
  /\ logged (env (run evs (_init st))) = logged (env st).
Proof.
  split; [vm_compute; reflexivity|].
  apply (proj2 (proj2 (reset_silences_the_logger
                         (reached false (fun _ => true)
                            [call_setLogger 7;
                             call_addTidyExitHandler 0 (VStr "slow") JUndefined;
                             process_event "SIGTERM" VUndefined])))
           [call_addTidyExitHandler 0 (VStr "slow") JUndefined;
            process_event "SIGINT" VUndefined;
            timer_fires 9]).
  vm_compute. reflexivity.
Defined.

Lemma raised_callback_steps app :
  callback_steps (fun s => app_get_state app s = Some true).
Proof.
  constructor.
  - intros n st _ H. exact H.
  - intros msg st _ H. unfold log_call. destruct (log st); exact H.
  - intros code st _ H. unfold process_exit. destruct (exit_returns (env st)); exact H.
  - intros st _ _ H. exact H.
  - intros app' st _ H. unfold app_get_state, app_set_state.
    cbn [in_world set_env env apps set_apps].
    destruct (Nat.eq_dec app app') as [<-|Hn].
    + rewrite find_app_store. reflexivity.
    + rewrite (find_app_store_other app app') by exact Hn. exact H.
  - intros server st _ H. exact H.
Qed.

Lemma raised_handler_steps app :
  handler_steps (fun s => app_get_state app s = Some true).
Proof.
  constructor; [apply raised_callback_steps|..].
  - intros st _ H. exact H.
  - intros x st _ H. exact H.
Qed.

Lemma raised_trigger_steps app :
  trigger_steps (fun s => app_get_state app s = Some true).
Proof.
  constructor; [apply raised_handler_steps|..].
  - intros x st _ H. exact H.
  - intros st _ H. exact H.
  - intros st _ H. unfold _registerDefaultTimeoutHandler.
    unfold app_get_state in *.
    cbn [env set_tidy_exit_event].
    rewrite (proj2 (proj2 (addTidyExitHandler_registry default_exit_handler
                             (VStr "default timeout handler") JUndefined st))).
    exact H.
  - intros n st _ H. exact H.
  - intros name h st _ H. exact H.
  - intros handle st _ H. exact H.
Qed.

Lemma unit_handler_steps : handler_steps (fun _ => True).
Proof. constructor; [constructor|..]; intros; exact I. Qed.

(** The task of [hookExpressApp] raises the flag of its application. *)
Lemma express_listener_raises l source app st :
  alive st ->
  appExitHandler l = express_exit_handler app ->
  app_get_state app (snd (tidy_exit_listener l source st)) = Some true.
Proof.
  intros Ha Hl. unfold tidy_exit_listener. rewrite Hl. cbn [run_exit_handler].
  match goal with
  | |- context [bind _ (fun _ => ?d) ?s0] =>
      assert (Hd : preserves (fun s => app_get_state app s = Some true) d)
        by apply preserves_emit_done, raised_callback_steps;
      assert (A3 : alive s0) by apply log_call_alive, Ha;
      remember d as done eqn:Ed; clear Ed;
      remember s0 as st3 eqn:E3; clear E3
  end.
  unfold bind, lift. apply Hd; [exact A3|].
  unfold app_get_state, app_set_state. cbn [in_world set_env env apps set_apps].
  rewrite find_app_store. reflexivity.
Qed.

Lemma broadcast_raises source app l ls st :
  alive st ->
  In l ls ->
  appExitHandler l = express_exit_handler app ->
  let out := forEach (fun l => lift unsubscribe_first ;;; tidy_exit_listener l source)
                     ls st in
  fst out <> None -> app_get_state app (snd out) = Some true.
Proof.
  revert st. induction ls as [|x r IH]; intros st Ha Hin Hl out; subst out;
    [contradiction|].
  rewrite forEach_listeners_cons.
  assert (Au : alive (unsubscribe_first st)) by exact Ha.
  destruct (preserves_tidy_exit_listener (fun _ => True) x source unit_handler_steps
              (unsubscribe_first st) Au I) as [_ A1].
  destruct Hin as [<-|Hin].
  - assert (R := express_listener_raises x source app (unsubscribe_first st) Au Hl).
    destruct (tidy_exit_listener x source (unsubscribe_first st)) as [[u|] s1];
      cbn [fst snd] in *; [|congruence].
    intros _.
    apply (broadcast_prefix_preserves (fun s => app_get_state app s = Some true)
             source r s1 (raised_handler_steps app) (fun s _ H => H));
      [apply A1; discriminate | exact R].
  - destruct (tidy_exit_listener x source (unsubscribe_first st)) as [[u|] s1];
      cbn [fst snd] in *; [|congruence].
    apply IH; [apply A1; discriminate | exact Hin | exact Hl].
Qed.

Lemma init_apps st : apps (env (_init st)) = apps (env st).
Proof.
  unfold _init.
  match goal with
  | |- context [clearTimeout ?t ?s] =>
      change (apps (env (clearTimeout t s)) = apps (env st));
      transitivity (apps (env s)); [destruct t; reflexivity|]
  end.
  change (apps (env (_cleanupExitListeners
                       (set_log default_logger
                          (set_tidy_exit_event {| on_tidyExit := []; on_done := 0 |}
                             (set_registered_handlers_count 0
                                (set_handler_callback_registry [] st))))))
          = apps (env st)).
  match goal with
  | |- apps (env (_cleanupExitListeners ?s0)) = _ =>
      transitivity (apps (env s0)); [|reflexivity]; generalize s0
  end.
  intros s. unfold _cleanupExitListeners.
  destruct (exit_signal_handlers s); [|reflexivity].
  change (apps (env (fold_left cleanup_signal (map fst l) s)) = apps (env s)).
  apply (fold_left_frame cleanup_signal (fun s => apps (env s))).
  intros s' signal. unfold cleanup_signal.
  destruct (obj_get signal _) as [[hs|]|]; try reflexivity.
  change (apps (env (fold_left (remove_tracked signal) hs s')) = apps (env s')).
  apply (fold_left_frame (remove_tracked signal) (fun s => apps (env s))).
  intros s'' h. unfold remove_tracked. destruct (existsb _ _); [reflexivity|].
  destruct (remove_absent_throws _ _); [|reflexivity].
  unfold log_call. destruct (log s''); reflexivity.
Qed.

Lemma hookHttpServer_keeps_hooked app server hook_apps st :
  unhooked app st = false ->
  find_app app (apps (env (snd (hookHttpServer server hook_apps st))))
  = find_app app (apps (env st)).
Proof.
  intros Hu. unfold hookHttpServer. cbn [snd].
  destruct (addTidyExitHandler_registry (http_exit_handler (server_id server))
              (VStr "httpServer") JUndefined st) as (_ & _ & E3).
  assert (U : unhooked app (addTidyExitHandler (http_exit_handler (server_id server))
                              (VStr "httpServer") JUndefined st) = false).
  { transitivity (unhooked app st); [|exact Hu].
    apply unhooked_same. rewrite E3. reflexivity. }
  assert (F := detect_all_hooks_once app (request_listeners server)
                 (addTidyExitHandler (http_exit_handler (server_id server))
                    (VStr "httpServer") JUndefined st)).
  rewrite U, andb_false_r, E3 in F.
  destruct hook_apps as [| |[|]| | | |]; cbv beta iota;
    first [exact F | rewrite E3; reflexivity].
Qed.

Lemma raised_step app ev st :
  app_get_state app st = Some true -> app_get_state app (step st ev) = Some true.
Proof.
  intros H. unfold step. destruct (halted (env st)) eqn:Ha; [exact H|].
  destruct ev; cbn [handle_event lift snd].
  - unfold app_get_state in *.
    rewrite (proj2 (proj2 (addTidyExitHandler_registry _ _ _ st))). exact H.
  - exact H.
  - exact H.
  - unfold app_get_state in *. rewrite init_apps. exact H.
  - unfold app_get_state in *.
    destruct (Nat.eq_dec app app0) as [<-|Hn].
    + rewrite hookExpressApp_same. unfold unhooked, app_get_state. rewrite H. exact H.
    + rewrite (hookExpressApp_other app app0 st Hn). exact H.
  - unfold app_get_state in *.
    rewrite hookHttpServer_keeps_hooked;
      [exact H | unfold unhooked, app_get_state; rewrite H; reflexivity].
  - apply (preserves_process_emit (fun s => app_get_state app s = Some true));
      [apply raised_trigger_steps | exact Ha | exact H].
  - apply (preserves_fire_timer (fun s => app_get_state app s = Some true));
      [apply raised_trigger_steps | exact Ha | exact H].
  - apply (preserves_emit_done (fun s => app_get_state app s = Some true));
      [apply raised_callback_steps | exact Ha | exact H].
Qed.

(** X11. After a broadcast that returns, the application of every task
    subscribed by [hookExpressApp] carries the flag [true], and
    [_expresstidyExitHandler] puts the one-millisecond timeout on the
    connection of each of its requests.  Nothing lowers the flag again: not
    a reset, and not hooking the application a second time, which finds the
    flag and does nothing. *)
Theorem raised_flag_is_never_lowered :
  forall app,
    (forall signal l st,
        alive st ->
        In l (on_tidyExit (tidy_exit_event st)) ->
        appExitHandler l = express_exit_handler app ->
        fst (_emittidyExitEvent signal st) <> None ->
        _expresstidyExitHandler app (snd (_emittidyExitEvent signal st)) = Some 1)
    /\ (forall evs st,
          app_get_state app st = Some true ->
          _expresstidyExitHandler app (run evs st) = Some 1).
Proof.
  intros app. split.
  - intros signal l st Ha Hin Hl. rewrite emittidyExitEvent_unfold.
    assert (E := registerDefaultTimeoutHandler_outcome_fields st).
    assert (Ha1 := outcome_fields_alive _ _ E Ha). clear E.
    assert (Hs : In l (on_tidyExit (tidy_exit_event (_registerDefaultTimeoutHandler st)))).
    { unfold _registerDefaultTimeoutHandler.
      cbn [tidy_exit_event set_tidy_exit_event on_tidyExit].
      rewrite (proj1 (proj2 (addTidyExitHandler_registry _ _ _ st))).
      apply in_or_app. left. exact Hin. }
    remember (_registerDefaultTimeoutHandler st) as s1 eqn:Es1. clear Es1.
    unfold emit_tidy_exit.
    cbn [tidy_exit_event set_registered_handlers_count].
    intros Hret. unfold _expresstidyExitHandler.
    match type of Hret with
    | fst (forEach _ ?ls ?s0) <> None =>
        rewrite (broadcast_raises signal app l ls s0 Ha1 Hs Hl Hret)
    end.
    reflexivity.
  - intros evs. induction evs as [|ev evs IH]; intros st H.
    + unfold _expresstidyExitHandler. cbn [run fold_left]. rewrite H. reflexivity.
    + change (_expresstidyExitHandler app (run evs (step st ev)) = Some 1).
      apply IH, raised_step, H.
Qed.

Lemma raised_flag_is_never_lowered_witness :
  let st := addTidyExitHandler (app_exit_handler 0) (VStr "slow") JUndefined
              (snd (hookExpressApp 3 node)) in
  let st' := snd (_emittidyExitEvent (VStr "SIGTERM") st) in
  _expresstidyExitHandler 3 st = None
  /\ _expresstidyExitHandler 3 st' = Some 1
  /\ _expresstidyExitHandler 3 (run [call_reset; call_hookExpressApp 3] st') = Some 1.
Proof.
  split; [vm_compute; reflexivity|]. split.
  - apply (proj1 (raised_flag_is_never_lowered 3%nat) (VStr "SIGTERM")
             {| appExitHandler := express_exit_handler 3; desc := VStr "expressApp" |}
             (addTidyExitHandler (app_exit_handler 0) (VStr "slow") JUndefined
                (snd (hookExpressApp 3 node)))).
    + vm_compute. reflexivity.
    + vm_compute. left. reflexivity.
    + reflexivity.
    + vm_compute. discriminate.
  - apply (proj2 (raised_flag_is_never_lowered 3%nat)
             [call_reset; call_hookExpressApp 3]
             (snd (_emittidyExitEvent (VStr "SIGTERM")
                     (addTidyExitHandler (app_exit_handler 0) (VStr "slow") JUndefined
                        (snd (hookExpressApp 3 node)))))).
    vm_compute. reflexivity.
Defined.

(* ------------------------------------------------------------------------ *)
(** ** What a broadcast logs *)
(* ------------------------------------------------------------------------ *)

Lemma call_each_keeps {A} (Q : state -> Prop) (m : M A) k :
  (forall s, Q s -> Q (snd (m s))) ->
  forall s, Q s -> Q (snd (call_each k m s)).
Proof.
  intros Hm. induction k as [|k IH]; intros s H; [exact H|].
  cbn [call_each]. unfold bind. specialize (Hm s H).
  destruct (m s) as [[a|] s1]; cbn [snd] in *; [apply IH, Hm | exact Hm].
Qed.

Lemma check_valid_slot n v st :
  logged_with_slot n v st ->
  logged_with_slot n v (snd (_checkHandlersDone (JNum n) st)).
Proof.
  intros [H1 H2]. rewrite checkHandlersDone_decomposed.
  assert (Em : mark_done (JNum n) st
               = set_handler_callback_registry
                   (increment_slot n (handler_callback_registry st)) st).
  { unfold mark_done, js_le, truthy, to_number.
    destruct (n =? 0) eqn:E0; [lia|]. cbn [negb].
    destruct (n <=? Z.of_nat (List.length (handler_callback_registry st))) eqn:E1;
      [reflexivity | lia]. }
  assert (L := mark_done_length (JNum n) st).
  assert (G : logged (env (mark_done (JNum n) st)) = logged (env st))
    by (rewrite Em; reflexivity).
  remember (mark_done (JNum n) st) as s1 eqn:Es1. clear Es1 Em.
  split.
  - rewrite exit_if_drained_logged. congruence.
  - destruct (isFullyDrained s1) eqn:D.
    + destruct (exit_if_drained_true s1 D) as (_ & R & _). rewrite R, L. exact H2.
    + rewrite (exit_if_drained_false s1 D). cbn [snd]. rewrite L. exact H2.
Qed.

Lemma emit_done_valid_slot n v st :
  logged_with_slot n v st -> logged_with_slot n v (snd (emit_done (JNum n) st)).
Proof.
  intros H. unfold emit_done.
  apply (call_each_keeps (logged_with_slot n v)); [|exact H].
  intros s. apply check_valid_slot.
Qed.

(** Each subscriber called logs one line, whatever its handler does with
    [done]. *)
Lemma listener_logs l source sink st :
  log st = custom_logger sink ->
  logged (env (snd (tidy_exit_listener l source st)))
  = logged (env st) ++ [(sink, trigger_line source l)].
Proof.
  intros Hl. unfold tidy_exit_listener.
  match goal with
  | |- context [run_exit_handler _ (emit_done (JNum ?n)) ?s0] =>
      assert (Q : logged_with_slot n
                    (logged (env st) ++ [(sink, trigger_line source l)]) s0);
      [ split;
        [ unfold log_call;
          cbn [log set_handler_callback_registry]; rewrite Hl; reflexivity
        | assert (E : handler_callback_registry s0 = handler_callback_registry st ++ [0])
            by (unfold log_call;
                cbn [log set_handler_callback_registry]; rewrite Hl; reflexivity);
          rewrite E, length_app; cbn [List.length]; lia ]
      | remember s0 as st3 eqn:E3; clear E3;
        remember n as slot eqn:En; clear En ]
  end.
  remember (logged (env st) ++ [(sink, trigger_line source l)]) as v eqn:Ev. clear Ev.
  assert (R : logged_with_slot slot v
                (snd (run_exit_handler (appExitHandler l) (emit_done (JNum slot)) st3))).
  { destruct (appExitHandler l) as [|app|server|k]; cbn [run_exit_handler].
    - unfold _defaultExitHandler.
      apply emit_done_valid_slot. destruct (default_exit_timer st3); exact Q.
    - unfold bind, lift. apply emit_done_valid_slot. exact Q.
    - exact Q.
    - apply (call_each_keeps (logged_with_slot slot v)); [|exact Q].
      intros s. apply emit_done_valid_slot. }
  apply R.
Qed.

Lemma listeners_log source sink ls st :
  alive st ->
  log st = custom_logger sink ->
  let out := forEach (fun l => lift unsubscribe_first ;;; tidy_exit_listener l source)
                     ls st in
  fst out <> None ->
  logged (env (snd out))
  = logged (env st) ++ map (fun l => (sink, trigger_line source l)) ls.
Proof.
  revert st. induction ls as [|l r IH]; intros st Ha Hl out; subst out.
  - intros _. cbn [forEach ret snd map]. rewrite app_nil_r. reflexivity.
  - rewrite forEach_listeners_cons.
    assert (Au : alive (unsubscribe_first st)) by exact Ha.
    assert (Lu : log (unsubscribe_first st) = custom_logger sink) by exact Hl.
    destruct (preserves_tidy_exit_listener
                (fun s => timeout_fields s = timeout_fields st) l source
                (timeout_fields_handler_steps _) (unsubscribe_first st) Au eq_refl)
      as [T A1].
    assert (G := listener_logs l source sink (unsubscribe_first st) Lu).
    destruct (tidy_exit_listener l source (unsubscribe_first st)) as [[u|] s1];
      cbn [fst snd] in *; [|congruence].
    intros Hret. rewrite (IH s1); [| apply A1; discriminate | | exact Hret].
    + rewrite G. change (logged (env (unsubscribe_first st))) with (logged (env st)).
      cbn [map]. rewrite <- app_assoc. reflexivity.
    + unfold timeout_fields in T. injection T as _ _ T3. congruence.
Qed.

(** X12. With a logger set, a broadcast that returns has handed it one line
    per subscriber called, in subscription order and the safety net's last:
    "Graceful exit triggered by <source> for <description>"; the completion
    callbacks of the handlers add nothing to it. *)
Theorem broadcast_logs_one_line_per_task :
  forall signal sink st,
    alive st ->
    log st = custom_logger sink ->
    let out := _emittidyExitEvent signal st in
    fst out <> None ->
    logged (env (snd out))
    = logged (env st)
        ++ map (fun l => (sink, trigger_line signal l))
               (on_tidyExit (tidy_exit_event st)
                  ++ [{| appExitHandler := default_exit_handler;
                         desc := VStr "default timeout handler" |}]).
Proof.
  intros signal sink st Ha Hl out. subst out. rewrite emittidyExitEvent_unfold.
  assert (E := registerDefaultTimeoutHandler_outcome_fields st).
  assert (Ha1 := outcome_fields_alive _ _ E Ha). clear E.
  assert (Hs : on_tidyExit (tidy_exit_event (_registerDefaultTimeoutHandler st))
               = on_tidyExit (tidy_exit_event st)
                   ++ [{| appExitHandler := default_exit_handler;
                          desc := VStr "default timeout handler" |}]).
  { unfold _registerDefaultTimeoutHandler.
    cbn [tidy_exit_event set_tidy_exit_event on_tidyExit].
    apply addTidyExitHandler_registry. }
  assert (Hq : log (_registerDefaultTimeoutHandler st) = custom_logger sink
               /\ logged (env (_registerDefaultTimeoutHandler st)) = logged (env st)).
  { unfold _registerDefaultTimeoutHandler.
    cbn [log env set_tidy_exit_event].
    assert (T := addTidyExitHandler_untimed_timeout_fields default_exit_handler
                   (VStr "default timeout handler") st).
    unfold timeout_fields in T. injection T as _ _ T3.
    split; [transitivity (log st); [exact T3 | exact Hl]|].
    unfold addTidyExitHandler. rewrite js_gt_undefined.
    cbn [env set_tidy_exit_event].
    unfold _registerExitListeners. destruct (listening_to_exit st) as [[|]|]; reflexivity. }
  destruct Hq as [Hl1 Hg1].
  remember (_registerDefaultTimeoutHandler st) as s1 eqn:Es1. clear Es1.
  unfold emit_tidy_exit. cbn [tidy_exit_event set_registered_handlers_count].
  intros Hret.
  match type of Hret with
  | fst (forEach _ ?ls ?s0) <> None =>
      rewrite (listeners_log signal sink ls s0 Ha1 Hl1 Hret)
  end.
  rewrite Hs. f_equal. exact Hg1.
Qed.

Lemma broadcast_logs_one_line_per_task_witness :
  let st := run [call_setLogger 7;
                 call_addTidyExitHandler 0 (VStr "slow") JUndefined] node in
  logged (env (snd (_emittidyExitEvent (VArr [VStr "shutdown"]) st)))
  = [(7%nat, "Graceful exit triggered by shutdown for slow");
     (7%nat, "Graceful exit triggered by shutdown for default timeout handler")].
Proof.
  apply (broadcast_logs_one_line_per_task (VArr [VStr "shutdown"]) 7%nat
           (run [call_setLogger 7;
                 call_addTidyExitHandler 0 (VStr "slow") JUndefined] node)).
  - vm_compute. reflexivity.
  - vm_compute. reflexivity.
  - vm_compute. discriminate.
Defined.
